(** * Hospital appointment booking: slot store, appointment ledger,
      expiration sweep and prescription generator

    A shallow embedding of the backend of the hospital management
    application (controllers/appointmentController.js,
    controllers/prescriptionController.js, services/appointmentService.js,
    scripts/seedData.js and the Mongoose schemas under model/).

    MongoDB collections addressed by [_id] are finite maps from ObjectId to
    document; the prescription collection is a list of documents, because the
    question asked about it is whether two documents can carry the same
    [appointmentId].  Every controller is a function from the database (and
    the request) to the new database and the HTTP response it sends. *)

From Stdlib Require Import ZArith Lia Ascii String.
From stdpp Require Import base option list strings pretty gmap fin_maps sorting.

Local Open Scope Z_scope.
Local Open Scope string_scope.

(** ** Documents *)

(** A MongoDB ObjectId, as the string the routes receive it as. *)
Abbreviation ObjectId := string (only parsing).

(** The [enum] of [appointmentSchema.status] in model/Users.js. *)
Inductive Status := scheduled | confirmed | completed | cancelled | no_show.

#[global] Instance Status_eq_dec : EqDecision Status.
Proof. solve_decision. Defined.

Definition statusName (s : Status) : string :=
  match s with
  | scheduled => "scheduled"
  | confirmed => "confirmed"
  | completed => "completed"
  | cancelled => "cancelled"
  | no_show => "no-show"
  end.

(** The enum validator that [save()] runs on a status written from a request:
    a string outside the enum is rejected. *)
Definition statusOfString (s : string) : option Status :=
  if decide (s = "scheduled") then Some scheduled
  else if decide (s = "confirmed") then Some confirmed
  else if decide (s = "completed") then Some completed
  else if decide (s = "cancelled") then Some cancelled
  else if decide (s = "no-show") then Some no_show
  else None.

Module Appointment.

Record t := mk {
  _id : ObjectId;
  hospitalId : ObjectId;
  hospitalName : string;
  departmentId : ObjectId;
  department : string;
  doctorId : ObjectId;
  doctorName : string;
  appointmentDate : Z;
  appointmentTime : string;
  location : string;
  status : Status;
  createdAt : Z;
  actualStartTime : Z;
  actualEndTime : Z;
  slotId : option ObjectId;
  prescriptionId : option ObjectId;
  notes : option string
}.

Definition setStatus (s : Status) (a : t) : t :=
  mk (_id a) (hospitalId a) (hospitalName a) (departmentId a) (department a)
     (doctorId a) (doctorName a) (appointmentDate a) (appointmentTime a)
     (location a) s (createdAt a) (actualStartTime a) (actualEndTime a)
     (slotId a) (prescriptionId a) (notes a).

Definition setPrescriptionId (p : option ObjectId) (a : t) : t :=
  mk (_id a) (hospitalId a) (hospitalName a) (departmentId a) (department a)
     (doctorId a) (doctorName a) (appointmentDate a) (appointmentTime a)
     (location a) (status a) (createdAt a) (actualStartTime a) (actualEndTime a)
     (slotId a) p (notes a).

Definition setNotes (n : option string) (a : t) : t :=
  mk (_id a) (hospitalId a) (hospitalName a) (departmentId a) (department a)
     (doctorId a) (doctorName a) (appointmentDate a) (appointmentTime a)
     (location a) (status a) (createdAt a) (actualStartTime a) (actualEndTime a)
     (slotId a) (prescriptionId a) n.

End Appointment.

Module User.

(** Of [userSchema] only the embedded ledger matters to the appointment
    controllers; [email] stands for the profile fields they never touch. *)
Record t := mk {
  email : string;
  appointments : list Appointment.t
}.

Definition setAppointments (l : list Appointment.t) (u : t) : t :=
  mk (email u) l.

End User.

Module AppointmentSlot.

Record t := mk {
  doctor : ObjectId;
  hospital : ObjectId;
  date : Z;
  startTime : string;
  endTime : string;
  duration : Z;
  isBooked : bool;
  isAvailable : bool;
  bookedBy : option ObjectId
}.

(** The three fields a claim or a release writes, in one update. *)
Definition setBooking (booked available : bool) (by_ : option ObjectId) (s : t) : t :=
  mk (doctor s) (hospital s) (date s) (startTime s) (endTime s) (duration s)
     booked available by_.

End AppointmentSlot.

Module Doctor.

Record t := mk {
  name : string;
  specialty : string;
  hospital : ObjectId;
  appointmentDuration : Z
}.

End Doctor.

Module Hospital.

Record t := mk {
  name : string;
  location : string
}.

End Hospital.

Module Medicine.

Record t := mk {
  name : string;
  genericName : string;
  strengths : list string;
  category : string;
  isActive : bool
}.

End Medicine.

Module Prescription.

Inductive status := active | completed | cancelled.

Record medication := mkMedication {
  name : string;
  genericName : string;
  dosage : string;
  frequency : string;
  duration : string;
  category : string;
  medInstructions : string
}.

Record t := mk {
  _id : ObjectId;
  appointmentId : ObjectId;
  userId : ObjectId;
  hospitalName : string;
  department : string;
  doctorName : string;
  appointmentDate : Z;
  appointmentTime : string;
  diagnosis : string;
  medications : list medication;
  instructions : string;
  followUpDate : Z;
  prescribedAt : Z;
  pstatus : status
}.

End Prescription.

(** The database: one field per collection. *)
Record Db := mkDb {
  users : gmap ObjectId User.t;
  appointmentSlots : gmap ObjectId AppointmentSlot.t;
  doctors : gmap ObjectId Doctor.t;
  hospitals : gmap ObjectId Hospital.t;
  medicines : list Medicine.t;
  prescriptions : list Prescription.t
}.

Definition setUsers (us : gmap ObjectId User.t) (db : Db) : Db :=
  mkDb us (appointmentSlots db) (doctors db) (hospitals db) (medicines db)
       (prescriptions db).

Definition setAppointmentSlots (ss : gmap ObjectId AppointmentSlot.t) (db : Db) : Db :=
  mkDb (users db) ss (doctors db) (hospitals db) (medicines db) (prescriptions db).

Definition setPrescriptions (ps : list Prescription.t) (db : Db) : Db :=
  mkDb (users db) (appointmentSlots db) (doctors db) (hospitals db)
       (medicines db) ps.

(** ** What the runtime supplies

    Library and engine behaviour the controllers call but the repository does
    not define. *)
Class Platform := {
  (** [mongoose.Types.ObjectId.isValid] *)
  isValid : string → bool;
  (** [new Date(s).getTime()], [None] when the result is NaN *)
  parseDate : string → option Z;
  (** [d.setHours(0, 0, 0, 0)], on milliseconds since the epoch *)
  startOfDay : Z → Z;
  (** [[...l].sort(() => 0.5 - Math.random())]: the engine's sort under a
      random comparator, its draws folded into one seed *)
  sortRandom : list Medicine.t → nat → list Medicine.t
}.

(** The source of randomness and of fresh ObjectIds ([Math.random] and the
    driver's id generator), as two streams with read positions. *)
Record Src := mkSrc {
  draws : nat → nat;
  ids : nat → ObjectId;
  drawPos : nat;
  idPos : nat
}.

(** Code that draws from the source: a state monad over [Src]. *)
Definition Gen (A : Type) : Type := Src → A * Src.

#[global] Instance Gen_ret : MRet Gen := λ A x g, (x, g).
#[global] Instance Gen_bind : MBind Gen :=
  λ A B k m g, let '(x, g') := m g in k x g'.

(** [Math.floor(Math.random() * n)]: an index below [n]. *)
Definition randomIndex (n : nat) : Gen nat :=
  λ g, ((draws g (drawPos g) `mod` n)%nat,
        mkSrc (draws g) (ids g) (S (drawPos g)) (idPos g)).

(** A raw draw, for the shuffle. *)
Definition randomSeed : Gen nat :=
  λ g, (draws g (drawPos g), mkSrc (draws g) (ids g) (S (drawPos g)) (idPos g)).

(** The [_id] a new document receives. *)
Definition newObjectId : Gen ObjectId :=
  λ g, (ids g (idPos g), mkSrc (draws g) (ids g) (drawPos g) (S (idPos g))).

(** [arr[Math.floor(Math.random() * arr.length)]] *)
Definition pickRandom (arr : list string) : Gen string :=
  i ← randomIndex (length arr); mret (default "" (arr !! i)).

(** One day and one minute, in milliseconds. *)
Definition msPerDay : Z := 24 * 60 * 60 * 1000.
Definition msPerMinute : Z := 60000.

(** [d.setDate(d.getDate() + days)] on milliseconds since the epoch, for a
    server whose time zone has a fixed offset. *)
Definition addDays (t : Z) (days : Z) : Z := t + days * msPerDay.

(** ** HTTP responses *)

Inductive Response (A : Type) :=
| Ok (code : nat) (message : string) (body : A)
| Err (code : nat) (message : string).

Arguments Ok {A} code message body.
Arguments Err {A} code message.

Definition isOk {A} (r : Response A) : bool :=
  match r with Ok _ _ _ => true | Err _ _ => false end.

(** The error taxonomy of the specification, as the responses that carry it. *)
Definition SlotUnavailable {A} : Response A :=
  Err 400 "Selected time slot is no longer available".
Definition UserNotFound {A} : Response A := Err 404 "User not found".
Definition NotFound {A} : Response A := Err 404 "Appointment not found".
Definition AlreadyCancelled {A} : Response A :=
  Err 400 "Appointment is already cancelled".
Definition AlreadyExists {A} : Response A :=
  Err 400 "Prescription already exists for this appointment".
Definition NoMedicinesAvailable {A} : Response A :=
  Err 500 "No medicines available in database".
Definition InternalServerError {A} : Response A := Err 500 "Internal server error".

(** ** Request validation (appointmentController.js) *)

Record AppointmentRequest := mkRequest {
  req_hospitalId : string;
  req_departmentId : string;
  req_doctorId : string;
  req_appointmentDate : string;
  req_appointmentTime : string
}.

(** [!x] on a body field: a missing field reads as the empty string. *)
Definition falsy (s : string) : bool := bool_decide (s = "").

Definition isDigit (c : ascii) : bool :=
  (48 <=? nat_of_ascii c)%nat && (nat_of_ascii c <=? 57)%nat.

Definition digitBelow (c : ascii) (upper : nat) : bool :=
  (48 <=? nat_of_ascii c)%nat && (nat_of_ascii c <=? 48 + upper)%nat.

(** [/^([01]\d|2[0-3]):([0-5]\d)$/.test(s)] *)
Definition isTimeHHMM (s : string) : bool :=
  match s with
  | String h1 (String h2 (String colon (String m1 (String m2 EmptyString)))) =>
      ((digitBelow h1 1 && isDigit h2)
       || (bool_decide (h1 = "2"%char) && digitBelow h2 3))
      && bool_decide (colon = ":"%char)
      && digitBelow m1 5 && isDigit m2
  | _ => false
  end.

(** Whether the database accepts the two writes of a booking request,
    [availableSlot.save()] and [user.save()]: [None], or the [err.message] of
    the error the rejected write throws.  The reads are taken to succeed: a
    read that throws is answered 500 as well, before anything is written. *)
Record Writes := mkWrites {
  slotSave : ObjectId → option string;
  userSave : ObjectId → option string
}.

(** Every write is accepted. *)
Definition accepted : Writes := mkWrites (λ _, None) (λ _, None).

Section Controllers.
Context `{P : Platform}.

(** [validateAppointmentData]: the parsed date, or the message of the first
    check that fails. *)
Definition validateAppointmentData (data : AppointmentRequest) : Z + string :=
  if falsy (req_hospitalId data) || falsy (req_departmentId data)
     || falsy (req_doctorId data) || falsy (req_appointmentDate data)
     || falsy (req_appointmentTime data)
  then inr "All fields are required"
  else if negb (isValid (req_hospitalId data))
          || negb (isValid (req_departmentId data))
          || negb (isValid (req_doctorId data))
  then inr "Invalid ID format"
  else match parseDate (req_appointmentDate data) with
       | None => inr "Invalid date format"
       | Some date =>
           if negb (isTimeHHMM (req_appointmentTime data))
           then inr "Invalid time format. Use HH:MM"
           else inl date
       end.

(** ** Slot store *)

(** The filter of the [AppointmentSlot.findOne] call of [addAppointment]. *)
Definition slotQuery (doctorId hospitalId : ObjectId) (slotDate : Z)
    (time : string) (s : AppointmentSlot.t) : bool :=
  bool_decide (AppointmentSlot.doctor s = doctorId)
  && bool_decide (AppointmentSlot.hospital s = hospitalId)
  && bool_decide (AppointmentSlot.date s = slotDate)
  && bool_decide (AppointmentSlot.startTime s = time)
  && bool_decide (AppointmentSlot.isAvailable s = true)
  && bool_decide (AppointmentSlot.isBooked s = false).

(** [Model.findOne(filter)]: a document that passes the filter, with its id. *)
Definition findOne {A} (q : A → bool) (coll : gmap ObjectId A) : option (ObjectId * A) :=
  List.find (λ kv, q kv.2) (map_to_list coll).

(** The update [availableSlot.save()] issues after the three assignments of
    [addAppointment]: the document with that [_id] gets the three fields. *)
Definition claimSlotById (slotId claimant : ObjectId)
    (slots : gmap ObjectId AppointmentSlot.t) : gmap ObjectId AppointmentSlot.t :=
  alter (AppointmentSlot.setBooking true false (Some claimant)) slotId slots.

(** [AppointmentSlot.findByIdAndUpdate(slotId, {isBooked: false,
    isAvailable: true, bookedBy: null})]; nothing happens for an unknown id. *)
Definition releaseSlot (slotId : ObjectId)
    (slots : gmap ObjectId AppointmentSlot.t) : gmap ObjectId AppointmentSlot.t :=
  alter (AppointmentSlot.setBooking false true None) slotId slots.

(** ** Appointment ledger *)

(** [doctor.appointmentDuration || 30] *)
Definition durationOrDefault (d : Z) : Z := if decide (d = 0) then 30 else d.

Definition newAppointment (newId : ObjectId) (body : AppointmentRequest)
    (slotDate now : Z) (slotId : ObjectId) (doctor : Doctor.t)
    (hospital : Hospital.t) : Appointment.t :=
  Appointment.mk newId
    (req_hospitalId body) (Hospital.name hospital)
    (req_departmentId body) (Doctor.specialty doctor)
    (req_doctorId body) (Doctor.name doctor)
    slotDate (req_appointmentTime body)
    (Hospital.location hospital)
    confirmed
    now now
    (now + durationOrDefault (Doctor.appointmentDuration doctor) * msPerMinute)
    (Some slotId) None None.

(** [user.appointments.push(newAppointment); user.save()] *)
Definition pushAppointment (userId : ObjectId) (a : Appointment.t)
    (us : gmap ObjectId User.t) : gmap ObjectId User.t :=
  alter (λ u, User.setAppointments (User.appointments u ++ [a])%list u) userId us.

(** [addAppointment]: [userId] is [req.userId], [now] the clock and [newId]
    the id the new subdocument receives.  This is the request whose two
    writes the database accepts; [addAppointmentWith] below adds the [catch]
    path of a rejected write. *)
Definition addAppointment (db : Db) (userId : ObjectId) (body : AppointmentRequest)
    (now : Z) (newId : ObjectId) : Db * Response Appointment.t :=
  match validateAppointmentData body with
  | inr message => (db, Err 400 message)
  | inl date =>
    match users db !! userId with
    | None => (db, UserNotFound)
    | Some user =>
      let slotDate := startOfDay date in
      match findOne (slotQuery (req_doctorId body) (req_hospitalId body) slotDate
                       (req_appointmentTime body)) (appointmentSlots db) with
      | None => (db, SlotUnavailable)
      | Some (slotId, availableSlot) =>
        match doctors db !! req_doctorId body, hospitals db !! req_hospitalId body with
        | Some doctor, Some hospital =>
            let slots' := claimSlotById slotId userId (appointmentSlots db) in
            let a := newAppointment newId body slotDate now slotId doctor hospital in
            (setUsers (pushAppointment userId a (users db))
               (setAppointmentSlots slots' db),
             Ok 201 "Appointment booked successfully! It will be completed in 1 minute." a)
        | _, _ => (db, Err 400 "Doctor or hospital not found")
        end
      end
    end
  end.

(** [addAppointment] with its [catch]: a write the database rejects throws,
    and the request is answered 500 with what was written before it.
    [addAppointment] above is the run in which both writes are accepted. *)
Definition addAppointmentWith (w : Writes) (db : Db) (userId : ObjectId)
    (body : AppointmentRequest) (now : Z) (newId : ObjectId)
    : Db * Response Appointment.t :=
  match validateAppointmentData body with
  | inr message => (db, Err 400 message)
  | inl date =>
    match users db !! userId with
    | None => (db, UserNotFound)
    | Some user =>
      let slotDate := startOfDay date in
      match findOne (slotQuery (req_doctorId body) (req_hospitalId body) slotDate
                       (req_appointmentTime body)) (appointmentSlots db) with
      | None => (db, SlotUnavailable)
      | Some (slotId, availableSlot) =>
        match doctors db !! req_doctorId body, hospitals db !! req_hospitalId body with
        | Some doctor, Some hospital =>
            match slotSave w slotId with
            | Some message => (db, Err 500 ("Internal server error: " +:+ message))
            | None =>
                let db1 :=
                  setAppointmentSlots
                    (claimSlotById slotId userId (appointmentSlots db)) db in
                let a := newAppointment newId body slotDate now slotId doctor hospital in
                match userSave w userId with
                | Some message =>
                    (db1, Err 500 ("Internal server error: " +:+ message))
                | None =>
                    (setUsers (pushAppointment userId a (users db1)) db1,
                     Ok 201 "Appointment booked successfully! It will be completed in 1 minute." a)
                end
            end
        | _, _ => (db, Err 400 "Doctor or hospital not found")
        end
      end
    end
  end.

(** [user.appointments.id(appointmentId)]: the first subdocument with that
    id, and its position. *)
Definition findAppointment (appointmentId : ObjectId) (l : list Appointment.t)
    : option (nat * Appointment.t) :=
  list_find (λ a, Appointment._id a = appointmentId) l.

(** [cancelAppointment], when the database accepts its two writes *)
Definition cancelAppointment (db : Db) (userId appointmentId : ObjectId)
    : Db * Response unit :=
  if negb (isValid appointmentId) then (db, Err 400 "Invalid appointment ID")
  else
    match users db !! userId with
    | None => (db, UserNotFound)
    | Some user =>
      match findAppointment appointmentId (User.appointments user) with
      | None => (db, NotFound)
      | Some (i, appointment) =>
        if decide (Appointment.status appointment = cancelled)
        then (db, AlreadyCancelled)
        else
          let slots' :=
            match Appointment.slotId appointment with
            | Some slotId => releaseSlot slotId (appointmentSlots db)
            | None => appointmentSlots db
            end in
          let user' :=
            User.setAppointments
              (<[i := Appointment.setStatus cancelled appointment]>
                 (User.appointments user)) user in
          (setUsers (<[userId := user']> (users db)) (setAppointmentSlots slots' db),
           Ok 200 "Appointment cancelled successfully" tt)
      end
    end.

(** The body of a PATCH: a JSON object with string values. *)
Definition allowedUpdates : list string := ["status"; "notes"].

(** The loop that copies the allowed keys of [updateData] into [updates]. *)
Definition pickAllowed (updateData : gmap string string) : gmap string string :=
  filter (λ kv, kv.1 ∈ allowedUpdates) updateData.

(** [Object.assign(appointment, updates)] followed by the schema's enum
    validation of [status]: [None] when validation rejects the document. *)
Definition assignUpdates (updates : gmap string string) (a : Appointment.t)
    : option Appointment.t :=
  let withNotes :=
    match updates !! "notes" with
    | Some n => Appointment.setNotes (Some n) a
    | None => a
    end in
  match updates !! "status" with
  | Some s =>
      match statusOfString s with
      | Some st => Some (Appointment.setStatus st withNotes)
      | None => None
      end
  | None => Some withNotes
  end.

(** [updateAppointment] *)
Definition updateAppointment (db : Db) (userId appointmentId : ObjectId)
    (updateData : gmap string string) : Db * Response Appointment.t :=
  if negb (isValid appointmentId) then (db, Err 400 "Invalid appointment ID")
  else
    let updates := pickAllowed updateData in
    if decide (size updates = 0%nat) then (db, Err 400 "No valid fields to update")
    else
      match users db !! userId with
      | None => (db, UserNotFound)
      | Some user =>
        match findAppointment appointmentId (User.appointments user) with
        | None => (db, NotFound)
        | Some (i, appointment) =>
          match assignUpdates updates appointment with
          | None => (db, InternalServerError)
          | Some appointment' =>
            let user' :=
              User.setAppointments
                (<[i := appointment']> (User.appointments user)) user in
            (setUsers (<[userId := user']> (users db)) db,
             Ok 200 "Appointment updated successfully" appointment')
          end
        end
      end.

End Controllers.

(** ** Prescription generator: the tables shared by both paths *)

(** [generateDiagnosis]; the two copies differ in one entry of the Neurology
    row, passed as [neuro]. *)
Definition diagnoses (neuro : string) (department : string) : option (list string) :=
  if decide (department = "Cardiology") then
    Some ["Hypertension"; "Coronary artery disease"; "Arrhythmia"; "Heart failure"; "Chest pain"]
  else if decide (department = "Dermatology") then
    Some ["Acne vulgaris"; "Eczema"; "Psoriasis"; "Contact dermatitis"; "Skin infection"]
  else if decide (department = "Neurology") then
    Some ["Migraine"; "Tension headache"; neuro; "Insomnia"; "Anxiety disorder"]
  else if decide (department = "Orthopedics") then
    Some ["Osteoarthritis"; "Back pain"; "Sprain"; "Tendinitis"; "Fracture follow-up"]
  else if decide (department = "Pediatrics") then
    Some ["Upper respiratory infection"; "Ear infection"; "Viral illness"; "Allergic rhinitis"; "Asthma"]
  else if decide (department = "Oncology") then
    Some ["Follow-up care"; "Symptom management"; "Treatment monitoring"; "Pain management"]
  else if decide (department = "Gynecology") then
    Some ["Menstrual disorder"; "UTI"; "Vaginal infection"; "Contraception management"; "Pregnancy follow-up"]
  else if decide (department = "Psychiatry") then
    Some ["Anxiety disorder"; "Depression"; "Insomnia"; "Stress management"; "Mood disorder"]
  else if decide (department = "General") then
    Some ["General medical condition"; "Follow-up examination"; "Routine checkup"; "Health maintenance"]
  else None.

Definition generateDiagnosis (neuro : string) (department : string) : Gen string :=
  pickRandom (default ["General medical condition"; "Follow-up examination";
                       "Routine checkup"; "Health maintenance"]
                      (diagnoses neuro department)).

Definition generateDosage (strengths : list string) : Gen string :=
  match strengths with
  | [] => mret "As directed"
  | _ =>
      randomStrength ← pickRandom strengths;
      frequency ← pickRandom ["once daily"; "twice daily"; "three times daily";
                              "four times daily"; "as needed"];
      mret (randomStrength +:+ " " +:+ frequency)
  end.

Definition generateMedicationInstructions (category : string) : string :=
  if decide (category = "antibiotic") then "Complete the full course even if you feel better"
  else if decide (category = "analgesic") then "Take with food if stomach upset occurs"
  else if decide (category = "anti-inflammatory") then "Take with food or milk to avoid stomach irritation"
  else if decide (category = "antihistamine") then "May cause drowsiness - avoid driving"
  else if decide (category = "cardiovascular") then "Take at the same time every day"
  else if decide (category = "gastrointestinal") then "Take 30-60 minutes before meals"
  else if decide (category = "respiratory") then "Rinse mouth after using inhaler"
  else if decide (category = "endocrine") then "Take with food to reduce stomach upset"
  else if decide (category = "vitamin") then "Take with food for better absorption"
  else "Take as directed by your physician".

(** [Prescription.findOne({ appointmentId })] *)
Definition findPrescription (appointmentId : ObjectId) (ps : list Prescription.t)
    : option Prescription.t :=
  snd <$> list_find (λ p, Prescription.appointmentId p = appointmentId) ps.

(** [prescription.save()] of a new document: the unique index on
    [appointmentId] (model/Prescription.js) rejects a second document with the
    same key. *)
Definition savePrescription (p : Prescription.t) (ps : list Prescription.t)
    : option (list Prescription.t) :=
  match findPrescription (Prescription.appointmentId p) ps with
  | Some _ => None
  | None => Some (ps ++ [p])%list
  end.

(** [Medicine.find({ isActive: true })] *)
Definition activeMedicines (db : Db) : list Medicine.t :=
  List.filter Medicine.isActive (medicines db).

(** The follow-up offsets of [generateFollowUpDate]. *)
Definition followUpDays : list Z := [7; 14; 30; 60; 90].

(** ** services/appointmentService.js *)

Module AppointmentService.
Section Service.
Context `{P : Platform}.

Definition medicationOf (med : Medicine.t) : Gen Prescription.medication :=
  dosage ← generateDosage (Medicine.strengths med);
  mret (Prescription.mkMedication (Medicine.name med) (Medicine.genericName med)
          dosage "As prescribed" "7 days" (Medicine.category med)
          (generateMedicationInstructions (Medicine.category med))).

(** [generatePrescription(appointment, userId)]: the prescription it
    returns, or the message of the error it throws. *)
Definition generatePrescription (db : Db) (appointment : Appointment.t)
    (userId : ObjectId) (now : Z) : Gen (Db * (Prescription.t + string)) :=
  match findPrescription (Appointment._id appointment) (prescriptions db) with
  | Some existingPrescription => mret (db, inl existingPrescription)
  | None =>
      r ← randomIndex 3;
      let medicineCount := (r + 1)%nat in
      let allMedicines := activeMedicines db in
      if decide (length allMedicines = 0%nat)
      then mret (db, inr "No medicines available in database")
      else
        seed ← randomSeed;
        let selectedMedicines := take medicineCount (sortRandom allMedicines seed) in
        medications ← mapM medicationOf selectedMedicines;
        diagnosis ← generateDiagnosis "Neurophy" (Appointment.department appointment);
        newId ← newObjectId;
        let prescription :=
          Prescription.mk newId (Appointment._id appointment) userId
            (Appointment.hospitalName appointment)
            (Appointment.department appointment)
            (Appointment.doctorName appointment)
            (Appointment.appointmentDate appointment)
            (Appointment.appointmentTime appointment)
            diagnosis medications
            "Complete the course and follow up if symptoms persist"
            (now + 7 * 24 * 60 * 60 * 1000)
            now Prescription.active in
        match savePrescription prescription (prescriptions db) with
        | Some ps => mret (setPrescriptions ps db, inl prescription)
        | None => mret (db, inr "E11000 duplicate key error")
        end
  end.

(** The body of the inner loop of [expireAppointments] for one confirmed
    appointment: complete it, then try to attach a prescription. *)
Definition expireOne (db : Db) (userId : ObjectId) (now : Z) (a : Appointment.t)
    : Gen (Db * Appointment.t) :=
  let a1 := Appointment.setStatus completed a in
  '(db', r) ← generatePrescription db a1 userId now;
  mret (db',
        match r with
        | inl prescription =>
            Appointment.setPrescriptionId (Some (Prescription._id prescription)) a1
        | inr _ => a1
        end).

(** The inner loop over one patient's ledger: the mutated ledger and how
    many appointments it expired ([shouldSave] is that count being positive). *)
Fixpoint expireLedger (db : Db) (userId : ObjectId) (now : Z)
    (l : list Appointment.t) : Gen (Db * list Appointment.t * nat) :=
  match l with
  | [] => mret (db, [], 0%nat)
  | a :: rest =>
      if decide (Appointment.status a = confirmed) then
        '(db1, a') ← expireOne db userId now a;
        '(db2, rest', n) ← expireLedger db1 userId now rest;
        mret (db2, a' :: rest', S n)
      else
        '(db2, rest', n) ← expireLedger db userId now rest;
        mret (db2, a :: rest', n)
  end.

(** The outer loop.  [storage userId] says whether [user.save()] of that
    patient's document succeeds; when it does not, the exception leaves the
    loop and [expireAppointments] rethrows it. *)
Fixpoint sweepUsers (storage : ObjectId → bool) (now : Z)
    (todo : list (ObjectId * User.t)) (db : Db) (expiredCount : nat)
    : Gen (Db * (nat + string)) :=
  match todo with
  | [] => mret (db, inl expiredCount)
  | (userId, user) :: rest =>
      '(db1, appts, n) ← expireLedger db userId now (User.appointments user);
      if decide (n = 0%nat) then sweepUsers storage now rest db1 expiredCount
      else if storage userId then
        sweepUsers storage now rest
          (setUsers (<[userId := User.setAppointments appts user]> (users db1)) db1)
          (expiredCount + n)
      else mret (db1, inr "user.save() failed")
  end.

Definition hasConfirmed (u : User.t) : bool :=
  existsb (λ a, bool_decide (Appointment.status a = confirmed)) (User.appointments u).

(** [User.find({ 'appointments.status': 'confirmed' })] *)
Definition usersWithConfirmed (db : Db) : list (ObjectId * User.t) :=
  filter (λ kv, hasConfirmed kv.2 = true) (map_to_list (users db)).

(** [expireAppointments]: the number of appointments expired, or the error
    thrown to the scheduler. *)
Definition expireAppointments (storage : ObjectId → bool) (now : Z) (db : Db)
    : Gen (Db * (nat + string)) :=
  sweepUsers storage now (usersWithConfirmed db) db 0.

End Service.
End AppointmentService.

(** ** controllers/prescriptionController.js *)

Module PrescriptionController.
Section Controller.
Context `{P : Platform}.

Definition generateFrequency : Gen string :=
  pickRandom ["Take with food"; "Take on empty stomach"; "Take with plenty of water";
              "Take at bedtime"; "Take in the morning"; "Take with meals"].

Definition generateDuration : Gen string :=
  pickRandom ["7 days"; "10 days"; "14 days"; "30 days"; "As needed";
              "Until finished"; "90 days"].

Definition generateInstructions : Gen string :=
  pickRandom ["Complete the full course of medication"; "Return if symptoms worsen";
              "Avoid alcohol while taking this medication";
              "May cause drowsiness - avoid driving"; "Take with plenty of water";
              "Store at room temperature away from moisture";
              "Follow up if no improvement in 3 days"; "Maintain adequate hydration";
              "Avoid prolonged sun exposure"].

(** [generateFollowUpDate] *)
Definition generateFollowUpDate (now : Z) : Gen Z :=
  i ← randomIndex (length followUpDays);
  let days := default 0 (followUpDays !! i) in
  mret (addDays now days).

Definition medicationOf (med : Medicine.t) : Gen Prescription.medication :=
  dosage ← generateDosage (Medicine.strengths med);
  frequency ← generateFrequency;
  duration ← generateDuration;
  mret (Prescription.mkMedication (Medicine.name med) (Medicine.genericName med)
          dosage frequency duration (Medicine.category med)
          (generateMedicationInstructions (Medicine.category med))).

(** [generatePrescriptionForAppointment] *)
Definition generatePrescriptionForAppointment (db : Db)
    (userId appointmentId : ObjectId) (now : Z) : Gen (Db * Response Prescription.t) :=
  if negb (isValid appointmentId) then mret (db, Err 400 "Invalid appointment ID")
  else
    match users db !! userId with
    | None => mret (db, UserNotFound)
    | Some user =>
      match findAppointment appointmentId (User.appointments user) with
      | None => mret (db, NotFound)
      | Some (i, appointment) =>
        if negb (bool_decide (Appointment.status appointment = confirmed))
           && negb (bool_decide (Appointment.status appointment = completed))
        then mret (db, Err 400 "Prescription can only be generated for confirmed or completed appointments")
        else
          match findPrescription appointmentId (prescriptions db) with
          | Some _ => mret (db, AlreadyExists)
          | None =>
            r ← randomIndex 3;
            let medicineCount := (r + 1)%nat in
            let allMedicines := activeMedicines db in
            if decide (length allMedicines = 0%nat)
            then mret (db, NoMedicinesAvailable)
            else
              seed ← randomSeed;
              let selectedMedicines :=
                take medicineCount (sortRandom allMedicines seed) in
              medications ← mapM medicationOf selectedMedicines;
              diagnosis ← generateDiagnosis "Neuropathy" (Appointment.department appointment);
              instructions ← generateInstructions;
              followUpDate ← generateFollowUpDate now;
              newId ← newObjectId;
              let prescription :=
                Prescription.mk newId appointmentId userId
                  (Appointment.hospitalName appointment)
                  (Appointment.department appointment)
                  (Appointment.doctorName appointment)
                  (Appointment.appointmentDate appointment)
                  (Appointment.appointmentTime appointment)
                  diagnosis medications instructions followUpDate
                  now Prescription.active in
              match savePrescription prescription (prescriptions db) with
              | None => mret (db, InternalServerError)
              | Some ps =>
                let appointment' :=
                  Appointment.setStatus completed
                    (Appointment.setPrescriptionId (Some newId) appointment) in
                let user' :=
                  User.setAppointments
                    (<[i := appointment']> (User.appointments user)) user in
                mret (setUsers (<[userId := user']> (users db)) (setPrescriptions ps db),
                      Ok 200 "Prescription generated successfully" prescription)
              end
          end
      end
    end.

End Controller.
End PrescriptionController.

(** ** scripts/seedData.js: slot generation *)

Module Seed.
Section Seed.
Context `{P : Platform}.

(** [n.toString().padStart(2, '0')] *)
Definition pad2 (n : Z) : string :=
  let s := pretty n in
  if decide (String.length s < 2)%nat then "0" +:+ s else s.

Definition seedSlot (doctorId hospitalId : ObjectId) (slotDate : Z)
    (appointmentDuration hour minute : Z) : AppointmentSlot.t :=
  let startTime := pad2 hour +:+ ":" +:+ pad2 minute in
  let endMinute := minute + appointmentDuration in
  let endHourTime := if decide (60 ≤ endMinute)%Z then hour + 1 else hour in
  let endMinuteTime := endMinute `mod` 60 in
  let endTime := pad2 endHourTime +:+ ":" +:+ pad2 endMinuteTime in
  AppointmentSlot.mk doctorId hospitalId slotDate startTime endTime
    appointmentDuration false true None.

(** [for (let minute = 0; minute < 60; minute += appointmentDuration)]; a
    positive step leaves the loop within 60 rounds. *)
Fixpoint minuteLoop (fuel : nat) (minute step : Z) (body : Z → AppointmentSlot.t)
    : list AppointmentSlot.t :=
  match fuel with
  | O => []
  | S fuel' =>
      if decide (minute < 60)%Z
      then body minute :: minuteLoop fuel' (minute + step) step body
      else []
  end.

Definition slotsOfDoctor (startDate : Z) (doc : ObjectId * Doctor.t)
    : list AppointmentSlot.t :=
  let hospitalId := Doctor.hospital doc.2 in
  let appointmentDuration := durationOrDefault (Doctor.appointmentDuration doc.2) in
  day ← seqZ 0 30;
  let slotDate := startOfDay (addDays startDate day) in
  hour ← seqZ 9 8;
  minuteLoop 60 0 appointmentDuration
    (seedSlot doc.1 hospitalId slotDate appointmentDuration hour).

(** The array [appointmentSlots] the script builds. *)
Definition generateSlots (startDate : Z) (docs : list (ObjectId * Doctor.t))
    : list AppointmentSlot.t :=
  doc ← docs; slotsOfDoctor startDate doc.

(** [AppointmentSlot.insertMany]: every document gets a new [_id]. *)
Fixpoint insertMany (docs : list AppointmentSlot.t)
    (coll : gmap ObjectId AppointmentSlot.t) : Gen (gmap ObjectId AppointmentSlot.t) :=
  match docs with
  | [] => mret coll
  | d :: rest => newId ← newObjectId; insertMany rest (<[newId := d]> coll)
  end.

(** The slot collection after seeding, from an empty collection. *)
Definition seedSlots (startDate : Z) (docs : list (ObjectId * Doctor.t))
    : Gen (gmap ObjectId AppointmentSlot.t) :=
  insertMany (generateSlots startDate docs) ∅.

End Seed.
End Seed.

(** ** Slot invariant *)

(** A slot is free or claimed: the three flags agree. *)
Definition slotConsistent (s : AppointmentSlot.t) : Prop :=
  (AppointmentSlot.isBooked s = true ↔ AppointmentSlot.bookedBy s ≠ None)
  ∧ (AppointmentSlot.bookedBy s ≠ None ↔ AppointmentSlot.isAvailable s = false).

Definition slotFree (s : AppointmentSlot.t) : Prop :=
  AppointmentSlot.isAvailable s = true ∧ AppointmentSlot.isBooked s = false
  ∧ AppointmentSlot.bookedBy s = None.

Definition slotClaimedBy (claimant : ObjectId) (s : AppointmentSlot.t) : Prop :=
  AppointmentSlot.isAvailable s = false ∧ AppointmentSlot.isBooked s = true
  ∧ AppointmentSlot.bookedBy s = Some claimant.

Definition slotsConsistent (db : Db) : Prop :=
  map_Forall (λ _ s, slotConsistent s) (appointmentSlots db).

(** ** Requests in sequence *)

(** One request to the backend, or one run of the sweep. *)
Inductive Op :=
| OpBook (userId : ObjectId) (body : AppointmentRequest) (now : Z) (newId : ObjectId)
| OpCancel (userId appointmentId : ObjectId)
| OpUpdate (userId appointmentId : ObjectId) (updateData : gmap string string)
| OpGenerate (userId appointmentId : ObjectId) (now : Z)
| OpSweep (storage : ObjectId → bool) (now : Z).

Section Sequential.
Context `{P : Platform}.

Definition runOp (op : Op) (db : Db) : Gen Db :=
  match op with
  | OpBook userId body now newId => mret (addAppointment db userId body now newId).1
  | OpCancel userId appointmentId => mret (cancelAppointment db userId appointmentId).1
  | OpUpdate userId appointmentId updateData =>
      mret (updateAppointment db userId appointmentId updateData).1
  | OpGenerate userId appointmentId now =>
      r ← PrescriptionController.generatePrescriptionForAppointment db userId
             appointmentId now;
      mret r.1
  | OpSweep storage now =>
      r ← AppointmentService.expireAppointments storage now db; mret r.1
  end.

Fixpoint runOps (ops : list Op) (db : Db) : Gen Db :=
  match ops with
  | [] => mret db
  | op :: rest => db' ← runOp op db; runOps rest db'
  end.

End Sequential.

(** ** Requests interleaved

    [addAppointment] is an [async] function: between two [await]s other
    requests run.  Each step below is one database call of it. *)

Record BookCall := mkBookCall {
  call_userId : ObjectId;
  call_body : AppointmentRequest;
  call_now : Z;
  call_newId : ObjectId
}.

Inductive BookTask :=
| AwaitUser (c : BookCall)
| AwaitSlot (c : BookCall) (slotDate : Z)
| AwaitDoctor (c : BookCall) (slotDate : Z) (slotId : ObjectId)
| AwaitHospital (c : BookCall) (slotDate : Z) (slotId : ObjectId)
    (doctor : option Doctor.t)
| AwaitSlotSave (c : BookCall) (slotDate : Z) (slotId : ObjectId)
    (doctor : Doctor.t) (hospital : Hospital.t)
| AwaitUserSave (c : BookCall) (a : Appointment.t)
| Responded (r : Response Appointment.t).

Section Interleaving.
Context `{P : Platform}.

(** One database call of a booking request, with the code that follows it up
    to the next call. *)
Definition bookStep (db : Db) (t : BookTask) : Db * BookTask :=
  match t with
  | AwaitUser c =>
      match validateAppointmentData (call_body c) with
      | inr message => (db, Responded (Err 400 message))
      | inl date =>
          match users db !! call_userId c with
          | None => (db, Responded UserNotFound)
          | Some _ => (db, AwaitSlot c (startOfDay date))
          end
      end
  | AwaitSlot c slotDate =>
      match findOne (slotQuery (req_doctorId (call_body c))
                       (req_hospitalId (call_body c)) slotDate
                       (req_appointmentTime (call_body c))) (appointmentSlots db) with
      | None => (db, Responded SlotUnavailable)
      | Some (slotId, _) => (db, AwaitDoctor c slotDate slotId)
      end
  | AwaitDoctor c slotDate slotId =>
      (db, AwaitHospital c slotDate slotId (doctors db !! req_doctorId (call_body c)))
  | AwaitHospital c slotDate slotId doctor =>
      match doctor, hospitals db !! req_hospitalId (call_body c) with
      | Some doctor, Some hospital =>
          (db, AwaitSlotSave c slotDate slotId doctor hospital)
      | _, _ => (db, Responded (Err 400 "Doctor or hospital not found"))
      end
  | AwaitSlotSave c slotDate slotId doctor hospital =>
      (setAppointmentSlots
         (claimSlotById slotId (call_userId c) (appointmentSlots db)) db,
       AwaitUserSave c
         (newAppointment (call_newId c) (call_body c) slotDate (call_now c)
            slotId doctor hospital))
  | AwaitUserSave c a =>
      (setUsers (pushAppointment (call_userId c) a (users db)) db,
       Responded (Ok 201 "Appointment booked successfully! It will be completed in 1 minute." a))
  | Responded r => (db, Responded r)
  end.

(** The scheduler: the request at position [i] of the pool makes its next
    database call. *)
Definition schedule1 (i : nat) (st : Db * list BookTask) : Db * list BookTask :=
  match st.2 !! i with
  | None => st
  | Some t => let '(db', t') := bookStep st.1 t in (db', <[i := t']> st.2)
  end.

Definition runSchedule (sched : list nat) (st : Db * list BookTask)
    : Db * list BookTask :=
  foldl (λ st i, schedule1 i st) st sched.

(** A request run alone, to its response. *)
Definition runAlone (db : Db) (c : BookCall) : Db * BookTask :=
  Nat.iter 6 (λ st, bookStep st.1 st.2) (db, AwaitUser c).

End Interleaving.


(** * Properties

    The predicates the theorems below are stated with. *)

(** Two appointments that differ at most in [status] and [notes]. *)
Definition sameButStatusNotes (a a' : Appointment.t) : Prop :=
  Appointment.setStatus (Appointment.status a)
    (Appointment.setNotes (Appointment.notes a) a') = a.

(** Everything but the user and prescription collections. *)
Definition sameCatalog (db db' : Db) : Prop :=
  appointmentSlots db' = appointmentSlots db ∧ doctors db' = doctors db
  ∧ hospitals db' = hospitals db ∧ medicines db' = medicines db.

(** No two prescriptions for one appointment. *)
Definition uniquePrescriptions (db : Db) : Prop :=
  NoDup (Prescription.appointmentId <$> prescriptions db).

(** The prescription collection only grows, and stays free of duplicates if it
    was; the catalog collections stay as they are. *)
Definition extends (db db' : Db) : Prop :=
  sameCatalog db db'
  ∧ (∃ more, prescriptions db' = (prescriptions db ++ more)%list)
  ∧ (uniquePrescriptions db → uniquePrescriptions db').

(** How the sweep leaves an appointment [a], as [a']: a confirmed appointment
    is completed, and carries the id of a stored prescription written for it
    unless generation failed, which only an empty catalog causes; any other
    appointment is left alone. *)
Definition sweptRel (db' : Db) (a a' : Appointment.t) : Prop :=
  if decide (Appointment.status a = confirmed) then
    (a' = Appointment.setStatus completed a ∧ activeMedicines db' = [])
    ∨ ∃ p, p ∈ prescriptions db'
           ∧ Prescription.appointmentId p = Appointment._id a
           ∧ a' = Appointment.setPrescriptionId (Some (Prescription._id p))
                    (Appointment.setStatus completed a)
  else a' = a.



(** Code in [Gen] only moves the read positions of the source. *)
Definition preserves {A} (m : Gen A) : Prop :=
  ∀ g x g', m g = (x, g') → draws g' = draws g ∧ ids g' = ids g.

(** The checks [generatePrescriptionForAppointment] makes before it
    generates, none of which looks at the random source. *)
Definition canGenerate `{P : Platform} (db : Db) (userId appointmentId : ObjectId)
    (user : User.t) (i : nat) (a : Appointment.t) : Prop :=
  isValid appointmentId = true
  ∧ users db !! userId = Some user
  ∧ findAppointment appointmentId (User.appointments user) = Some (i, a)
  ∧ (Appointment.status a = confirmed ∨ Appointment.status a = completed)
  ∧ findPrescription appointmentId (prescriptions db) = None
  ∧ activeMedicines db ≠ [].

(** Every appointment that has status [st] in [db] is still in its ledger, at
    the same position and with the same status, in [db']. *)
Definition statusKept (st : Status) (db db' : Db) : Prop :=
  ∀ uid u j a,
    users db !! uid = Some u → User.appointments u !! j = Some a →
    Appointment.status a = st →
    ∃ u' a', users db' !! uid = Some u' ∧ User.appointments u' !! j = Some a'
             ∧ Appointment.status a' = st.

Definition terminal (st : Status) : Prop := st = completed ∨ st = cancelled.

(** The requests that leave appointments of a terminal status [st] in it:
    all but a PATCH that carries a status, and a cancellation when [st] is
    [completed]. *)
Definition keepsTerminal (op : Op) (st : Status) : Prop :=
  terminal st
  ∧ match op with
    | OpCancel _ _ => st = cancelled
    | OpUpdate _ _ updateData => updateData !! "status" = None
    | _ => True
    end.

Definition slotFreeOrClaimed (s : AppointmentSlot.t) : Prop :=
  slotFree s ∨ ∃ claimant, slotClaimedBy claimant s.

(** ** Properties of the specification that the code does not have *)


(** Every patient whose save succeeds ends the sweep without a confirmed
    appointment, whatever happens to the others. *)
Definition sweepIsolatesFailures `{P : Platform} (storage : ObjectId → bool)
    (now : Z) (db : Db) (g : Src) : Prop :=
  let db' := (AppointmentService.expireAppointments storage now db g).1.1 in
  ∀ uid u' a', storage uid = true → users db' !! uid = Some u' →
    a' ∈ User.appointments u' → Appointment.status a' ≠ confirmed.

(** A generator dates the follow-up by a choice from [followUpDays]: every
    date it produces is [now] plus one of the offsets, and every offset can
    be produced. *)
Definition followUpChosenFromSet (gen : Src → option Prescription.t) (now : Z) : Prop :=
  (∀ g p, gen g = Some p →
     ∃ days, days ∈ followUpDays ∧ Prescription.followUpDate p = addDays now days)
  ∧ (∀ days, days ∈ followUpDays →
       ∃ g p, gen g = Some p ∧ Prescription.followUpDate p = addDays now days).

(** The prescriptions the service can produce for an appointment. *)
Definition serviceGenerator `{P : Platform} (db : Db) (a : Appointment.t)
    (userId : ObjectId) (now : Z) : Src → option Prescription.t :=
  λ g, match (AppointmentService.generatePrescription db a userId now g).1.2 with
       | inl p => Some p
       | inr _ => None
       end.

(** The unique index of [appointmentSlotSchema]: one slot per doctor,
    hospital, day and start time. *)
Definition uniqueSlots (db : Db) : Prop :=
  ∀ k1 k2 s1 s2,
    appointmentSlots db !! k1 = Some s1 → appointmentSlots db !! k2 = Some s2 →
    AppointmentSlot.doctor s1 = AppointmentSlot.doctor s2 →
    AppointmentSlot.hospital s1 = AppointmentSlot.hospital s2 →
    AppointmentSlot.date s1 = AppointmentSlot.date s2 →
    AppointmentSlot.startTime s1 = AppointmentSlot.startTime s2 →
    k1 = k2.

(** ** A small hospital, for the examples

    Doctor D works at hospital H and has one slot on 2024-12-25 at 09:00;
    P1 and P2 are patients; the catalog holds five active medicines. *)

Module Demo.

#[export] Instance platform : Platform := {|
  isValid := λ s, bool_decide (String.length s = 24%nat);
  parseDate := λ s,
    if decide (s = "2024-12-25") then Some 1735084800000
    else if decide (s = "2024-12-26") then Some 1735171200000
    else None;
  startOfDay := λ t, t - t `mod` msPerDay;
  sortRandom := λ l _, l
|}.

Definition P1 : ObjectId := "aaaaaaaaaaaaaaaaaaaaaaa1".
Definition P2 : ObjectId := "aaaaaaaaaaaaaaaaaaaaaaa2".
Definition D : ObjectId := "dddddddddddddddddddddddd".
Definition H : ObjectId := "cccccccccccccccccccccccc".
Definition Dept : ObjectId := "eeeeeeeeeeeeeeeeeeeeeeee".
Definition S1 : ObjectId := "555555555555555555555555".
Definition A1 : ObjectId := "bbbbbbbbbbbbbbbbbbbbbbb1".
Definition A2 : ObjectId := "bbbbbbbbbbbbbbbbbbbbbbb2".

Definition xmas : Z := 1735084800000.
Definition clock : Z := 1734000000000.

Definition slot1 : AppointmentSlot.t :=
  AppointmentSlot.mk D H xmas "09:00" "09:30" 30 false true None.

Definition medicine (name category : string) : Medicine.t :=
  Medicine.mk name name ["250mg"; "500mg"] category true.

Definition catalog : list Medicine.t :=
  [medicine "Amoxicillin" "antibiotic"; medicine "Ibuprofen" "analgesic";
   medicine "Cetirizine" "antihistamine"; medicine "Omeprazole" "gastrointestinal";
   medicine "Vitamin D" "vitamin"].

Definition db0 : Db :=
  mkDb {[ P1 := User.mk "p1@example.com" []; P2 := User.mk "p2@example.com" [] ]}
       {[ S1 := slot1 ]}
       {[ D := Doctor.mk "Dr. House" "Cardiology" H 30 ]}
       {[ H := Hospital.mk "General Hospital" "Springfield" ]}
       catalog [].

Definition request : AppointmentRequest := mkRequest H Dept D "2024-12-25" "09:00".

Definition src : Src := mkSrc (λ n, n) (λ n, "rx-" +:+ pretty n) 0 0.

(** An appointment of P1 in a given status. *)
Definition appointmentIn (id : ObjectId) (st : Status) : Appointment.t :=
  Appointment.mk id H "General Hospital" Dept "Cardiology" D "Dr. House" xmas "09:00"
    "Springfield" st clock clock (clock + 30 * msPerMinute) (Some S1) None None.

Definition dbWith (l1 l2 : list Appointment.t) : Db :=
  setUsers {[ P1 := User.mk "p1@example.com" l1; P2 := User.mk "p2@example.com" l2 ]} db0.

(** The two concurrent booking calls for the same slot. *)
Definition call1 : BookCall := mkBookCall P1 request clock A1.
Definition call2 : BookCall := mkBookCall P2 request clock A2.

(** Both requests read the slot before either writes it. *)
Definition racySchedule : list nat := [0; 1; 0; 1; 0; 0; 0; 0; 1; 1; 1; 1]%nat.

(** The first request responds before the second starts. *)
Definition serialSchedule : list nat := [0; 0; 0; 0; 0; 0; 1; 1; 1; 1; 1; 1]%nat.

(** The database after P1 booked the slot. *)
Definition booked : Db := (addAppointment db0 P1 request clock A1).1.

(** Both patients hold a confirmed appointment. *)
Definition bothConfirmed : Db :=
  dbWith [appointmentIn A1 confirmed] [appointmentIn A2 confirmed].

(** The storage fails for P1's document only. *)
Definition p1SaveFails : ObjectId → bool := λ uid, bool_decide (uid ≠ P1).

Definition bookedMessage : string :=
  "Appointment booked successfully! It will be completed in 1 minute.".

End Demo.

(** * More of the backend *)

(** ** Listing a patient's appointments (appointmentController.js)

    The query parameters [page] and [limit] are taken as the integers
    [parseInt] reads from them (1 and 10 when absent); [status], [fromDate]
    and [toDate] are strings, empty when absent.  The division
    [total / limit] reads the same [limit] with [Number], not with
    [parseInt]: the two agree on an integer numeral and differ on "2.5" or
    "10abc". *)

(** [Number(limit)] as [Math.ceil(total / limit)] needs it: an integer, for
    which the ceiling of the quotient of two integers is exact, or any other
    value (a fraction, NaN), given by what the engine answers for each
    [total], [None] when that is not finite. *)
Inductive LimitNumber :=
| IntegerLimit (n : Z)
| OtherLimit (ceilOfQuotient : Z → option Z).

Record AppointmentQuery := mkQuery {
  q_page : Z;
  q_limit : Z;
  q_status : string;
  q_fromDate : string;
  q_toDate : string;
  q_limitNumber : LimitNumber
}.

Record Pagination := mkPagination {
  pg_page : Z;
  pg_limit : Z;
  pg_total : Z;
  (** [Math.ceil(total / limit)]; [None] when the quotient is not finite *)
  pg_pages : option Z
}.

Record AppointmentPage := mkPage {
  page_appointments : list Appointment.t;
  page_pagination : Pagination
}.

(** [arr.slice(start, end)] for integer arguments: a negative index counts
    from the end, and both ends are clamped to the array. *)
Definition jsSlice {A} (l : list A) (start end_ : Z) : list A :=
  let len := Z.of_nat (length l) in
  let k := if decide (start < 0)%Z then Z.max (len + start) 0 else Z.min start len in
  let final := if decide (end_ < 0)%Z then Z.max (len + end_) 0 else Z.min end_ len in
  take (Z.to_nat (final - k)) (drop (Z.to_nat k) l).

(** [appointments.sort((a, b) => new Date(b.createdAt) - new Date(a.createdAt))]:
    newest first; the engine's sort is stable, and so is this insertion. *)
Fixpoint insertNewestFirst (a : Appointment.t) (l : list Appointment.t)
    : list Appointment.t :=
  match l with
  | [] => [a]
  | b :: rest =>
      if decide (Appointment.createdAt b ≤ Appointment.createdAt a)%Z
      then a :: b :: rest
      else b :: insertNewestFirst a rest
  end.

Definition sortNewestFirst (l : list Appointment.t) : list Appointment.t :=
  foldr insertNewestFirst [] l.

(** [Math.ceil(a / b)] on integers, [b] not zero. *)
Definition ceilDiv (a b : Z) : Z := - ((- a) `div` b).

(** [Math.ceil(total / limit)], [None] when it is not finite. *)
Definition pagesFor (limit : LimitNumber) (total : Z) : option Z :=
  match limit with
  | IntegerLimit n => if decide (n = 0) then None else Some (ceilDiv total n)
  | OtherLimit ceilOfQuotient => ceilOfQuotient total
  end.

Section Listing.
Context `{P : Platform}.

(** The three optional filters of [getAppointments], in the order the source
    applies them.  A date that does not parse compares false with everything. *)
Definition filterByStatus (status : string) (l : list Appointment.t)
    : list Appointment.t :=
  if falsy status then l
  else filter (λ apt, statusName (Appointment.status apt) = status) l.

Definition filterFromDate (fromDate : string) (l : list Appointment.t)
    : list Appointment.t :=
  if falsy fromDate then l
  else match parseDate fromDate with
       | Some from => filter (λ apt, (from ≤ Appointment.appointmentDate apt)%Z) l
       | None => []
       end.

Definition filterToDate (toDate : string) (l : list Appointment.t)
    : list Appointment.t :=
  if falsy toDate then l
  else match parseDate toDate with
       | Some to => filter (λ apt, (Appointment.appointmentDate apt ≤ to)%Z) l
       | None => []
       end.

(** The list [getAppointments] paginates. *)
Definition matchingAppointments (q : AppointmentQuery) (l : list Appointment.t)
    : list Appointment.t :=
  sortNewestFirst
    (filterToDate (q_toDate q) (filterFromDate (q_fromDate q)
       (filterByStatus (q_status q) l))).

(** [getAppointments] *)
Definition getAppointments (db : Db) (userId : ObjectId) (q : AppointmentQuery)
    : Response AppointmentPage :=
  let skip := ((q_page q - 1) * q_limit q)%Z in
  match users db !! userId with
  | None => UserNotFound
  | Some user =>
      let appointments := matchingAppointments q (User.appointments user) in
      let total := Z.of_nat (length appointments) in
      let paginatedAppointments := jsSlice appointments skip (skip + q_limit q) in
      Ok 200 ""
        (mkPage paginatedAppointments
           (mkPagination (q_page q) (q_limit q) total
              (pagesFor (q_limitNumber q) total)))
  end.

(** The appointments a request shows, none when it is refused. *)
Definition pageOf (db : Db) (userId : ObjectId) (q : AppointmentQuery)
    : list Appointment.t :=
  match getAppointments db userId q with
  | Ok _ _ page => page_appointments page
  | Err _ _ => []
  end.

(** The pagination block of the answer. *)
Definition paginationOf (db : Db) (userId : ObjectId) (q : AppointmentQuery)
    : option Pagination :=
  match getAppointments db userId q with
  | Ok _ _ page => Some (page_pagination page)
  | Err _ _ => None
  end.

(** What the three filters let through. *)
Definition matchesQuery (q : AppointmentQuery) (apt : Appointment.t) : Prop :=
  (q_status q = "" ∨ statusName (Appointment.status apt) = q_status q)
  ∧ (q_fromDate q = ""
     ∨ ∃ from, parseDate (q_fromDate q) = Some from
               ∧ (from ≤ Appointment.appointmentDate apt)%Z)
  ∧ (q_toDate q = ""
     ∨ ∃ to, parseDate (q_toDate q) = Some to
             ∧ (Appointment.appointmentDate apt ≤ to)%Z).

End Listing.

(** The same query for another page. *)
Definition withPage (p : Z) (q : AppointmentQuery) : AppointmentQuery :=
  mkQuery p (q_limit q) (q_status q) (q_fromDate q) (q_toDate q) (q_limitNumber q).

(** [a] may stand before [b] in a list sorted newest first. *)
Definition newerFirst (a b : Appointment.t) : Prop :=
  (Appointment.createdAt b ≤ Appointment.createdAt a)%Z.

(** ** Listing the free slots of a day (hospitalController.js) *)

Record SlotView := mkSlotView {
  sv_startTime : string;
  sv_endTime : string;
  sv_duration : Z;
  sv_isAvailable : bool;
  sv_isBooked : bool
}.

Section Availability.
Context `{P : Platform}.

(** [d.setHours(23, 59, 59, 999)], on milliseconds since the epoch *)
Variable endOfDay : Z → Z.

(** The filter of the [AppointmentSlot.find] call of [getAvailableSlots]. *)
Definition availableQuery (doctorId hospitalId : ObjectId) (startOfDay_ endOfDay_ : Z)
    (s : AppointmentSlot.t) : bool :=
  bool_decide (AppointmentSlot.doctor s = doctorId)
  && bool_decide (AppointmentSlot.hospital s = hospitalId)
  && bool_decide (startOfDay_ ≤ AppointmentSlot.date s)%Z
  && bool_decide (AppointmentSlot.date s ≤ endOfDay_)%Z
  && bool_decide (AppointmentSlot.isAvailable s = true)
  && bool_decide (AppointmentSlot.isBooked s = false).

(** [.find(filter).sort({ startTime: 1 })]: strings compare byte by byte. *)
Definition findSortedByStartTime (q : AppointmentSlot.t → bool)
    (slots : gmap ObjectId AppointmentSlot.t) : list AppointmentSlot.t :=
  merge_sort
    (λ s1 s2, (AppointmentSlot.startTime s1 ≤ AppointmentSlot.startTime s2)%string)
    (filter (λ s, q s = true) (map_to_list slots).*2).

Definition formatSlot (defaultDuration : Z) (slot : AppointmentSlot.t) : SlotView :=
  mkSlotView (AppointmentSlot.startTime slot) (AppointmentSlot.endTime slot)
    (if decide (AppointmentSlot.duration slot = 0) then defaultDuration
     else AppointmentSlot.duration slot)
    (AppointmentSlot.isAvailable slot) (AppointmentSlot.isBooked slot).

(** [getAvailableSlots]: the formatted slots and their count. *)
Definition getAvailableSlots (db : Db) (doctorId hospitalId : ObjectId) (date : string)
    : Response (list SlotView * nat) :=
  if negb (isValid doctorId) || negb (isValid hospitalId)
  then Err 400 "Invalid doctor or hospital ID"
  else match parseDate date with
       | None => Err 400 "Invalid date format"
       | Some d =>
           let slotDate := startOfDay d in
           let slots :=
             findSortedByStartTime
               (availableQuery doctorId hospitalId slotDate (endOfDay slotDate))
               (appointmentSlots db) in
           let defaultDuration :=
             match doctors db !! doctorId with
             | Some doctor => durationOrDefault (Doctor.appointmentDuration doctor)
             | None => 30
             end in
           let formattedSlots := formatSlot defaultDuration <$> slots in
           Ok 200 "" (formattedSlots, length formattedSlots)
       end.

End Availability.

(** The order of [.sort({ startTime: 1 })]. *)
Definition byStartTime (s1 s2 : AppointmentSlot.t) : Prop :=
  (AppointmentSlot.startTime s1 ≤ AppointmentSlot.startTime s2)%string.

(** ** Listing the locations (hospitalController.js) *)

Section Locations.

(** [loc.trim()] *)
Variable trim : string → string.

(** [Hospital.distinct('location')]: every value once. *)
Definition distinctLocations (db : Db) : list string :=
  remove_dups (Hospital.location <$> (map_to_list (hospitals db)).*2).

(** [getLocations]: the locations shown and the [count] sent with them. *)
Definition getLocations (db : Db) : list string * nat :=
  let locations := distinctLocations db in
  (filter (λ loc, negb (falsy loc) && negb (falsy (trim loc)) = true) locations,
   length locations).

End Locations.

(** ** The scheduler (services/AppointmentScheduler.js) *)

Module AppointmentScheduler.

(** The scheduler object and the timers of the event loop it has set: the
    intervals not yet cleared and the one-shot timeouts, each under the
    handle [setInterval] or [setTimeout] returned for it. *)
Record t := mk {
  (** [this.interval] *)
  interval : option nat;
  intervals : list nat;
  timeouts : list nat;
  nextHandle : nat
}.

(** [new AppointmentScheduler()] in a process that has set no timer yet *)
Definition new : t := mk None [] [] 0.

(** [start()] *)
Definition start (s : t) : t :=
  let h := nextHandle s in
  mk (Some h) (h :: intervals s) (S h :: timeouts s) (S (S h)).

(** [stop()] *)
Definition stop (s : t) : t :=
  match interval s with
  | Some h => mk None (filter (λ x, x ≠ h) (intervals s)) (timeouts s) (nextHandle s)
  | None => s
  end.

(** [isRunning()] *)
Definition isRunning (s : t) : bool := bool_decide (interval s ≠ None).

(** [getStatus()]: [running], [type] and [interval] *)
Definition getStatus (s : t) : bool * string * option Z :=
  (isRunning s, "interval", if isRunning s then Some 10000 else None).

Inductive call := Start | Stop.

Definition runCall (s : t) (c : call) : t :=
  match c with Start => start s | Stop => stop s end.

(** The scheduler after a sequence of calls on the singleton. *)
Definition run (calls : list call) : t := foldl runCall new calls.

End AppointmentScheduler.

(** ** The seed script, one day at a time *)

Section SeedDay.
Context `{P : Platform}.

(** The two inner loops of the slot generation: the slots of one doctor on
    one day. *)
Definition slotsOfDay (doctorId hospitalId : ObjectId) (slotDate : Z)
    (appointmentDuration : Z) : list AppointmentSlot.t :=
  hour ← seqZ 9 8;
  Seed.minuteLoop 60 0 appointmentDuration
    (Seed.seedSlot doctorId hospitalId slotDate appointmentDuration hour).

End SeedDay.

(** The key of the unique index of [appointmentSlotSchema]. *)
Definition slotKey (s : AppointmentSlot.t) : ObjectId * ObjectId * Z * string :=
  (AppointmentSlot.doctor s, AppointmentSlot.hospital s, AppointmentSlot.date s,
   AppointmentSlot.startTime s).

(** Each slot ends where the next begins. *)
Fixpoint chained (l : list AppointmentSlot.t) : Prop :=
  match l with
  | s :: ((s' :: _) as rest) =>
      AppointmentSlot.endTime s = AppointmentSlot.startTime s' ∧ chained rest
  | _ => True
  end.

Fixpoint chainedb (l : list AppointmentSlot.t) : bool :=
  match l with
  | s :: ((s' :: _) as rest) =>
      bool_decide (AppointmentSlot.endTime s = AppointmentSlot.startTime s')
      && chainedb rest
  | _ => true
  end.

(** ** What a generated prescription holds *)

(** The dosage [generateDosage] writes for a medicine. *)
Definition dosageOf (med : Medicine.t) (dosage : string) : Prop :=
  if decide (Medicine.strengths med = []) then dosage = "As directed"
  else ∃ strength frequency,
         strength ∈ Medicine.strengths med
         ∧ frequency ∈ ["once daily"; "twice daily"; "three times daily";
                        "four times daily"; "as needed"]
         ∧ dosage = strength +:+ " " +:+ frequency.

(** A medication line written for medicine [med]: what both generators copy
    from the catalog and derive from it. *)
Definition prescribes (med : Medicine.t) (m : Prescription.medication) : Prop :=
  Prescription.name m = Medicine.name med
  ∧ Prescription.genericName m = Medicine.genericName med
  ∧ Prescription.category m = Medicine.category med
  ∧ Prescription.medInstructions m
    = generateMedicationInstructions (Medicine.category med)
  ∧ dosageOf med (Prescription.dosage m).

(** A prescription written for appointment [a] of patient [userId] at
    [now]: the fields both generators copy. *)
Definition writtenFor (a : Appointment.t) (userId : ObjectId) (now : Z)
    (p : Prescription.t) : Prop :=
  Prescription.appointmentId p = Appointment._id a
  ∧ Prescription.userId p = userId
  ∧ Prescription.hospitalName p = Appointment.hospitalName a
  ∧ Prescription.department p = Appointment.department a
  ∧ Prescription.doctorName p = Appointment.doctorName a
  ∧ Prescription.appointmentDate p = Appointment.appointmentDate a
  ∧ Prescription.appointmentTime p = Appointment.appointmentTime a
  ∧ Prescription.prescribedAt p = now
  ∧ Prescription.pstatus p = Prescription.active.

(** The number of appointments of a collection that are confirmed. *)
Definition confirmedIn (l : list Appointment.t) : nat :=
  length (filter (λ a, Appointment.status a = confirmed) l).

(** The confirmed appointments of all patients. *)
Definition confirmedTotal (db : Db) : nat :=
  sum_list ((λ kv, confirmedIn (User.appointments kv.2)) <$> map_to_list (users db)).


(** ** More of the small hospital *)

Module Sample.

(** [setHours(23, 59, 59, 999)] on a start of day, in UTC *)
Definition endOfDay (t : Z) : Z := t + (msPerDay - 1).

Definition house : Doctor.t := Doctor.mk "Dr. House" "Cardiology" Demo.H 30.

Definition docs : list (ObjectId * Doctor.t) := [(Demo.D, house)].

(** A driver that numbers the documents. *)
Definition src : Src := mkSrc (λ n, n) pretty 0 0.

(** The first page of ten, without filter. *)
Definition firstPage : AppointmentQuery := mkQuery 1 10 "" "" "" (IntegerLimit 10).

Definition A3 : ObjectId := "bbbbbbbbbbbbbbbbbbbbbbb3".

(** P1 with three confirmed appointments. *)
Definition threeConfirmed : Db :=
  Demo.dbWith [Demo.appointmentIn Demo.A1 confirmed; Demo.appointmentIn Demo.A2 confirmed;
               Demo.appointmentIn A3 confirmed] [].

(** [?limit=1.5]: [parseInt] reads 1, and [total / 1.5] is [2 * total / 3]. *)
Definition fractionLimit : AppointmentQuery :=
  mkQuery 1 1 "" "" "" (OtherLimit (λ total, Some (ceilDiv (2 * total) 3))).

(** P1 with one confirmed appointment. *)
Definition oneConfirmed : Db := Demo.dbWith [Demo.appointmentIn Demo.A1 confirmed] [].

End Sample.

(** * Proofs *)

(** ** Finding documents *)

Section Lookup.
Context `{P : Platform}.

Lemma findOne_Some {A} (q : A → bool) (coll : gmap ObjectId A) k x :
  findOne q coll = Some (k, x) → coll !! k = Some x ∧ q x = true.
Proof.
  unfold findOne. intros Hfind.
  apply find_some in Hfind as [Hin Hq]. split; [|exact Hq].
  by apply elem_of_map_to_list, list_elem_of_In.
Qed.

Lemma findOne_None {A} (q : A → bool) (coll : gmap ObjectId A) :
  findOne q coll = None ↔ ∀ k x, coll !! k = Some x → q x = false.
Proof.
  unfold findOne. split.
  - intros Hnone k x Hk.
    apply (find_none _ _ Hnone (k, x)).
    by apply list_elem_of_In, elem_of_map_to_list.
  - intros Hall. destruct (List.find _ _) as [[k x]|] eqn:Hfind; [|done].
    apply find_some in Hfind as [Hin Hq].
    apply list_elem_of_In, elem_of_map_to_list in Hin.
    simpl in Hq. rewrite (Hall _ _ Hin) in Hq. discriminate.
Qed.

Lemma findAppointment_Some appointmentId l i a :
  findAppointment appointmentId l = Some (i, a) →
  l !! i = Some a ∧ Appointment._id a = appointmentId
  ∧ ∀ j b, l !! j = Some b → (j < i)%nat → Appointment._id b ≠ appointmentId.
Proof. unfold findAppointment. by rewrite list_find_Some. Qed.


(** The first appointment with a new id, in a ledger that does not use the
    id yet, is the one just pushed. *)
Lemma findAppointment_pushed l a :
  (∀ b, b ∈ l → Appointment._id b ≠ Appointment._id a) →
  findAppointment (Appointment._id a) (l ++ [a]) = Some (length l, a).
Proof.
  intros Hfresh. unfold findAppointment. apply list_find_Some.
  split; [by rewrite lookup_app_r, Nat.sub_diag by lia|].
  split; [done|].
  intros j b Hj Hlt. rewrite lookup_app_l in Hj by done.
  apply Hfresh. by eapply list_elem_of_lookup_2.
Qed.

Lemma findPrescription_Some appointmentId ps p :
  findPrescription appointmentId ps = Some p →
  p ∈ ps ∧ Prescription.appointmentId p = appointmentId.
Proof.
  unfold findPrescription. intros Hfind.
  destruct (list_find _ ps) as [[i q]|] eqn:Hq; simplify_eq/=.
  apply list_find_Some in Hq as (Hi & Hid & _).
  split; [by eapply list_elem_of_lookup_2 | done].
Qed.

Lemma findPrescription_None appointmentId ps :
  findPrescription appointmentId ps = None ↔
  ∀ p, p ∈ ps → Prescription.appointmentId p ≠ appointmentId.
Proof.
  unfold findPrescription. rewrite fmap_None, list_find_None, Forall_forall. done.
Qed.

Lemma findPrescription_saved ps p ps' :
  savePrescription p ps = Some ps' →
  ps' = (ps ++ [p])%list
  ∧ findPrescription (Prescription.appointmentId p) ps = None
  ∧ findPrescription (Prescription.appointmentId p) ps' = Some p.
Proof.
  unfold savePrescription.
  destruct (findPrescription _ ps) eqn:Hnone; [done|].
  intros [= <-]. split; [done|]. split; [done|].
  unfold findPrescription in *. apply fmap_None in Hnone.
  rewrite list_find_app_r by done. simpl.
  rewrite decide_True by done. done.
Qed.

End Lookup.

(** ** Booking *)

Section Ledger.
Context `{P : Platform}.

Lemma alter_lookup_insert {A} (f : A → A) (m : gmap ObjectId A) k x :
  m !! k = Some x → alter f k m = <[k := f x]> m.
Proof.
  intros Hk. apply map_eq. intros j. rewrite lookup_alter, lookup_insert.
  repeat case_decide; simplify_eq; by rewrite ?Hk.
Qed.

Lemma setBooking_free s : slotFree (AppointmentSlot.setBooking false true None s).
Proof. by repeat split. Qed.

Lemma setBooking_claimed c s :
  slotClaimedBy c (AppointmentSlot.setBooking true false (Some c) s).
Proof. by repeat split. Qed.

Lemma slotQuery_true doctorId hospitalId slotDate time s :
  slotQuery doctorId hospitalId slotDate time s = true ↔
  AppointmentSlot.doctor s = doctorId ∧ AppointmentSlot.hospital s = hospitalId
  ∧ AppointmentSlot.date s = slotDate ∧ AppointmentSlot.startTime s = time
  ∧ AppointmentSlot.isAvailable s = true ∧ AppointmentSlot.isBooked s = false.
Proof.
  unfold slotQuery. rewrite !andb_true_iff, !bool_decide_eq_true. tauto.
Qed.

(** What a booking request does to the database: nothing when it is
    refused, a slot claimed and an appointment pushed when it is granted. *)
Lemma addAppointment_cases (db : Db) (userId : ObjectId)
    (body : AppointmentRequest) (now : Z) (newId : ObjectId) :
  let res := addAppointment db userId body now newId in
  (res.1 = db ∧ isOk res.2 = false)
  ∨ ∃ date user doctor hospital slotId slot a,
      res.2 = Ok 201 "Appointment booked successfully! It will be completed in 1 minute." a
      ∧ validateAppointmentData body = inl date
      ∧ users db !! userId = Some user
      ∧ doctors db !! req_doctorId body = Some doctor
      ∧ hospitals db !! req_hospitalId body = Some hospital
      ∧ appointmentSlots db !! slotId = Some slot
      ∧ slotQuery (req_doctorId body) (req_hospitalId body) (startOfDay date)
          (req_appointmentTime body) slot = true
      ∧ a = newAppointment newId body (startOfDay date) now slotId doctor hospital
      ∧ res.1 =
          setUsers
            (<[userId := User.setAppointments (User.appointments user ++ [a])%list user]>
               (users db))
            (setAppointmentSlots
               (<[slotId := AppointmentSlot.setBooking true false (Some userId) slot]>
                  (appointmentSlots db)) db).
Proof.
  unfold addAppointment.
  destruct (validateAppointmentData body) as [date|] eqn:Hval; [|by left].
  destruct (users db !! userId) as [user|] eqn:Huser; [|by left].
  destruct (findOne _ _) as [[slotId slot]|] eqn:Hslot; [|by left].
  destruct (doctors db !! _) as [doctor|] eqn:Hdoc; [|by left].
  destruct (hospitals db !! _) as [hospital|] eqn:Hhosp; [|by left].
  apply findOne_Some in Hslot as [Hslot Hq].
  right. exists date, user, doctor, hospital, slotId, slot. eexists.
  simpl. repeat (split; [done|]).
  unfold claimSlotById, pushAppointment.
  by rewrite (alter_lookup_insert _ _ _ _ Hslot), (alter_lookup_insert _ _ _ _ Huser).
Qed.

(** With both writes accepted the request runs as [addAppointment]. *)
Lemma addAppointmentWith_accepted (w : Writes) (db : Db) (userId : ObjectId)
    (body : AppointmentRequest) (now : Z) (newId : ObjectId) :
  (∀ k, slotSave w k = None) → userSave w userId = None →
  addAppointmentWith w db userId body now newId
  = addAppointment db userId body now newId.
Proof.
  intros Hslot Huser. unfold addAppointmentWith, addAppointment.
  destruct (validateAppointmentData body) as [date|]; [|done].
  destruct (users db !! userId) as [user|]; [|done].
  destruct (findOne _ _) as [[slotId slot]|]; [|done].
  destruct (doctors db !! _) as [doctor|]; [|done].
  destruct (hospitals db !! _) as [hospital|]; [|done].
  by rewrite Hslot, Huser.
Qed.



(** ** Cancelling *)

Lemma cancelAppointment_found (db : Db) (userId appointmentId : ObjectId) u i a :
  isValid appointmentId = true →
  users db !! userId = Some u →
  findAppointment appointmentId (User.appointments u) = Some (i, a) →
  Appointment.status a ≠ cancelled →
  cancelAppointment db userId appointmentId =
    (setUsers (<[userId := User.setAppointments
                  (<[i := Appointment.setStatus cancelled a]> (User.appointments u)) u]>
                (users db))
       (setAppointmentSlots
          match Appointment.slotId a with
          | Some slotId => releaseSlot slotId (appointmentSlots db)
          | None => appointmentSlots db
          end db),
     Ok 200 "Appointment cancelled successfully" tt).
Proof.
  intros Hvalid Hu Hfind Hst. unfold cancelAppointment.
  rewrite Hvalid, Hu, Hfind. simpl. by rewrite decide_False by done.
Qed.


End Ledger.

(** ** Updating *)

Section Update.
Context `{P : Platform}.

Lemma pickAllowed_lookup (updateData : gmap string string) k :
  pickAllowed updateData !! k =
  if decide (k = "status" ∨ k = "notes") then updateData !! k else None.
Proof.
  unfold pickAllowed, allowedUpdates.
  destruct (filter _ updateData !! k) as [v|] eqn:Hk.
  - apply map_lookup_filter_Some in Hk as [Hk Hin]. simpl in Hin.
    rewrite decide_True; [done|].
    rewrite !elem_of_cons, elem_of_nil in Hin. tauto.
  - case_decide as Hd; [|done].
    apply map_lookup_filter_None in Hk as [Hk|Hk]; [done|].
    destruct (updateData !! k) as [v|] eqn:Hv; [|done].
    exfalso. apply (Hk v); [done|]. simpl.
    rewrite !elem_of_cons, elem_of_nil. tauto.
Qed.

Lemma pickAllowed_agree (d1 d2 : gmap string string) :
  d1 !! "status" = d2 !! "status" → d1 !! "notes" = d2 !! "notes" →
  pickAllowed d1 = pickAllowed d2.
Proof.
  intros Hs Hn. apply map_eq. intros k. rewrite !pickAllowed_lookup.
  case_decide as Hk; [|done]. by destruct Hk as [-> | ->].
Qed.

Lemma pickAllowed_empty (updateData : gmap string string) :
  updateData !! "status" = None → updateData !! "notes" = None →
  size (pickAllowed updateData) = 0%nat.
Proof.
  intros Hs Hn. apply map_size_empty_iff, map_empty. intros k.
  rewrite pickAllowed_lookup. case_decide as Hk; [|done].
  by destruct Hk as [-> | ->].
Qed.

Lemma assignUpdates_frame updates a a' :
  assignUpdates updates a = Some a' → sameButStatusNotes a a'.
Proof.
  unfold assignUpdates, sameButStatusNotes. intros Ha.
  destruct a. destruct (updates !! "notes"), (updates !! "status") as [st|];
    try destruct (statusOfString st); by simplify_eq/=.
Qed.

(** What a PATCH does to the database: nothing, or one appointment of the
    caller's ledger replaced by its updated copy. *)
Lemma updateAppointment_cases db userId appointmentId updateData :
  let res := updateAppointment db userId appointmentId updateData in
  (res.1 = db ∧ isOk res.2 = false)
  ∨ ∃ user i a a',
      users db !! userId = Some user
      ∧ findAppointment appointmentId (User.appointments user) = Some (i, a)
      ∧ assignUpdates (pickAllowed updateData) a = Some a'
      ∧ res.1 = setUsers (<[userId := User.setAppointments
                              (<[i := a']> (User.appointments user)) user]>
                            (users db)) db.
Proof.
  unfold updateAppointment.
  destruct (negb _); [by left|].
  case_decide; [by left|].
  destruct (users db !! userId) as [user|] eqn:Hu; [|by left].
  destruct (findAppointment _ _) as [[i a]|] eqn:Hfind; [|by left].
  destruct (assignUpdates _ a) as [a'|] eqn:Ha; [|by left].
  right. by exists user, i, a, a'.
Qed.

(** C10: a PATCH changes nothing outside the caller's ledger; inside it, one
    appointment carrying the requested id may change, and only in its
    [status] and [notes].  The response and the new database depend on the
    body only through its [status] and [notes] entries, and a body with
    neither is rejected with the database untouched. *)
Theorem updateAppointment_frame (db : Db) (userId appointmentId : ObjectId)
    (updateData : gmap string string) :
  let res := updateAppointment db userId appointmentId updateData in
  (appointmentSlots res.1 = appointmentSlots db
   ∧ doctors res.1 = doctors db ∧ hospitals res.1 = hospitals db
   ∧ medicines res.1 = medicines db ∧ prescriptions res.1 = prescriptions db)
  ∧ (∀ uid, uid ≠ userId → users res.1 !! uid = users db !! uid)
  ∧ (users db !! userId = None → users res.1 !! userId = None)
  ∧ (∀ user, users db !! userId = Some user →
       ∃ user' i,
         users res.1 !! userId = Some user'
         ∧ User.email user' = User.email user
         ∧ length (User.appointments user') = length (User.appointments user)
         ∧ (∀ j, j ≠ i →
              User.appointments user' !! j = User.appointments user !! j)
         ∧ (∀ j a, User.appointments user !! j = Some a →
              ∃ a', User.appointments user' !! j = Some a'
                    ∧ sameButStatusNotes a a'
                    ∧ (Appointment._id a ≠ appointmentId → a' = a)))
  ∧ (∀ other : gmap string string,
       other !! "status" = updateData !! "status" →
       other !! "notes" = updateData !! "notes" →
       updateAppointment db userId appointmentId other = res)
  ∧ (updateData !! "status" = None → updateData !! "notes" = None →
       res.1 = db ∧ isOk res.2 = false).
Proof.
  intros res.
  assert (Hrefl : ∀ a, sameButStatusNotes a a) by (by intros []).
  assert (Hnone : updateData !! "status" = None → updateData !! "notes" = None →
                  res.1 = db ∧ isOk res.2 = false).
  { intros Hs Hn. subst res. unfold updateAppointment.
    destruct (negb _); [done|].
    by rewrite decide_True by (by apply pickAllowed_empty). }
  assert (Hbody : ∀ other : gmap string string,
            other !! "status" = updateData !! "status" →
            other !! "notes" = updateData !! "notes" →
            updateAppointment db userId appointmentId other = res).
  { intros other Hs Hn. subst res. unfold updateAppointment.
    by rewrite (pickAllowed_agree _ _ Hs Hn). }
  pose proof (updateAppointment_cases db userId appointmentId updateData) as Hcases.
  cbv zeta in Hcases.
  change (updateAppointment db userId appointmentId updateData) with res in Hcases.
  clearbody res.
  destruct Hcases as [[Hsame Herr] | (user & i & a & a' & Hu & Hfind & Ha & Hres)].
  - rewrite Hsame. split; [done|]. split; [done|]. split; [done|]. split.
    { intros user Hu. exists user, 0%nat. repeat split; try done.
      intros j a Hj. exists a. by repeat split. }
    done.
  - apply findAppointment_Some in Hfind as (Hi & Hid & Hfirst).
    rewrite Hres. simpl. split; [done|]. split.
    { intros uid Hne. by rewrite lookup_insert_ne. }
    split; [by rewrite Hu|]. split.
    { intros user0 Hu0. rewrite Hu in Hu0. injection Hu0 as <-.
      eexists _, i. split; [by rewrite lookup_insert_eq|]. simpl.
      split; [done|]. split; [by rewrite length_insert|]. split.
      { intros j Hj. by rewrite list_lookup_insert_ne. }
      intros j b Hj. destruct (decide (j = i)) as [->|Hne].
      - rewrite Hi in Hj. injection Hj as <-. exists a'.
        rewrite list_lookup_insert_eq by (by eapply lookup_lt_Some).
        split; [done|]. split; [by eapply assignUpdates_frame|]. done.
      - exists b. rewrite list_lookup_insert_ne by done. by repeat split. }
    split; [done|]. by rewrite <- Hres.
Qed.

End Update.

(** ** Prescription generation in the service *)

(** *** Running code in [Gen] *)

Lemma gen_bind_eq {A B} (m : Gen A) (k : A → Gen B) (g : Src) :
  (x ← m; k x) g = let '(x, g') := m g in k x g'.
Proof. reflexivity. Qed.

Lemma gen_ret_eq {A} (x : A) (g : Src) : mret (M := Gen) x g = (x, g).
Proof. reflexivity. Qed.

(** Unfold the first bind of a run named by hypothesis [H]. *)
Ltac gen_step H :=
  match type of H with
  | context [mbind ?k ?m ?g] =>
      rewrite (gen_bind_eq m k g) in H;
      let x := fresh "x" in
      let g1 := fresh "g" in
      let E := fresh "E" in
      destruct (m g) as [x g1] eqn:E
  | context [mret ?x ?g] => rewrite (gen_ret_eq x g) in H
  end.

Lemma preserves_ret {A} (x : A) : preserves (mret x).
Proof. intros g y g' [= <- <-]. done. Qed.

Lemma preserves_bind {A B} (m : Gen A) (k : A → Gen B) :
  preserves m → (∀ x, preserves (k x)) → preserves (x ← m; k x).
Proof.
  intros Hm Hk g y g' Hrun. rewrite gen_bind_eq in Hrun.
  destruct (m g) as [x g1] eqn:E.
  destruct (Hm _ _ _ E) as [<- <-]. by eapply Hk.
Qed.

Lemma preserves_randomIndex n : preserves (randomIndex n).
Proof. intros g x g' [= <- <-]. done. Qed.

Lemma preserves_randomSeed : preserves randomSeed.
Proof. intros g x g' [= <- <-]. done. Qed.

Lemma preserves_newObjectId : preserves newObjectId.
Proof. intros g x g' [= <- <-]. done. Qed.

Lemma preserves_pickRandom arr : preserves (pickRandom arr).
Proof.
  apply preserves_bind; [apply preserves_randomIndex|].
  intros i. apply preserves_ret.
Qed.

Lemma preserves_generateDosage strengths : preserves (generateDosage strengths).
Proof.
  destruct strengths; [apply preserves_ret|].
  apply preserves_bind; [apply preserves_pickRandom|]. intros ?.
  apply preserves_bind; [apply preserves_pickRandom|]. intros ?.
  apply preserves_ret.
Qed.

Lemma preserves_mapM {A B} (f : A → Gen B) l :
  (∀ x, preserves (f x)) → preserves (mapM f l).
Proof.
  intros Hf. induction l as [|x l IH]; simpl; [apply preserves_ret|].
  apply preserves_bind; [apply Hf|]. intros ?.
  apply preserves_bind; [apply IH|]. intros ?. apply preserves_ret.
Qed.

Section ServiceFacts.
Context `{P : Platform}.

Lemma sameCatalog_refl db : sameCatalog db db.
Proof. by repeat split. Qed.

Lemma sameCatalog_trans db1 db2 db3 :
  sameCatalog db1 db2 → sameCatalog db2 db3 → sameCatalog db1 db3.
Proof. unfold sameCatalog. intros (?&?&?&?) (?&?&?&?). repeat split; congruence. Qed.

Lemma preserves_service_medicationOf med :
  preserves (AppointmentService.medicationOf med).
Proof.
  apply preserves_bind; [apply preserves_generateDosage|]. intros ?.
  apply preserves_ret.
Qed.

(** What one call of the service's [generatePrescription] does: it returns
    the prescription already stored for the appointment, or stores and
    returns a new one, or fails because the catalog has no active medicine. *)
Lemma generatePrescription_cases db a userId now g db' r g' :
  AppointmentService.generatePrescription db a userId now g = (db', r, g') →
  users db' = users db ∧ sameCatalog db db'
  ∧ draws g' = draws g ∧ ids g' = ids g
  ∧ ((∃ p, r = inl p ∧ db' = db
           ∧ findPrescription (Appointment._id a) (prescriptions db) = Some p)
     ∨ (∃ p, r = inl p
           ∧ findPrescription (Appointment._id a) (prescriptions db) = None
           ∧ activeMedicines db ≠ []
           ∧ prescriptions db' = (prescriptions db ++ [p])%list
           ∧ Prescription.appointmentId p = Appointment._id a
           ∧ Prescription.followUpDate p = now + 7 * 24 * 60 * 60 * 1000)
     ∨ (∃ e, r = inr e ∧ db' = db
           ∧ findPrescription (Appointment._id a) (prescriptions db) = None
           ∧ activeMedicines db = [])).
Proof.
  unfold AppointmentService.generatePrescription. intros Hrun.
  destruct (findPrescription _ _) as [p|] eqn:Hfind.
  { gen_step Hrun. simplify_eq. repeat split; try done. left. by exists p. }
  gen_step Hrun. apply preserves_randomIndex in E as [Hd1 Hi1].
  case_decide as Hmeds.
  { gen_step Hrun. simplify_eq. repeat split; try done.
    right. right. eexists. repeat split; try done.
    by apply length_zero_iff_nil. }
  gen_step Hrun. apply preserves_randomSeed in E as [Hd2 Hi2].
  gen_step Hrun.
  apply (preserves_mapM _ _ preserves_service_medicationOf) in E as [Hd3 Hi3].
  gen_step Hrun. apply preserves_pickRandom in E as [Hd4 Hi4].
  gen_step Hrun. apply preserves_newObjectId in E as [Hd5 Hi5].
  destruct (savePrescription _ _) as [ps|] eqn:Hsave.
  - gen_step Hrun. simplify_eq.
    apply findPrescription_saved in Hsave as (-> & _ & _).
    split; [done|]. split; [by repeat split|].
    split; [congruence|]. split; [congruence|].
    right. left. eexists. repeat split; try done.
    intros Hnil. by rewrite Hnil in Hmeds.
  - unfold savePrescription in Hsave. simpl in Hsave.
    by rewrite Hfind in Hsave.
Qed.

Lemma extends_refl db : extends db db.
Proof.
  split; [apply sameCatalog_refl|]. split; [|done].
  exists []. by rewrite app_nil_r.
Qed.

Lemma extends_trans db1 db2 db3 : extends db1 db2 → extends db2 db3 → extends db1 db3.
Proof.
  intros (Hc1 & [m1 Hp1] & Hu1) (Hc2 & [m2 Hp2] & Hu2).
  split; [by eapply sameCatalog_trans|]. split; [|tauto].
  exists (m1 ++ m2)%list. by rewrite Hp2, Hp1, app_assoc.
Qed.

Lemma activeMedicines_extends db db' :
  extends db db' → activeMedicines db' = activeMedicines db.
Proof. intros ((_ & _ & _ & Hm) & _). unfold activeMedicines. by rewrite Hm. Qed.

Lemma sweptRel_extends db db' a a' :
  extends db db' → sweptRel db a a' → sweptRel db' a a'.
Proof.
  intros Hext. pose proof (activeMedicines_extends _ _ Hext) as Hmeds.
  destruct Hext as (_ & [more Hmore] & _).
  unfold sweptRel. case_decide; [|done].
  intros [[-> Hnil] | (p & Hp & Hid & ->)].
  - left. by rewrite Hmeds.
  - right. exists p. rewrite Hmore, elem_of_app. auto.
Qed.

Lemma sweptRel_status db' a a' :
  sweptRel db' a a' → Appointment.status a' ≠ confirmed.
Proof.
  unfold sweptRel. case_decide as Hst; [|by intros ->].
  by intros [[-> _] | (p & _ & _ & ->)].
Qed.

Lemma generatePrescription_extends db a userId now g db' r g' :
  AppointmentService.generatePrescription db a userId now g = (db', r, g') →
  extends db db'.
Proof.
  intros Hrun. apply generatePrescription_cases in Hrun
    as (_ & Hcat & _ & _ & [(p & _ & -> & _) | [(p & _ & Hnone & _ & Hps & Hid & _)
                                             | (e & _ & -> & _)]]);
    try apply extends_refl.
  split; [done|]. split; [by eexists|].
  unfold uniquePrescriptions. rewrite Hps. intros Hnd.
  rewrite fmap_app. apply NoDup_app. split; [done|]. split; [|apply NoDup_singleton].
  intros aid Hin Hin'. simpl in Hin'. apply list_elem_of_singleton in Hin'. subst aid.
  apply list_elem_of_fmap in Hin as (q & Heq & Hq).
  rewrite findPrescription_None in Hnone. apply (Hnone q Hq). congruence.
Qed.

Lemma expireOne_spec db userId now a g db' a' g' :
  AppointmentService.expireOne db userId now a g = (db', a', g') →
  Appointment.status a = confirmed →
  users db' = users db ∧ extends db db' ∧ sweptRel db' a a'.
Proof.
  unfold AppointmentService.expireOne. intros Hrun Hst.
  gen_step Hrun. destruct x as [db1 r]. gen_step Hrun. simplify_eq.
  pose proof (generatePrescription_extends _ _ _ _ _ _ _ _ E) as Hext.
  apply generatePrescription_cases in E as (Hu & _ & _ & _ & Hcases).
  split; [done|]. split; [done|].
  unfold sweptRel. rewrite decide_True by done.
  destruct Hcases as [(p & -> & -> & Hfind) | [(p & -> & _ & _ & Hps & Hid & _)
                                               | (e & -> & -> & _ & Hnil)]].
  - right. exists p. apply findPrescription_Some in Hfind as [Hin Hid].
    by repeat split.
  - right. exists p. rewrite Hps, elem_of_app, list_elem_of_singleton.
    by repeat split; auto.
  - by left.
Qed.

Lemma expireLedger_spec userId now l : ∀ db g db' l' n g',
  AppointmentService.expireLedger db userId now l g = (db', l', n, g') →
  users db' = users db ∧ extends db db'
  ∧ Forall2 (sweptRel db') l l'
  ∧ (n = 0%nat → l' = l ∧ db' = db).
Proof.
  induction l as [|a l IH]; intros db g db' l' n g' Hrun; simpl in Hrun.
  { gen_step Hrun. simplify_eq. split; [done|]. split; [apply extends_refl|].
    by split; [constructor|]. }
  case_decide as Hst.
  - gen_step Hrun. destruct x as [db1 a1].
    gen_step Hrun. destruct x as [[db2 rest'] m]. gen_step Hrun. simplify_eq.
    apply expireOne_spec in E as (Hu1 & Hext1 & Hrel); [|done].
    apply IH in E0 as (Hu2 & Hext2 & Hall & _).
    split; [congruence|]. split; [by eapply extends_trans|].
    split; [|done]. constructor; [by eapply sweptRel_extends|done].
  - gen_step Hrun. destruct x as [[db2 rest'] m]. gen_step Hrun. simplify_eq.
    apply IH in E as (Hu2 & Hext2 & Hall & Hzero).
    split; [done|]. split; [done|]. split.
    + constructor; [|done]. unfold sweptRel. by rewrite decide_False.
    + intros Hn. destruct (Hzero Hn) as [-> ->]. done.
Qed.

(** A ledger the sweep went through holds no confirmed appointment. *)
Lemma swept_no_confirmed db' l l' :
  Forall2 (sweptRel db') l l' →
  ∀ a', a' ∈ l' → Appointment.status a' ≠ confirmed.
Proof.
  intros Hall a' Hin. apply list_elem_of_lookup_1 in Hin as [i Hi].
  destruct (Forall2_lookup_r _ _ _ _ _ Hall Hi) as (a & _ & Hrel).
  by eapply sweptRel_status.
Qed.

(** The outer loop, patient by patient: the patients before the first failed
    save have their swept ledgers stored, every other document of the user
    collection is as before, and the loop ends early exactly at a patient
    whose save fails. *)
Lemma sweepUsers_spec storage now todo : ∀ db count g db' r g',
  NoDup todo.*1 →
  (∀ uid u, (uid, u) ∈ todo → users db !! uid = Some u) →
  AppointmentService.sweepUsers storage now todo db count g = (db', r, g') →
  ∃ processed remaining,
    todo = (processed ++ remaining)%list
    ∧ extends db db'
    ∧ (∀ uid u, (uid, u) ∈ processed →
         ∃ l', users db' !! uid = Some (User.setAppointments l' u)
               ∧ Forall2 (sweptRel db') (User.appointments u) l')
    ∧ (∀ uid, uid ∉ processed.*1 → users db' !! uid = users db !! uid)
    ∧ match r with
      | inl _ => remaining = []
      | inr _ => ∃ uid u rest, remaining = (uid, u) :: rest ∧ storage uid = false
      end.
Proof.
  induction todo as [|[uid u] todo IH]; intros db count g db' r g' Hnd Hsnap Hrun;
    simpl in Hrun.
  { gen_step Hrun. simplify_eq. exists [], []. split; [done|].
    split; [apply extends_refl|]. split; [by intros ?? ?%elem_of_nil|]. done. }
  rewrite fmap_cons in Hnd. apply NoDup_cons in Hnd as [Hfresh Hnd].
  simpl in Hfresh.
  gen_step Hrun. destruct x as [[db1 appts] n].
  apply expireLedger_spec in E as (Hu1 & Hext1 & Hall & Hzero).
  assert (Hhead : users db !! uid = Some u) by (apply Hsnap; left).
  case_decide as Hn.
  - destruct (Hzero Hn) as [-> ->].
    apply IH in Hrun as (processed & remaining & -> & Hext & Hproc & Hother & Hr);
      [|done|by intros; apply Hsnap; right].
    exists ((uid, u) :: processed), remaining. split; [done|]. split; [done|].
    split; [|split; [|done]].
    + intros uid' u' [[= -> ->] | Hin]%elem_of_cons; [|by apply Hproc].
      exists (User.appointments u). split.
      * rewrite Hother, Hhead; [by destruct u|].
        intros Hin. apply Hfresh. rewrite fmap_app, elem_of_app. auto.
      * eapply Forall2_impl; [done|]. intros ??. by apply sweptRel_extends.
    + intros uid' Hnin. apply Hother. intros Hin. apply Hnin. simpl. by right.
  - destruct (storage uid) eqn:Hstore.
    + apply IH in Hrun as (processed & remaining & -> & Hext & Hproc & Hother & Hr);
        [|done|].
      2:{ intros uid' u' Hin. simpl. rewrite lookup_insert_ne.
          - rewrite Hu1. apply Hsnap. by right.
          - intros ->. apply Hfresh. by apply (list_elem_of_fmap_2 fst) in Hin. }
      exists ((uid, u) :: processed), remaining. split; [done|].
      split; [by eapply extends_trans|]. split; [|split; [|done]].
      * intros uid' u' [[= -> ->] | Hin]%elem_of_cons; [|by apply Hproc].
        exists appts. split.
        -- rewrite Hother; [simpl; by rewrite lookup_insert_eq|].
           intros Hin. apply Hfresh. rewrite fmap_app, elem_of_app. auto.
        -- eapply Forall2_impl; [done|]. intros ??. by apply sweptRel_extends.
      * intros uid' Hnin. simpl in Hnin.
        apply not_elem_of_cons in Hnin as [Hne Hnin].
        rewrite Hother by done. simpl. rewrite lookup_insert_ne by done.
        by rewrite Hu1.
    + gen_step Hrun. simplify_eq. exists [], ((uid, u) :: todo).
      split; [done|]. split; [done|]. split; [by intros ?? ?%elem_of_nil|].
      split; [by intros; rewrite Hu1|]. by exists uid, u, todo.
Qed.

End ServiceFacts.

(** ** The sweep *)

Section Sweep.
Context `{P : Platform}.

Lemma hasConfirmed_false u :
  AppointmentService.hasConfirmed u ≠ true →
  ∀ a, a ∈ User.appointments u → Appointment.status a ≠ confirmed.
Proof.
  unfold AppointmentService.hasConfirmed. intros Hnone a Hin Hst.
  apply Hnone, existsb_exists. exists a. split; [by apply list_elem_of_In|].
  by apply bool_decide_eq_true.
Qed.

Lemma elem_of_usersWithConfirmed db uid u :
  (uid, u) ∈ AppointmentService.usersWithConfirmed db ↔
  users db !! uid = Some u ∧ AppointmentService.hasConfirmed u = true.
Proof.
  unfold AppointmentService.usersWithConfirmed.
  rewrite list_elem_of_filter, elem_of_map_to_list. simpl. tauto.
Qed.

Lemma NoDup_usersWithConfirmed db :
  NoDup (AppointmentService.usersWithConfirmed db).*1.
Proof.
  unfold AppointmentService.usersWithConfirmed.
  apply (sublist_NoDup _ (map_to_list (users db)).*1);
    first [apply NoDup_fst_map_to_list | apply fmap_sublist, sublist_filter].
Qed.


(** The sweep as a whole, for any behaviour of the storage. *)
Lemma expireAppointments_spec storage now db g :
  let out := AppointmentService.expireAppointments storage now db g in
  let db' := out.1.1 in
  ∃ processed remaining,
    AppointmentService.usersWithConfirmed db = (processed ++ remaining)%list
    ∧ extends db db'
    ∧ (∀ uid u, (uid, u) ∈ processed →
         ∃ l', users db' !! uid = Some (User.setAppointments l' u)
               ∧ Forall2 (sweptRel db') (User.appointments u) l')
    ∧ (∀ uid, uid ∉ processed.*1 → users db' !! uid = users db !! uid)
    ∧ match out.1.2 with
      | inl _ => remaining = []
      | inr _ => ∃ uid u rest, remaining = (uid, u) :: rest ∧ storage uid = false
      end.
Proof.
  unfold AppointmentService.expireAppointments. cbv zeta.
  destruct (AppointmentService.sweepUsers _ _ _ _ _ _) as [[db' r] g'] eqn:Hrun.
  simpl. eapply sweepUsers_spec; [apply NoDup_usersWithConfirmed| |done].
  intros uid u Hin. by apply elem_of_usersWithConfirmed in Hin as [? _].
Qed.



(** C8, as the code has it: a failed prescription never ends the sweep, a
    failed save does.  The patients with confirmed appointments are taken in
    turn; those before the first patient whose save fails end up swept and
    stored, that patient and all later ones keep the documents they had, and
    the error leaves [expireAppointments].  When every save succeeds the
    sweep returns its count. *)
Theorem expireAppointments_stops_at_failed_save (storage : ObjectId → bool)
    (now : Z) (db : Db) (g : Src) :
  let out := AppointmentService.expireAppointments storage now db g in
  let db' := out.1.1 in
  ∃ processed remaining,
    AppointmentService.usersWithConfirmed db = (processed ++ remaining)%list
    ∧ (∀ uid u, (uid, u) ∈ processed →
         ∃ l', users db' !! uid = Some (User.setAppointments l' u)
               ∧ Forall2 (sweptRel db') (User.appointments u) l')
    ∧ (∀ uid, uid ∉ processed.*1 → users db' !! uid = users db !! uid)
    ∧ match out.1.2 with
      | inl _ => remaining = []
      | inr _ => ∃ uid u rest, remaining = (uid, u) :: rest ∧ storage uid = false
      end
    ∧ ((∀ uid u, (uid, u) ∈ AppointmentService.usersWithConfirmed db →
          storage uid = true) →
       ∃ expiredCount, out.1.2 = inl expiredCount).
Proof.
  intros out db'.
  destruct (expireAppointments_spec storage now db g)
    as (processed & remaining & Htodo & Hext & Hproc & Hother & Hr).
  fold out in Hr. fold db' in Hext, Hproc, Hother.
  exists processed, remaining. repeat (split; [done|]).
  intros Hstore. destruct (out.1.2) as [n|e]; [by eauto|].
  destruct Hr as (uid & u & rest & -> & Hfail).
  rewrite (Hstore uid u) in Hfail; [done|].
  rewrite Htodo, elem_of_app. right. left.
Qed.

End Sweep.

(** ** The manual prescription endpoint *)

Section ManualEndpoint.
Context `{P : Platform}.

Lemma preserves_controller_medicationOf med :
  preserves (PrescriptionController.medicationOf med).
Proof.
  apply preserves_bind; [apply preserves_generateDosage|]. intros ?.
  apply preserves_bind; [apply preserves_pickRandom|]. intros ?.
  apply preserves_bind; [apply preserves_pickRandom|]. intros ?.
  apply preserves_ret.
Qed.

Lemma generatePrescriptionForAppointment_cases db userId appointmentId now g db' r g' :
  PrescriptionController.generatePrescriptionForAppointment db userId
    appointmentId now g = (db', r, g') →
  (db' = db ∧ isOk r = false
   ∧ ¬ ∃ user i a, canGenerate db userId appointmentId user i a)
  ∨ ∃ user i a p k,
      canGenerate db userId appointmentId user i a
      ∧ r = Ok 200 "Prescription generated successfully" p
      ∧ db' = setUsers
                (<[userId := User.setAppointments
                     (<[i := Appointment.setStatus completed
                               (Appointment.setPrescriptionId
                                  (Some (Prescription._id p)) a)]>
                        (User.appointments user)) user]> (users db))
                (setPrescriptions (prescriptions db ++ [p])%list db)
      ∧ Prescription.appointmentId p = appointmentId
      ∧ Prescription.followUpDate p =
          addDays now (default 0 (followUpDays !! (draws g k `mod` 5)%nat)).
Proof.
  unfold PrescriptionController.generatePrescriptionForAppointment. intros Hrun.
  destruct (isValid appointmentId) eqn:Hvalid; simpl in Hrun.
  2:{ gen_step Hrun. simplify_eq. left. repeat split; try done.
      intros (?&?&?&Hv&_). congruence. }
  destruct (users db !! userId) as [user|] eqn:Hu.
  2:{ gen_step Hrun. simplify_eq. left. repeat split; try done.
      intros (?&?&?&_&Hu'&_). congruence. }
  destruct (findAppointment _ _) as [[i a]|] eqn:Hfind.
  2:{ gen_step Hrun. simplify_eq. left. repeat split; try done.
      intros (?&?&?&_&Hu'&Hf&_). simplify_eq. }
  destruct (negb _ && negb _) eqn:Hstatus.
  { gen_step Hrun. simplify_eq. left. repeat split; try done.
    intros (?&?&?&_&Hu'&Hf&Hst&_). simplify_eq.
    apply andb_true_iff in Hstatus as [H1 H2].
    apply negb_true_iff, bool_decide_eq_false in H1, H2. tauto. }
  assert (Hst : Appointment.status a = confirmed ∨ Appointment.status a = completed).
  { apply andb_false_iff in Hstatus as [H1|H1];
      apply negb_false_iff, bool_decide_eq_true in H1; auto. }
  destruct (findPrescription _ _) as [existing|] eqn:Hnone.
  { gen_step Hrun. simplify_eq. left. repeat split; try done.
    intros (?&?&?&_&_&_&_&Hn&_). congruence. }
  gen_step Hrun. apply preserves_randomIndex in E as [Hd1 _].
  case_decide as Hmeds.
  { gen_step Hrun. simplify_eq. left. repeat split; try done.
    intros (?&?&?&_&_&_&_&_&Hm). apply Hm. by apply length_zero_iff_nil. }
  gen_step Hrun. apply preserves_randomSeed in E as [Hd2 _].
  gen_step Hrun.
  apply (preserves_mapM _ _ preserves_controller_medicationOf) in E as [Hd3 _].
  gen_step Hrun. apply preserves_pickRandom in E as [Hd4 _].
  gen_step Hrun. apply preserves_pickRandom in E as [Hd5 _].
  gen_step Hrun. unfold PrescriptionController.generateFollowUpDate in E.
  gen_step E. gen_step E. injection E as <- <-.
  injection E0 as <- <-. simpl in Hrun.
  gen_step Hrun. injection E as <- <-. simpl in Hrun.
  destruct (savePrescription _ _) as [ps|] eqn:Hsave.
  2:{ unfold savePrescription in Hsave. simpl in Hsave. by rewrite Hnone in Hsave. }
  gen_step Hrun. apply findPrescription_saved in Hsave as (-> & _ & _).
  right. eexists user, i, a, _, (drawPos g4). simplify_eq. simpl.
  split; [repeat split; try done; by intros Hnil; rewrite Hnil in Hmeds|].
  split; [done|]. split; [done|]. split; [done|].
  cbn [Prescription.followUpDate].
  replace (draws g4) with (draws g) by congruence. done.
Qed.


End ManualEndpoint.

(** ** Exactly one prescription per appointment *)

Section ExactlyOnce.
Context `{P : Platform}.

Lemma cancelAppointment_cases db userId appointmentId :
  let res := cancelAppointment db userId appointmentId in
  (res.1 = db ∧ isOk res.2 = false)
  ∨ ∃ user i a,
      users db !! userId = Some user
      ∧ findAppointment appointmentId (User.appointments user) = Some (i, a)
      ∧ Appointment.status a ≠ cancelled
      ∧ res.1 = setUsers
                  (<[userId := User.setAppointments
                       (<[i := Appointment.setStatus cancelled a]>
                          (User.appointments user)) user]> (users db))
                  (setAppointmentSlots
                     match Appointment.slotId a with
                     | Some slotId => releaseSlot slotId (appointmentSlots db)
                     | None => appointmentSlots db
                     end db).
Proof.
  unfold cancelAppointment.
  destruct (negb _); [by left|].
  destruct (users db !! userId) as [user|] eqn:Hu; [|by left].
  destruct (findAppointment _ _) as [[i a]|] eqn:Hfind; [|by left].
  case_decide as Hst; [by left|].
  right. by exists user, i, a.
Qed.





(** ** Follow-up dates *)

(** The manual endpoint succeeds or fails whatever the source draws. *)
Lemma generatePrescriptionForAppointment_succeeds db userId appointmentId now g
    user i a :
  canGenerate db userId appointmentId user i a →
  ∃ p k,
    (PrescriptionController.generatePrescriptionForAppointment db userId
       appointmentId now g).1.2 = Ok 200 "Prescription generated successfully" p
    ∧ Prescription.followUpDate p =
        addDays now (default 0 (followUpDays !! (draws g k `mod` 5)%nat)).
Proof.
  intros Hcan.
  destruct (PrescriptionController.generatePrescriptionForAppointment _ _ _ _ _)
    as [[db' r] g'] eqn:Hrun.
  apply generatePrescriptionForAppointment_cases in Hrun
    as [(_ & _ & Hno) | (user' & i' & a' & p & k & _ & -> & _ & _ & Hfu)].
  - exfalso. apply Hno. by exists user, i, a.
  - by exists p, k.
Qed.

(** C9, as the code has it: the manual endpoint dates the follow-up a number
    of days after the generation time that the random source picks from
    7, 14, 30, 60 and 90, and every one of the five can come out; the
    service called by the sweep dates the follow-up of a prescription it
    creates exactly 7 days after the generation time. *)
Theorem followUpDate_offsets (db : Db) (userId : ObjectId) (now : Z) :
  (∀ appointmentId g code message p,
     (PrescriptionController.generatePrescriptionForAppointment db userId
        appointmentId now g).1.2 = Ok code message p →
     ∃ days, days ∈ followUpDays
             ∧ Prescription.followUpDate p = addDays now days)
  ∧ (∀ appointmentId g code message p days,
       (PrescriptionController.generatePrescriptionForAppointment db userId
          appointmentId now g).1.2 = Ok code message p →
       days ∈ followUpDays →
       ∃ g' p',
         (PrescriptionController.generatePrescriptionForAppointment db userId
            appointmentId now g').1.2 = Ok code message p'
         ∧ Prescription.followUpDate p' = addDays now days)
  ∧ (∀ a g p,
       (AppointmentService.generatePrescription db a userId now g).1.2 = inl p →
       findPrescription (Appointment._id a) (prescriptions db) = None →
       Prescription.followUpDate p = addDays now 7).
Proof.
  assert (Hpick : ∀ n, ∃ days, days ∈ followUpDays
            ∧ default 0 (followUpDays !! (n `mod` 5)%nat) = days).
  { intros n. pose proof (Nat.mod_upper_bound n 5 ltac:(lia)) as Hlt.
    destruct (n `mod` 5)%nat as [|[|[|[|[|?]]]]]; [..|lia];
      eexists; (split; [|reflexivity]); unfold followUpDays; set_solver. }
  split; [|split].
  - intros aid g code message p Hr.
    destruct (PrescriptionController.generatePrescriptionForAppointment _ _ _ _ _)
      as [[db' r] g'] eqn:Hrun. simpl in Hr. subst r.
    apply generatePrescriptionForAppointment_cases in Hrun
      as [(_ & Herr & _) | (user & i & a & q & k & _ & [= _ _ <-] & _ & _ & Hfu)];
      [done|].
    destruct (Hpick (draws g k)) as (days & Hin & Hd). exists days.
    by rewrite Hfu, Hd.
  - intros aid g code message p days Hr Hdays.
    destruct (PrescriptionController.generatePrescriptionForAppointment _ _ _ _ _)
      as [[db' r] g'] eqn:Hrun. simpl in Hr. subst r.
    apply generatePrescriptionForAppointment_cases in Hrun
      as [(_ & Herr & _) | (user & i & a & q & k & Hcan & [= -> -> _] & _)];
      [done|].
    apply list_elem_of_lookup_1 in Hdays as [j Hj].
    pose proof (lookup_lt_Some _ _ _ Hj) as Hlt. simpl in Hlt.
    destruct (generatePrescriptionForAppointment_succeeds db userId aid now
                (mkSrc (λ _, j) (ids g) 0 0) user i a Hcan) as (p' & k' & Hok & Hfu).
    exists (mkSrc (λ _, j) (ids g) 0 0), p'. split; [done|].
    rewrite Hfu. simpl draws. rewrite Nat.mod_small by lia. by rewrite Hj.
  - intros a g p Hr Hnone.
    destruct (AppointmentService.generatePrescription db a userId now g)
      as [[db' r] g'] eqn:Hrun. simpl in Hr. subst r.
    apply generatePrescription_cases in Hrun
      as (_ & _ & _ & _ & [(q & _ & _ & Hfind)
                        | [(q & [= <-] & _ & _ & _ & _ & Hfu) | (e & ? & _)]]);
      [congruence| |done].
    rewrite Hfu. unfold addDays, msPerDay. lia.
Qed.

End ExactlyOnce.

(** ** Statuses across requests *)

Section Statuses.
Context `{P : Platform}.

Lemma statusKept_refl st db : statusKept st db db.
Proof. intros uid u j a Hu Hj Hst. by exists u, a. Qed.

(** One ledger replaced by another that keeps the appointments of status
    [st] where they are. *)
Lemma statusKept_ledger st db db' userId user l' :
  users db !! userId = Some user →
  users db' = <[userId := User.setAppointments l' user]> (users db) →
  (∀ j a, User.appointments user !! j = Some a → Appointment.status a = st →
     ∃ a', l' !! j = Some a' ∧ Appointment.status a' = st) →
  statusKept st db db'.
Proof.
  intros Huser Hdb Hkeep uid u j a Hu Hj Hst. rewrite Hdb.
  destruct (decide (uid = userId)) as [->|Hne].
  - rewrite Huser in Hu. injection Hu as <-.
    destruct (Hkeep _ _ Hj Hst) as (a' & Hj' & Hst').
    eexists _, a'. by rewrite lookup_insert_eq.
  - exists u, a. by rewrite lookup_insert_ne.
Qed.

Lemma statusKept_addAppointment st db userId body now newId :
  statusKept st db (addAppointment db userId body now newId).1.
Proof.
  destruct (addAppointment_cases db userId body now newId)
    as [[-> _] | (date & user & doctor & hospital & slotId & slot & a & _ & _ & Hu
                  & _ & _ & _ & _ & _ & ->)]; [apply statusKept_refl|].
  eapply statusKept_ledger; [done..|].
  intros j b Hj Hst. exists b. by rewrite lookup_app_l by (by eapply lookup_lt_Some).
Qed.

Lemma statusKept_cancelAppointment db userId appointmentId :
  statusKept cancelled db (cancelAppointment db userId appointmentId).1.
Proof.
  destruct (cancelAppointment_cases db userId appointmentId)
    as [[-> _] | (user & i & a & Hu & Hfind & Hst & ->)]; [apply statusKept_refl|].
  eapply statusKept_ledger; [done..|].
  intros j b Hj Hb. destruct (decide (j = i)) as [->|Hne].
  - exists (Appointment.setStatus cancelled a).
    by rewrite list_lookup_insert_eq by (by eapply lookup_lt_Some).
  - exists b. by rewrite list_lookup_insert_ne.
Qed.

Lemma statusKept_updateAppointment st db userId appointmentId
    (updateData : gmap string string) :
  updateData !! "status" = None →
  statusKept st db (updateAppointment db userId appointmentId updateData).1.
Proof.
  intros Hnone.
  destruct (updateAppointment_cases db userId appointmentId updateData)
    as [[-> _] | (user & i & a & a' & Hu & Hfind & Ha & ->)]; [apply statusKept_refl|].
  apply findAppointment_Some in Hfind as (Hi & _).
  eapply statusKept_ledger; [done..|].
  intros j b Hj Hb. destruct (decide (j = i)) as [->|Hne].
  - rewrite Hi in Hj. injection Hj as <-. exists a'.
    rewrite list_lookup_insert_eq by (by eapply lookup_lt_Some). split; [done|].
    unfold assignUpdates in Ha. rewrite (pickAllowed_lookup _ "status") in Ha.
    rewrite decide_True, Hnone in Ha by auto.
    destruct (pickAllowed updateData !! "notes"); by simplify_eq/=.
  - exists b. by rewrite list_lookup_insert_ne.
Qed.

Lemma statusKept_generate st db userId appointmentId now g :
  terminal st →
  statusKept st db
    (PrescriptionController.generatePrescriptionForAppointment db userId
       appointmentId now g).1.1.
Proof.
  intros Hterm.
  destruct (PrescriptionController.generatePrescriptionForAppointment _ _ _ _ _)
    as [[db' r] g'] eqn:Hrun. simpl.
  apply generatePrescriptionForAppointment_cases in Hrun
    as [(-> & _) | (user & i & a & p & k & Hcan & _ & -> & _)];
    [apply statusKept_refl|].
  destruct Hcan as (_ & Hu & Hfind & Hst & _).
  apply findAppointment_Some in Hfind as (Hi & _).
  eapply statusKept_ledger; [done..|].
  intros j b Hj Hb. destruct (decide (j = i)) as [->|Hne].
  - rewrite Hi in Hj. injection Hj as <-. eexists.
    rewrite list_lookup_insert_eq by (by eapply lookup_lt_Some). split; [done|].
    simpl. destruct Hterm as [-> | ->], Hst as [Hst | Hst]; congruence.
  - exists b. by rewrite list_lookup_insert_ne.
Qed.

Lemma statusKept_expireAppointments st db storage now g :
  st ≠ confirmed →
  statusKept st db (AppointmentService.expireAppointments storage now db g).1.1.
Proof.
  intros Hne uid u j a Hu Hj Hst.
  destruct (expireAppointments_spec storage now db g)
    as (processed & remaining & Htodo & _ & Hproc & Hother & _).
  destruct (decide (uid ∈ processed.*1)) as [Hin|Hnin].
  - apply list_elem_of_fmap in Hin as ([uid' u0] & Heq & Hin). simpl in Heq.
    subst uid'.
    assert (users db !! uid = Some u0) as Hu0.
    { eapply elem_of_usersWithConfirmed. rewrite Htodo, elem_of_app. eauto. }
    rewrite Hu in Hu0. injection Hu0 as <-.
    destruct (Hproc _ _ Hin) as (l' & Hl' & Hall).
    destruct (Forall2_lookup_l _ _ _ _ _ Hall Hj) as (a' & Hj' & Hrel).
    unfold sweptRel in Hrel. rewrite decide_False in Hrel by congruence.
    subst a'. by eexists _, a.
  - exists u, a. by rewrite Hother.
Qed.

(** C2, as the code has it.  Booking, the sweep and the manual prescription
    endpoint leave every completed and every cancelled appointment in its
    status, a cancellation leaves every cancelled appointment cancelled, and
    so does a PATCH whose body carries no status.  But a cancellation turns
    a completed appointment into a cancelled one, and a PATCH whose body
    carries a status of the enum writes it, whatever the status was. *)
Theorem terminal_status_kept (db : Db) (g : Src) :
  (∀ op st, keepsTerminal op st → statusKept st db (runOp op db g).1)
  ∧ (∀ userId appointmentId user i a,
       isValid appointmentId = true →
       users db !! userId = Some user →
       findAppointment appointmentId (User.appointments user) = Some (i, a) →
       Appointment.status a = completed →
       ∃ user' a',
         users (runOp (OpCancel userId appointmentId) db g).1 !! userId = Some user'
         ∧ User.appointments user' !! i = Some a'
         ∧ Appointment.status a' = cancelled)
  ∧ (∀ userId appointmentId updateData user i a s st',
       isValid appointmentId = true →
       users db !! userId = Some user →
       findAppointment appointmentId (User.appointments user) = Some (i, a) →
       updateData !! "status" = Some s →
       statusOfString s = Some st' →
       ∃ user' a',
         users (runOp (OpUpdate userId appointmentId updateData) db g).1 !! userId
         = Some user'
         ∧ User.appointments user' !! i = Some a'
         ∧ Appointment.status a' = st').
Proof.
  split; [|split].
  - intros op st [Hterm Hop].
    destruct op as [userId body now newId | userId aid | userId aid d
                   | userId aid now | storage now]; simpl.
    + apply statusKept_addAppointment.
    + subst st. apply statusKept_cancelAppointment.
    + by apply statusKept_updateAppointment.
    + rewrite gen_bind_eq.
      pose proof (statusKept_generate st db userId aid now g Hterm) as Hkept.
      by destruct (PrescriptionController.generatePrescriptionForAppointment _ _ _ _ _)
        as [[db' r] g'].
    + rewrite gen_bind_eq.
      assert (st ≠ confirmed) as Hne by (by destruct Hterm as [-> | ->]).
      pose proof (statusKept_expireAppointments st db storage now g Hne) as Hkept.
      by destruct (AppointmentService.expireAppointments _ _ _ _) as [[db' r] g'].
  - intros userId appointmentId user i a Hvalid Hu Hfind Hst. simpl.
    assert (Hne : Appointment.status a ≠ cancelled) by (by rewrite Hst).
    rewrite (cancelAppointment_found _ _ _ _ _ _ Hvalid Hu Hfind Hne). simpl.
    apply findAppointment_Some in Hfind as (Hi & _ & _).
    eexists _, _. rewrite lookup_insert_eq. split; [done|]. simpl.
    split; [apply list_lookup_insert_eq; by eapply lookup_lt_Some|done].
  - intros userId appointmentId updateData user i a s st' Hvalid Hu Hfind Hs Hst'.
    simpl. unfold updateAppointment. rewrite Hvalid. simpl.
    assert (Hpick : pickAllowed updateData !! "status" = Some s).
    { rewrite pickAllowed_lookup, decide_True by (by left). done. }
    rewrite decide_False.
    2:{ intros Hsize. apply map_size_empty_iff in Hsize.
        by rewrite Hsize, lookup_empty in Hpick. }
    rewrite Hu, Hfind. unfold assignUpdates. rewrite Hpick, Hst'. simpl.
    apply findAppointment_Some in Hfind as (Hi & _ & _).
    eexists _, _. rewrite lookup_insert_eq. split; [done|]. simpl.
    split; [apply list_lookup_insert_eq; by eapply lookup_lt_Some|done].
Qed.

End Statuses.

(** ** The slot invariant *)

Section SlotInvariant.
Context `{P : Platform}.

Lemma slotFreeOrClaimed_consistent s : slotFreeOrClaimed s → slotConsistent s.
Proof.
  unfold slotConsistent.
  intros [(Ha & Hb & Hn) | (c & Ha & Hb & Hn)]; rewrite Ha, Hb, Hn; split; split;
    congruence.
Qed.

Lemma map_Forall_alter_slot (Q : AppointmentSlot.t → Prop) f k
    (slots : gmap ObjectId AppointmentSlot.t) :
  (∀ s, Q (f s)) →
  map_Forall (λ _ s, Q s) slots → map_Forall (λ _ s, Q s) (alter f k slots).
Proof.
  intros Hf Hall j s. rewrite lookup_alter. case_decide as Hj.
  - intros Heq. destruct (slots !! k) as [x|]; simplify_eq/=. apply Hf.
  - apply Hall.
Qed.

Lemma slots_addAppointment db userId body now newId :
  map_Forall (λ _ s, slotFreeOrClaimed s) (appointmentSlots db) →
  map_Forall (λ _ s, slotFreeOrClaimed s)
    (appointmentSlots (addAppointment db userId body now newId).1).
Proof.
  intros Hall.
  destruct (addAppointment_cases db userId body now newId)
    as [[-> _] | (date & user & doctor & hospital & slotId & slot & a & _ & _ & _
                  & _ & _ & _ & _ & _ & ->)]; [done|].
  simpl. apply map_Forall_insert_2; [|done].
  right. exists userId. apply setBooking_claimed.
Qed.

Lemma slots_cancelAppointment db userId appointmentId :
  map_Forall (λ _ s, slotFreeOrClaimed s) (appointmentSlots db) →
  map_Forall (λ _ s, slotFreeOrClaimed s)
    (appointmentSlots (cancelAppointment db userId appointmentId).1).
Proof.
  intros Hall.
  destruct (cancelAppointment_cases db userId appointmentId)
    as [[-> _] | (user & i & a & _ & _ & _ & ->)]; [done|].
  simpl. destruct (Appointment.slotId a); [|done].
  apply map_Forall_alter_slot; [|done]. intros slot. left. apply setBooking_free.
Qed.

Lemma slots_runOp op db g :
  map_Forall (λ _ s, slotFreeOrClaimed s) (appointmentSlots db) →
  map_Forall (λ _ s, slotFreeOrClaimed s) (appointmentSlots (runOp op db g).1).
Proof.
  intros Hall.
  destruct op as [userId body now newId | userId aid | userId aid d
                 | userId aid now | storage now]; simpl.
  - by apply slots_addAppointment.
  - by apply slots_cancelAppointment.
  - destruct (updateAppointment_cases db userId aid d)
      as [[-> _] | (user & i & a & a' & _ & _ & _ & ->)]; exact Hall.
  - rewrite gen_bind_eq.
    destruct (PrescriptionController.generatePrescriptionForAppointment _ _ _ _ _)
      as [[db' r] g'] eqn:Hrun. simpl.
    apply generatePrescriptionForAppointment_cases in Hrun
      as [(-> & _) | (user & i & a & p & k & _ & _ & -> & _)]; exact Hall.
  - rewrite gen_bind_eq.
    destruct (expireAppointments_spec storage now db g)
      as (_ & _ & _ & ((Hs & _) & _) & _).
    destruct (AppointmentService.expireAppointments _ _ _ _) as [[db' r] g'].
    simpl in *. by rewrite Hs.
Qed.

Lemma slots_runOps ops : ∀ db g,
  map_Forall (λ _ s, slotFreeOrClaimed s) (appointmentSlots db) →
  map_Forall (λ _ s, slotFreeOrClaimed s) (appointmentSlots (runOps ops db g).1).
Proof.
  induction ops as [|op ops IH]; intros db g Hall; simpl; [done|].
  rewrite gen_bind_eq. pose proof (slots_runOp op db g Hall) as Hstep.
  destruct (runOp op db g) as [db1 g1]. by apply IH.
Qed.

(** The invariant also holds between the database calls of interleaved
    booking requests: the only call that writes a slot writes all three
    fields. *)
Lemma slots_bookStep db t :
  map_Forall (λ _ s, slotFreeOrClaimed s) (appointmentSlots db) →
  map_Forall (λ _ s, slotFreeOrClaimed s) (appointmentSlots (bookStep db t).1).
Proof.
  intros Hall. destruct t as [c | c d | c d k | c d k doc | c d k doc hosp | c a | r];
    simpl; try done.
  - destruct (validateAppointmentData _); [|done]. by destruct (users db !! _).
  - by destruct (findOne _ _) as [[? ?]|].
  - destruct doc; [|done]. by destruct (hospitals db !! _).
  - apply map_Forall_alter_slot; [|done]. intros slot. right.
    exists (call_userId c). apply setBooking_claimed.
Qed.

(** X1: however the database calls of concurrent booking requests are
    interleaved, every slot stays free or claimed. *)
Lemma slots_runSchedule sched : ∀ st,
  map_Forall (λ _ s, slotFreeOrClaimed s) (appointmentSlots st.1) →
  map_Forall (λ _ s, slotFreeOrClaimed s) (appointmentSlots (runSchedule sched st).1).
Proof.
  unfold runSchedule.
  induction sched as [|i sched IH]; intros st Hall; simpl; [done|].
  apply IH. unfold schedule1. destruct (st.2 !! i) as [t|]; [|done].
  pose proof (slots_bookStep st.1 t Hall) as Hstep.
  by destruct (bookStep st.1 t).
Qed.

(** Sixty rounds are enough for the minute loop of the seed script whenever
    the step is positive: more fuel yields the same slots. *)
Lemma minuteLoop_enough fuel : ∀ fuel' minute step body,
  (1 ≤ step)%Z → (60 - minute ≤ Z.of_nat fuel)%Z → (fuel ≤ fuel')%nat →
  Seed.minuteLoop fuel minute step body = Seed.minuteLoop fuel' minute step body.
Proof.
  induction fuel as [|fuel IH]; intros fuel' minute step body Hstep Hfuel Hle.
  - destruct fuel'; simpl; [done|]. case_decide; [lia|done].
  - destruct fuel' as [|fuel']; [lia|]. simpl. case_decide; [|done].
    f_equal. apply IH; lia.
Qed.

Lemma minuteLoop_free fuel : ∀ minute step body,
  (∀ m, slotFree (body m)) → Forall slotFree (Seed.minuteLoop fuel minute step body).
Proof.
  induction fuel as [|fuel IH]; intros minute step body Hbody; simpl; [done|].
  case_decide; [|done]. constructor; [apply Hbody | by apply IH].
Qed.

Lemma generateSlots_free startDate docs :
  Forall slotFree (Seed.generateSlots startDate docs).
Proof.
  unfold Seed.generateSlots. apply Forall_bind, Forall_forall. intros doc _.
  unfold Seed.slotsOfDoctor. apply Forall_bind, Forall_forall. intros day _.
  apply Forall_bind, Forall_forall. intros hour _.
  apply minuteLoop_free. intros m. by repeat split.
Qed.

Lemma insertMany_free docs : ∀ coll g,
  Forall slotFree docs → map_Forall (λ _ s, slotFree s) coll →
  map_Forall (λ _ s, slotFree s) (Seed.insertMany docs coll g).1.
Proof.
  induction docs as [|d docs IH]; intros coll g Hdocs Hcoll; simpl; [done|].
  apply Forall_cons in Hdocs as [Hd Hdocs].
  rewrite gen_bind_eq. simpl. apply IH; [done|]. by apply map_Forall_insert_2.
Qed.

(** C4: the seed script creates only free slots, and from the seeded
    collection on, whatever bookings, cancellations, updates, prescription
    requests and sweeps run, every slot is free or claimed, so that its
    three fields agree: [isBooked] holds exactly when [bookedBy] is set,
    exactly when [isAvailable] does not hold. *)
Theorem slots_always_consistent (startDate : Z) (docs : list (ObjectId * Doctor.t))
    (g0 : Src) (rest : Db) (ops : list Op) (g : Src) :
  let seeded := (Seed.seedSlots startDate docs g0).1 in
  let db' := (runOps ops (setAppointmentSlots seeded rest) g).1 in
  map_Forall (λ _ s, slotFree s) seeded
  ∧ map_Forall (λ _ s, slotFreeOrClaimed s) (appointmentSlots db')
  ∧ slotsConsistent db'.
Proof.
  intros seeded db'.
  assert (Hseed : map_Forall (λ _ s, slotFree s) seeded).
  { apply insertMany_free; [apply generateSlots_free | apply map_Forall_empty]. }
  assert (Hinv : map_Forall (λ _ s, slotFreeOrClaimed s) (appointmentSlots db')).
  { apply slots_runOps. simpl. eapply map_Forall_impl; [exact Hseed|].
    intros k s Hs. by left. }
  split; [done|]. split; [done|].
  eapply map_Forall_impl; [exact Hinv|]. intros k s. apply slotFreeOrClaimed_consistent.
Qed.

End SlotInvariant.

(** ** Booking requests, one after another and interleaved *)

Section Serial.
Context `{P : Platform}.

(** A request that runs alone does what [addAppointment] does. *)
Lemma runAlone_addAppointment db c :
  runAlone db c =
  ((addAppointment db (call_userId c) (call_body c) (call_now c) (call_newId c)).1,
   Responded
     (addAppointment db (call_userId c) (call_body c) (call_now c) (call_newId c)).2).
Proof.
  unfold runAlone, addAppointment, Nat.iter. cbn [nat_rect bookStep fst snd].
  destruct (validateAppointmentData _) as [date|]; [|reflexivity].
  destruct (users db !! _) as [user|]; [|reflexivity]. cbn [bookStep fst snd].
  destruct (findOne _ _) as [[slotId slot]|]; [|reflexivity]. cbn [bookStep fst snd].
  destruct (doctors db !! _) as [doctor|]; [|reflexivity].
  destruct (hospitals db !! _) as [hospital|]; reflexivity.
Qed.

(** X2: served one after another, two requests for the same slot cannot both
    be granted: under the unique index of the slot collection, once a booking
    went through, the same request from any patient is answered
    SlotUnavailable and changes nothing. *)
Lemma addAppointment_serial_exclusive db userId body now newId code message a
    userId' now' newId' :
  uniqueSlots db →
  (addAppointment db userId body now newId).2 = Ok code message a →
  is_Some (users db !! userId') →
  addAppointment (addAppointment db userId body now newId).1 userId' body now' newId'
  = ((addAppointment db userId body now newId).1, SlotUnavailable).
Proof.
  intros Hunique Hok [user' Hu'].
  pose proof (addAppointment_cases db userId body now newId) as Hcases.
  cbv zeta in Hcases.
  destruct Hcases as [[_ Herr] | (date & user & doctor & hospital & slotId & slot
                                  & a0 & Hr & Hval & Hu & Hd & Hh & Hslot & Hq & Ha & Hdb)].
  { by rewrite Hok in Herr. }
  rewrite Hdb. unfold addAppointment at 1. rewrite Hval. simpl.
  assert (is_Some (<[userId := User.setAppointments (User.appointments user ++ [a0])%list user]>
                     (users db) !! userId')) as [u2 ->].
  { rewrite lookup_insert. case_decide; eauto. }
  assert (Hnone : findOne (slotQuery (req_doctorId body) (req_hospitalId body)
                             (startOfDay date) (req_appointmentTime body))
                    (<[slotId := AppointmentSlot.setBooking true false (Some userId) slot]>
                       (appointmentSlots db)) = None).
  { apply findOne_None. intros k s Hk.
    destruct (slotQuery _ _ _ _ s) eqn:Hqs; [|done]. exfalso.
    apply slotQuery_true in Hq as (Hq1 & Hq2 & Hq3 & Hq4 & _).
    apply slotQuery_true in Hqs as (Hs1 & Hs2 & Hs3 & Hs4 & Hs5 & _).
    rewrite lookup_insert in Hk. case_decide as Hkk.
    - injection Hk as <-. done.
    - apply Hkk. eapply Hunique; [done..| | | |]; congruence. }
  by rewrite Hnone.
Qed.

End Serial.


(** * Proofs for the rest of the backend *)

(** ** Times of day *)

Section Times.

Lemma elem_of_seqZ_In (x start len : Z) :
  (start ≤ x < start + len)%Z → In x (seqZ start len).
Proof. intros Hx. by apply list_elem_of_In, elem_of_seqZ. Qed.

Lemma pad2_two_digits_check :
  forallb (λ a, forallb (λ b,
    bool_decide (Seed.pad2 (10 * a + b) =
                 String (ascii_of_nat (Z.to_nat (48 + a)))
                   (String (ascii_of_nat (Z.to_nat (48 + b))) "")))
    (seqZ 0 10)) (seqZ 0 10) = true.
Proof. vm_compute. reflexivity. Qed.

(** A number below 100 is written with its two decimal digits. *)
Lemma pad2_two_digits a b :
  (0 ≤ a < 10)%Z → (0 ≤ b < 10)%Z →
  Seed.pad2 (10 * a + b) =
  String (ascii_of_nat (Z.to_nat (48 + a)))
    (String (ascii_of_nat (Z.to_nat (48 + b))) "").
Proof.
  intros Ha Hb. pose proof pad2_two_digits_check as Hall.
  rewrite forallb_forall in Hall.
  specialize (Hall a (elem_of_seqZ_In a 0 10 ltac:(lia))). cbv beta in Hall.
  rewrite forallb_forall in Hall.
  specialize (Hall b (elem_of_seqZ_In b 0 10 ltac:(lia))). cbv beta in Hall.
  by apply bool_decide_eq_true in Hall.
Qed.

Lemma times_valid_check :
  forallb (λ h, forallb (λ m,
    isTimeHHMM (Seed.pad2 h +:+ ":" +:+ Seed.pad2 m)) (seqZ 0 60)) (seqZ 0 24) = true.
Proof. vm_compute. reflexivity. Qed.

(** Every time of day, written [HH:MM], passes the validator. *)
Lemma isTimeHHMM_pad2 h m :
  (0 ≤ h < 24)%Z → (0 ≤ m < 60)%Z →
  isTimeHHMM (Seed.pad2 h +:+ ":" +:+ Seed.pad2 m) = true.
Proof.
  intros Hh Hm. pose proof times_valid_check as Hall.
  rewrite forallb_forall in Hall.
  specialize (Hall h (elem_of_seqZ_In h 0 24 ltac:(lia))). cbv beta in Hall.
  rewrite forallb_forall in Hall.
  exact (Hall m (elem_of_seqZ_In m 0 60 ltac:(lia))).
Qed.

(** A character the validator takes for a digit up to [k] is that digit. *)
Lemma digitBelow_char c k :
  (k ≤ 9)%nat → digitBelow c k = true →
  ∃ a : Z, (0 ≤ a ≤ Z.of_nat k)%Z ∧ c = ascii_of_nat (Z.to_nat (48 + a)).
Proof.
  unfold digitBelow. intros Hk [Hlo Hhi]%andb_true_iff.
  apply Nat.leb_le in Hlo, Hhi.
  exists (Z.of_nat (nat_of_ascii c) - 48)%Z. split; [lia|].
  replace (Z.to_nat (48 + (Z.of_nat (nat_of_ascii c) - 48))) with (nat_of_ascii c)
    by lia.
  by rewrite ascii_nat_embedding.
Qed.

Lemma isDigit_char c :
  isDigit c = true →
  ∃ a : Z, (0 ≤ a ≤ 9)%Z ∧ c = ascii_of_nat (Z.to_nat (48 + a)).
Proof. intros Hc. by apply (digitBelow_char c 9). Qed.

(** What the validator accepts is a time of day written [HH:MM]. *)
Lemma isTimeHHMM_inv s :
  isTimeHHMM s = true →
  ∃ h m, (0 ≤ h < 24)%Z ∧ (0 ≤ m < 60)%Z
         ∧ s = Seed.pad2 h +:+ ":" +:+ Seed.pad2 m.
Proof.
  destruct s as [|h1 [|h2 [|c [|m1 [|m2 [|? ?]]]]]]; try done.
  unfold isTimeHHMM. intros H.
  apply andb_true_iff in H as [H Hm2]. apply andb_true_iff in H as [H Hm1].
  apply andb_true_iff in H as [Hhour Hcolon].
  apply bool_decide_eq_true in Hcolon as ->.
  apply (digitBelow_char m1 5) in Hm1 as (b1 & Hb1 & ->); [|lia].
  apply isDigit_char in Hm2 as (b2 & Hb2 & ->).
  assert (∃ a1 a2 : Z, (0 ≤ a1 ≤ 9)%Z ∧ (0 ≤ a2 ≤ 9)%Z ∧ (10 * a1 + a2 < 24)%Z
            ∧ h1 = ascii_of_nat (Z.to_nat (48 + a1))
            ∧ h2 = ascii_of_nat (Z.to_nat (48 + a2))) as (a1 & a2 & Ha1 & Ha2 & Hlt & -> & ->).
  { apply orb_true_iff in Hhour as [[H1 H2]%andb_true_iff | [H1 H2]%andb_true_iff].
    - apply (digitBelow_char h1 1) in H1 as (a1 & Ha1 & ->); [|lia].
      apply isDigit_char in H2 as (a2 & Ha2 & ->).
      exists a1, a2. repeat split; lia.
    - apply bool_decide_eq_true in H1 as ->.
      apply (digitBelow_char h2 3) in H2 as (a2 & Ha2 & ->); [|lia].
      exists 2%Z, a2. repeat split; lia. }
  exists (10 * a1 + a2)%Z, (10 * b1 + b2)%Z.
  split; [lia|]. split; [lia|].
  by rewrite !pad2_two_digits by lia.
Qed.

End Times.


(** ** The seeded slots *)

Section SeedFacts.
Context `{P : Platform}.

(** X3: the time validator of the controllers and schemas accepts exactly
    the 24-hour times written with two digits for the hour and two for the
    minute, as the seed script writes them. *)
Theorem isTimeHHMM_exactly_times (s : string) :
  isTimeHHMM s = true ↔
  ∃ h m, (0 ≤ h < 24)%Z ∧ (0 ≤ m < 60)%Z
         ∧ s = Seed.pad2 h +:+ ":" +:+ Seed.pad2 m.
Proof.
  split; [apply isTimeHHMM_inv|].
  intros (h & m & Hh & Hm & ->). by apply isTimeHHMM_pad2.
Qed.

Lemma durationOrDefault_pos d : (0 ≤ d)%Z → (1 ≤ durationOrDefault d)%Z.
Proof. unfold durationOrDefault. case_decide; lia. Qed.

Lemma elem_of_minuteLoop fuel : ∀ minute step body s,
  (0 ≤ step)%Z → s ∈ Seed.minuteLoop fuel minute step body →
  ∃ m, (minute ≤ m < 60)%Z ∧ s = body m.
Proof.
  induction fuel as [|fuel IH]; intros minute step body s Hstep Hin; simpl in Hin.
  { by apply elem_of_nil in Hin. }
  case_decide as Hlt; [|by apply elem_of_nil in Hin].
  apply elem_of_cons in Hin as [-> | Hin].
  - exists minute. split; [lia|done].
  - apply IH in Hin as (m & Hm & ->); [|done]. exists m. split; [lia|done].
Qed.

Lemma slotsOfDoctor_days startDate doc :
  Seed.slotsOfDoctor startDate doc =
  day ← seqZ 0 30;
  slotsOfDay doc.1 (Doctor.hospital doc.2) (startOfDay (addDays startDate day))
    (durationOrDefault (Doctor.appointmentDuration doc.2)).
Proof. reflexivity. Qed.

Lemma elem_of_slotsOfDay doctorId hospitalId slotDate d s :
  (0 ≤ d)%Z → s ∈ slotsOfDay doctorId hospitalId slotDate d →
  ∃ hour minute, (9 ≤ hour < 17)%Z ∧ (0 ≤ minute < 60)%Z
    ∧ s = Seed.seedSlot doctorId hospitalId slotDate d hour minute.
Proof.
  unfold slotsOfDay. intros Hd (hour & Hin & Hhour)%list_elem_of_bind.
  apply elem_of_seqZ in Hhour.
  apply elem_of_minuteLoop in Hin as (minute & Hm & ->); [|done].
  exists hour, minute. split; [lia|]. split; [lia|done].
Qed.

(** Where each slot the seed script generates comes from. *)
Lemma elem_of_generateSlots startDate docs s :
  (∀ doc, doc ∈ docs → (0 ≤ Doctor.appointmentDuration doc.2)%Z) →
  s ∈ Seed.generateSlots startDate docs →
  ∃ doc day hour minute,
    doc ∈ docs ∧ (0 ≤ day < 30)%Z ∧ (9 ≤ hour < 17)%Z ∧ (0 ≤ minute < 60)%Z
    ∧ s = Seed.seedSlot doc.1 (Doctor.hospital doc.2)
            (startOfDay (addDays startDate day))
            (durationOrDefault (Doctor.appointmentDuration doc.2)) hour minute.
Proof.
  unfold Seed.generateSlots. intros Hdur (doc & Hin & Hdoc)%list_elem_of_bind.
  rewrite slotsOfDoctor_days in Hin.
  apply list_elem_of_bind in Hin as (day & Hin & Hday). apply elem_of_seqZ in Hday.
  apply elem_of_slotsOfDay in Hin as (hour & minute & Hh & Hm & ->).
  - exists doc, day, hour, minute. split; [done|]. split; [lia|].
    split; [lia|]. split; [lia|]. done.
  - pose proof (durationOrDefault_pos _ (Hdur doc Hdoc)). lia.
Qed.

(** X4: for doctors whose appointment duration is not negative, every slot
    the seed script generates passes the validators of the slot schema:
    its start and end times are well-formed times of day, its duration is at
    least one minute, and it belongs to the doctor's own hospital. *)
Theorem generateSlots_well_formed (startDate : Z) (docs : list (ObjectId * Doctor.t))
    (s : AppointmentSlot.t) :
  (∀ doc, doc ∈ docs → (0 ≤ Doctor.appointmentDuration doc.2)%Z) →
  s ∈ Seed.generateSlots startDate docs →
  isTimeHHMM (AppointmentSlot.startTime s) = true
  ∧ isTimeHHMM (AppointmentSlot.endTime s) = true
  ∧ (1 ≤ AppointmentSlot.duration s)%Z
  ∧ ∃ doc, doc ∈ docs ∧ AppointmentSlot.doctor s = doc.1
           ∧ AppointmentSlot.hospital s = Doctor.hospital doc.2
           ∧ AppointmentSlot.duration s
             = durationOrDefault (Doctor.appointmentDuration doc.2).
Proof.
  intros Hdur Hin.
  destruct (elem_of_generateSlots _ _ _ Hdur Hin)
    as (doc & day & hour & minute & Hdoc & Hday & Hhour & Hminute & ->).
  pose proof (durationOrDefault_pos _ (Hdur doc Hdoc)) as Hpos.
  unfold Seed.seedSlot. simpl. split; [apply isTimeHHMM_pad2; lia|]. split.
  - apply isTimeHHMM_pad2.
    + case_decide; lia.
    + apply Z.mod_pos_bound. lia.
  - split; [done|]. by exists doc.
Qed.

Lemma chainedb_chained l : chainedb l = true → chained l.
Proof.
  induction l as [|s [|s' rest] IH]; simpl; [done..|].
  intros [Heq Hrest]%andb_true_iff. apply bool_decide_eq_true in Heq.
  split; [done|]. by apply IH.
Qed.

Lemma slotsOfDay_tiling_check a b c :
  forallb (λ d, implb (60 `mod` d =? 0)%Z
     (chainedb (slotsOfDay a b c d)
      && bool_decide (AppointmentSlot.startTime <$> head (slotsOfDay a b c d)
                      = Some "09:00")
      && bool_decide (AppointmentSlot.endTime <$> last (slotsOfDay a b c d)
                      = Some "17:00")
      && bool_decide (length (slotsOfDay a b c d) = Z.to_nat (480 `div` d))))
    (seqZ 1 60) = true.
Proof. vm_compute. reflexivity. Qed.

(** X5: when the appointment duration divides the hour, the slots the seed
    script generates for one doctor on one day tile the working day: the
    first starts at 09:00, each ends where the next starts, the last ends at
    17:00, there are 480 / duration of them, and each lasts the duration. *)
Theorem slotsOfDay_tiles (doctorId hospitalId : ObjectId) (slotDate d : Z) :
  (1 ≤ d)%Z → (d | 60)%Z →
  let l := slotsOfDay doctorId hospitalId slotDate d in
  chained l
  ∧ AppointmentSlot.startTime <$> head l = Some "09:00"
  ∧ AppointmentSlot.endTime <$> last l = Some "17:00"
  ∧ length l = Z.to_nat (480 `div` d)
  ∧ Forall (λ s, AppointmentSlot.duration s = d) l.
Proof.
  intros Hpos Hdiv l.
  assert (d ≤ 60)%Z as Hle by (apply Z.divide_pos_le; [lia|done]).
  assert (60 `mod` d = 0)%Z as Hmod by (apply Z.mod_divide; [lia|done]).
  pose proof (slotsOfDay_tiling_check doctorId hospitalId slotDate) as Hall.
  rewrite forallb_forall in Hall.
  specialize (Hall d (elem_of_seqZ_In d 1 60 ltac:(lia))). cbv beta in Hall.
  rewrite Hmod in Hall. change (0 =? 0)%Z with true in Hall. unfold implb in Hall.
  fold l in Hall.
  apply andb_true_iff in Hall as [Hall Hlen]. apply andb_true_iff in Hall as [Hall Hlast].
  apply andb_true_iff in Hall as [Hchain Hhead].
  apply bool_decide_eq_true in Hlen, Hlast, Hhead.
  split; [by apply chainedb_chained|]. repeat (split; [done|]).
  apply Forall_forall. intros s Hs.
  apply elem_of_slotsOfDay in Hs as (hour & minute & _ & _ & ->); [done|lia].
Qed.

(** *** The unique index *)

Lemma NoDup_fmap_bind {A B C} (f : B → C) (g : A → list B) (l : list A) :
  (∀ x1 x2 y1 y2, x1 ∈ l → x2 ∈ l → y1 ∈ g x1 → y2 ∈ g x2 → f y1 = f y2 → x1 = x2) →
  (∀ x, x ∈ l → NoDup (f <$> g x)) → NoDup l → NoDup (f <$> (l ≫= g)).
Proof.
  intros Hinj Hg Hl. induction Hl as [|x l Hx Hl IH]; [constructor|].
  rewrite bind_cons, fmap_app. apply NoDup_app. split; [|split].
  - apply Hg. left.
  - intros k (y1 & -> & Hy1)%list_elem_of_fmap (y2 & Heq & Hy2)%list_elem_of_fmap.
    apply list_elem_of_bind in Hy2 as (x2 & Hy2 & Hx2).
    apply Hx. rewrite (Hinj x x2 y1 y2); [done|by left|by right|done..].
  - apply IH.
    + intros x1 x2 y1 y2 H1 H2. apply Hinj; by right.
    + intros x0 H0. apply Hg. by right.
Qed.

Lemma ascii_of_digit_inj (a b : Z) :
  (0 ≤ a < 10)%Z → (0 ≤ b < 10)%Z →
  ascii_of_nat (Z.to_nat (48 + a)) = ascii_of_nat (Z.to_nat (48 + b)) → a = b.
Proof.
  intros Ha Hb Heq. apply (f_equal nat_of_ascii) in Heq.
  rewrite !nat_ascii_embedding in Heq by lia. lia.
Qed.

Lemma pad2_inj (x y : Z) :
  (0 ≤ x < 100)%Z → (0 ≤ y < 100)%Z → Seed.pad2 x = Seed.pad2 y → x = y.
Proof.
  intros Hx Hy.
  rewrite (Z.div_mod x 10), (Z.div_mod y 10) by lia.
  pose proof (Z.mod_pos_bound x 10 ltac:(lia)).
  pose proof (Z.mod_pos_bound y 10 ltac:(lia)).
  assert (0 ≤ x `div` 10 < 10)%Z
    by (split; [apply Z.div_pos; lia | apply Z.div_lt_upper_bound; lia]).
  assert (0 ≤ y `div` 10 < 10)%Z
    by (split; [apply Z.div_pos; lia | apply Z.div_lt_upper_bound; lia]).
  rewrite !pad2_two_digits by lia. intros [= Hc1 Hc2].
  apply ascii_of_digit_inj in Hc1, Hc2; [|lia..]. lia.
Qed.

(** Two slots of one day start at the same time only when they are the slot
    of the same hour and minute. *)
Lemma seedSlot_startTime_inj a b c d hour minute a' b' c' d' hour' minute' :
  (0 ≤ hour < 24)%Z → (0 ≤ minute < 60)%Z →
  (0 ≤ hour' < 24)%Z → (0 ≤ minute' < 60)%Z →
  AppointmentSlot.startTime (Seed.seedSlot a b c d hour minute)
  = AppointmentSlot.startTime (Seed.seedSlot a' b' c' d' hour' minute') →
  hour = hour' ∧ minute = minute'.
Proof.
  intros Hh Hm Hh' Hm'. unfold Seed.seedSlot. simpl.
  assert (∀ x, (0 ≤ x < 100)%Z → ∃ c1 c2, Seed.pad2 x = String c1 (String c2 ""))
    as Htwo.
  { intros x Hx. rewrite (Z.div_mod x 10) by lia.
    pose proof (Z.mod_pos_bound x 10 ltac:(lia)).
    assert (0 ≤ x `div` 10 < 10)%Z
      by (split; [apply Z.div_pos; lia | apply Z.div_lt_upper_bound; lia]).
    rewrite pad2_two_digits by lia. eauto. }
  destruct (Htwo hour ltac:(lia)) as (h1 & h2 & Eh).
  destruct (Htwo hour' ltac:(lia)) as (h1' & h2' & Eh').
  destruct (Htwo minute ltac:(lia)) as (m1 & m2 & Em).
  destruct (Htwo minute' ltac:(lia)) as (m1' & m2' & Em').
  intros Heq.
  assert (Seed.pad2 hour = Seed.pad2 hour' ∧ Seed.pad2 minute = Seed.pad2 minute')
    as [Hhours Hminutes].
  { rewrite Eh, Eh', Em, Em' in *. simpl in Heq. by simplify_eq. }
  split; apply pad2_inj; (lia || done).
Qed.

Lemma minuteLoop_unique a b c d hour fuel : ∀ minute step,
  (1 ≤ step)%Z → (0 ≤ minute)%Z → (0 ≤ hour < 24)%Z →
  NoDup (slotKey <$> Seed.minuteLoop fuel minute step (Seed.seedSlot a b c d hour)).
Proof.
  induction fuel as [|fuel IH]; intros minute step Hstep Hmin Hhour; simpl;
    [constructor|].
  case_decide as Hlt; [|constructor]. rewrite fmap_cons. apply NoDup_cons. split.
  - intros (s & Heq & Hin)%list_elem_of_fmap.
    apply elem_of_minuteLoop in Hin as (m & Hm & ->); [|lia].
    apply (f_equal snd) in Heq. cbv [slotKey snd] in Heq.
    apply (seedSlot_startTime_inj a b c d hour minute a b c d hour m) in Heq
      as [_ Heq]; lia.
  - apply IH; lia.
Qed.

Lemma slotsOfDay_unique a b c d :
  (1 ≤ d)%Z → NoDup (slotKey <$> slotsOfDay a b c d).
Proof.
  intros Hd. unfold slotsOfDay. apply NoDup_fmap_bind; [| |apply NoDup_seqZ].
  - intros h1 h2 s1 s2 Hh1%elem_of_seqZ Hh2%elem_of_seqZ Hs1 Hs2 Heq.
    apply elem_of_minuteLoop in Hs1 as (m1 & Hm1 & ->); [|lia].
    apply elem_of_minuteLoop in Hs2 as (m2 & Hm2 & ->); [|lia].
    apply (f_equal snd) in Heq. cbv [slotKey snd] in Heq.
    apply (seedSlot_startTime_inj a b c d h1 m1 a b c d h2 m2) in Heq as [Heq _];
      [done|lia..].
  - intros h Hh%elem_of_seqZ. apply minuteLoop_unique; lia.
Qed.

(** The slots the seed script generates never collide on the unique index of
    the slot collection (doctor, hospital, date, start time), provided the
    doctors are distinct, their durations are not negative and the thirty
    days of the horizon have distinct dates. *)
Lemma NoDup_slotKey_generateSlots (startDate : Z) (docs : list (ObjectId * Doctor.t)) :
  NoDup docs.*1 →
  (∀ doc, doc ∈ docs → (0 ≤ Doctor.appointmentDuration doc.2)%Z) →
  NoDup ((λ day, startOfDay (addDays startDate day)) <$> seqZ 0 30) →
  NoDup (slotKey <$> Seed.generateSlots startDate docs).
Proof.
  intros Hdocs Hdur Hdays. unfold Seed.generateSlots.
  apply NoDup_fmap_bind; [| |by eapply NoDup_fmap_1].
  - intros doc1 doc2 s1 s2 Hdoc1 Hdoc2 Hs1 Hs2 Heq.
    rewrite slotsOfDoctor_days in Hs1, Hs2.
    apply list_elem_of_bind in Hs1 as (day1 & Hs1 & _).
    apply list_elem_of_bind in Hs2 as (day2 & Hs2 & _).
    pose proof (durationOrDefault_pos _ (Hdur _ Hdoc1)).
    pose proof (durationOrDefault_pos _ (Hdur _ Hdoc2)).
    apply elem_of_slotsOfDay in Hs1 as (h1 & m1 & _ & _ & ->); [|lia].
    apply elem_of_slotsOfDay in Hs2 as (h2 & m2 & _ & _ & ->); [|lia].
    apply (f_equal (λ k, k.1.1.1)) in Heq. simpl in Heq. rename Heq into Hid.
    apply list_elem_of_lookup_1 in Hdoc1 as [i Hi], Hdoc2 as [j Hj].
    assert (i = j) as ->; [|congruence].
    eapply (NoDup_lookup _ _ _ _ Hdocs); rewrite list_lookup_fmap;
      [by rewrite Hi | rewrite Hj; simpl; congruence].
  - intros doc Hdoc. rewrite slotsOfDoctor_days.
    pose proof (durationOrDefault_pos _ (Hdur _ Hdoc)) as Hpos.
    apply NoDup_fmap_bind; [| |apply NoDup_seqZ].
    + intros day1 day2 s1 s2 Hday1 Hday2 Hs1 Hs2 Heq.
      apply elem_of_slotsOfDay in Hs1 as (h1 & m1 & _ & _ & ->); [|lia].
      apply elem_of_slotsOfDay in Hs2 as (h2 & m2 & _ & _ & ->); [|lia].
      apply (f_equal (λ k, k.1.2)) in Heq. simpl in Heq. rename Heq into Hdate.
      apply list_elem_of_lookup_1 in Hday1 as [i Hi], Hday2 as [j Hj].
      assert (i = j) as ->; [|congruence].
      eapply (NoDup_lookup _ _ _ _ Hdays); rewrite list_lookup_fmap;
        [by rewrite Hi | rewrite Hj; simpl; congruence].
    + intros day _. by apply slotsOfDay_unique.
Qed.

End SeedFacts.

(** ** The seeded collection *)

Section SeedStore.
Context `{P : Platform}.

(** [insertMany] stores every document under an id of its own, as long as
    the driver never hands out the same id twice. *)
Lemma insertMany_spec docs : ∀ coll g,
  (∀ i j, ids g i = ids g j → i = j) →
  (∀ k, is_Some (coll !! k) → ∃ i, (i < idPos g)%nat ∧ k = ids g i) →
  (map_to_list (Seed.insertMany docs coll g).1).*2
  ≡ₚ (docs ++ (map_to_list coll).*2)%list.
Proof.
  induction docs as [|d docs IH]; intros coll g Hinj Hkeys; simpl; [done|].
  rewrite gen_bind_eq. simpl.
  assert (Hnew : coll !! ids g (idPos g) = None).
  { destruct (coll !! ids g (idPos g)) eqn:Hk; [|done].
    destruct (Hkeys (ids g (idPos g))) as (i & Hlt & Heq); [by rewrite Hk|].
    apply Hinj in Heq. lia. }
  rewrite IH; simpl; [|done|].
  - rewrite map_to_list_insert by done. rewrite fmap_cons. simpl.
    by rewrite Permutation_middle.
  - intros k [x Hk]. rewrite lookup_insert in Hk. case_decide as Heq.
    + exists (idPos g). split; [lia|done].
    + destruct (Hkeys k) as (i & Hlt & ->); [by rewrite Hk|]. exists i. split; [lia|done].
Qed.

Lemma seedSlots_stored startDate docs g :
  (∀ i j, ids g i = ids g j → i = j) →
  (map_to_list (Seed.seedSlots startDate docs g).1).*2
  ≡ₚ Seed.generateSlots startDate docs.
Proof.
  intros Hinj. unfold Seed.seedSlots. rewrite insertMany_spec; [|done|].
  - by rewrite map_to_list_empty, app_nil_r.
  - intros k [x Hk]. by rewrite lookup_empty in Hk.
Qed.

Lemma NoDup_fmap_lookup {A B} (f : A → B) (l : list A) i j x y :
  NoDup (f <$> l) → l !! i = Some x → l !! j = Some y → f x = f y → i = j.
Proof.
  intros Hnd Hi Hj Heq. eapply NoDup_lookup; [exact Hnd| |].
  - by rewrite list_lookup_fmap, Hi.
  - by rewrite list_lookup_fmap, Hj, Heq.
Qed.

Lemma uniqueSlots_of_keys (slots : gmap ObjectId AppointmentSlot.t) rest :
  NoDup (slotKey <$> (map_to_list slots).*2) →
  uniqueSlots (setAppointmentSlots slots rest).
Proof.
  intros Hnd k1 k2 s1 s2 H1 H2 Hd Hh Hdt Hst. simpl in H1, H2.
  apply elem_of_map_to_list, list_elem_of_lookup_1 in H1 as [i Hi].
  apply elem_of_map_to_list, list_elem_of_lookup_1 in H2 as [j Hj].
  rewrite <- list_fmap_compose in Hnd.
  assert (i = j) as ->.
  { eapply (NoDup_fmap_lookup _ _ _ _ _ _ Hnd Hi Hj). simpl.
    unfold slotKey. by rewrite Hd, Hh, Hdt, Hst. }
  congruence.
Qed.

(** X6: seeded with doctors that are all different, over thirty days that
    are all different, and by a driver that never repeats an id, the slot
    collection holds exactly the slots the script generated and satisfies the
    unique index of the schema: no two slots of one doctor at one hospital
    share day and start time. *)
Theorem seedSlots_unique_index startDate docs g rest :
  (∀ i j, ids g i = ids g j → i = j) →
  NoDup docs.*1 →
  (∀ doc, doc ∈ docs → (0 ≤ Doctor.appointmentDuration doc.2)%Z) →
  NoDup ((λ day, startOfDay (addDays startDate day)) <$> seqZ 0 30) →
  let seeded := (Seed.seedSlots startDate docs g).1 in
  (map_to_list seeded).*2 ≡ₚ Seed.generateSlots startDate docs
  ∧ uniqueSlots (setAppointmentSlots seeded rest).
Proof.
  intros Hinj Hdocs Hdur Hdays seeded.
  pose proof (seedSlots_stored startDate docs g Hinj) as Hstored.
  split; [done|]. apply uniqueSlots_of_keys. subst seeded. rewrite Hstored.
  by apply NoDup_slotKey_generateSlots.
Qed.

End SeedStore.


(** ** Listing appointments *)

Section ListingFacts.
Context `{P : Platform}.

Lemma insertNewestFirst_perm a l : insertNewestFirst a l ≡ₚ a :: l.
Proof.
  induction l as [|b l IH]; simpl; [done|].
  case_decide; [done|]. rewrite IH. apply Permutation_swap.
Qed.

Lemma sortNewestFirst_perm l : sortNewestFirst l ≡ₚ l.
Proof.
  induction l as [|a l IH]; simpl; [done|].
  by rewrite insertNewestFirst_perm, IH.
Qed.

Lemma insertNewestFirst_sorted a l :
  StronglySorted newerFirst l → StronglySorted newerFirst (insertNewestFirst a l).
Proof.
  induction 1 as [|b l Hl IH Hb]; simpl; [by repeat constructor|].
  case_decide as Hle.
  - constructor; [by constructor|]. constructor; [done|].
    eapply Forall_impl; [exact Hb|]. unfold newerFirst. intros x Hx. lia.
  - constructor; [done|].
    rewrite insertNewestFirst_perm. constructor; [|done]. unfold newerFirst. lia.
Qed.

Lemma sortNewestFirst_sorted l : StronglySorted newerFirst (sortNewestFirst l).
Proof.
  induction l as [|a l IH]; simpl; [constructor|]. by apply insertNewestFirst_sorted.
Qed.

(** The insertion is stable: among appointments created at the same instant
    the one inserted comes first. *)
Lemma insertNewestFirst_stable t a l :
  filter (λ x, Appointment.createdAt x = t) (insertNewestFirst a l)
  = filter (λ x, Appointment.createdAt x = t) (a :: l).
Proof.
  induction l as [|b l IH]; simpl; [done|].
  case_decide as Hle; [done|].
  rewrite filter_cons, IH, !(filter_cons _ a), !(filter_cons _ b).
  repeat case_decide; try done; lia.
Qed.

Lemma sortNewestFirst_stable t l :
  filter (λ x, Appointment.createdAt x = t) (sortNewestFirst l)
  = filter (λ x, Appointment.createdAt x = t) l.
Proof.
  induction l as [|a l IH]; simpl; [done|].
  rewrite insertNewestFirst_stable, !filter_cons, IH. done.
Qed.

Lemma elem_of_filterByStatus status l apt :
  apt ∈ filterByStatus status l
  ↔ apt ∈ l ∧ (status = "" ∨ statusName (Appointment.status apt) = status).
Proof.
  unfold filterByStatus, falsy. case_bool_decide as Hs.
  - intuition.
  - rewrite list_elem_of_filter. intuition.
Qed.

Lemma elem_of_filterFromDate fromDate l apt :
  apt ∈ filterFromDate fromDate l
  ↔ apt ∈ l ∧ (fromDate = ""
               ∨ ∃ from, parseDate fromDate = Some from
                         ∧ (from ≤ Appointment.appointmentDate apt)%Z).
Proof.
  unfold filterFromDate, falsy. case_bool_decide as Hs; [intuition|].
  destruct (parseDate fromDate) as [from|].
  - rewrite list_elem_of_filter. split.
    + intros [? ?]. split; [done|]. right. by exists from.
    + intros [? [?|(from' & [= <-] & ?)]]; done.
  - rewrite elem_of_nil. split; [done|].
    intros [_ [?|(from' & [=] & _)]]. done.
Qed.

Lemma elem_of_filterToDate toDate l apt :
  apt ∈ filterToDate toDate l
  ↔ apt ∈ l ∧ (toDate = ""
               ∨ ∃ to, parseDate toDate = Some to
                       ∧ (Appointment.appointmentDate apt ≤ to)%Z).
Proof.
  unfold filterToDate, falsy. case_bool_decide as Hs; [intuition|].
  destruct (parseDate toDate) as [to|].
  - rewrite list_elem_of_filter. split.
    + intros [? ?]. split; [done|]. right. by exists to.
    + intros [? [?|(to' & [= <-] & ?)]]; done.
  - rewrite elem_of_nil. split; [done|].
    intros [_ [?|(to' & [=] & _)]]. done.
Qed.

Lemma elem_of_matchingAppointments q l apt :
  apt ∈ matchingAppointments q l ↔ apt ∈ l ∧ matchesQuery q apt.
Proof.
  unfold matchingAppointments, matchesQuery. rewrite sortNewestFirst_perm.
  rewrite elem_of_filterToDate, elem_of_filterFromDate, elem_of_filterByStatus.
  intuition.
Qed.

(** For a page from 1 on and a limit that is not negative, the slice is the
    window a reader expects. *)
Lemma jsSlice_window {A} (l : list A) (skip limit : Z) :
  (0 ≤ skip)%Z → (0 ≤ limit)%Z →
  jsSlice l skip (skip + limit) = take (Z.to_nat limit) (drop (Z.to_nat skip) l).
Proof.
  intros Hskip Hlimit. unfold jsSlice.
  rewrite !decide_False by lia.
  destruct (decide (Z.of_nat (length l) ≤ skip)%Z) as [Hge|Hlt].
  - rewrite (drop_ge l (Z.to_nat skip)) by lia.
    rewrite (Z.min_r skip) by lia.
    by rewrite Nat2Z.id, drop_all, !take_nil.
  - rewrite (Z.min_l skip) by lia.
    destruct (decide (skip + limit ≤ Z.of_nat (length l))%Z) as [Hin|Hout].
    + rewrite Z.min_l by lia. f_equal. lia.
    + rewrite Z.min_r by lia.
      rewrite !take_ge; [done|rewrite length_drop; lia..].
Qed.

End ListingFacts.

Section ListingPages.
Context `{P : Platform}.

Lemma StronglySorted_sublist {A} (R : relation A) (l k : list A) :
  l `sublist_of` k → StronglySorted R k → StronglySorted R l.
Proof.
  induction 1 as [|x l k Hsub IH|x l k Hsub IH]; intros Hk; [done|..].
  - apply StronglySorted_inv in Hk as [Hk Hx].
    constructor; [by apply IH|].
    rewrite Forall_forall in Hx |- *. intros y Hy. apply Hx.
    by eapply elem_of_sublist.
  - apply StronglySorted_inv in Hk as [Hk _]. by apply IH.
Qed.

Lemma filter_sublist_mono {A} (Q : A → Prop) `{!∀ x, Decision (Q x)} (l k : list A) :
  l `sublist_of` k → filter Q l `sublist_of` filter Q k.
Proof.
  induction 1 as [|x l k Hsub IH|x l k Hsub IH]; [done|..];
    rewrite ?filter_cons; repeat case_decide;
    by (try apply sublist_skip; try apply sublist_cons).
Qed.

Lemma jsSlice_sublist {A} (l : list A) (start end_ : Z) :
  jsSlice l start end_ `sublist_of` l.
Proof.
  unfold jsSlice. etrans; [apply sublist_take|apply sublist_drop].
Qed.

Lemma matchingAppointments_sublist_at t q l :
  filter (λ x, Appointment.createdAt x = t) (matchingAppointments q l) `sublist_of` l.
Proof.
  unfold matchingAppointments. rewrite sortNewestFirst_stable.
  etrans; [apply sublist_filter|].
  unfold filterToDate, filterFromDate, filterByStatus.
  repeat first [ case_match | etrans; [apply sublist_filter|] | apply sublist_nil_l | done ].
Qed.

Lemma pageOf_sublist db userId q user :
  users db !! userId = Some user →
  pageOf db userId q `sublist_of` matchingAppointments q (User.appointments user).
Proof.
  intros Hu. unfold pageOf, getAppointments. rewrite Hu. apply jsSlice_sublist.
Qed.

Lemma pageOf_missing db userId q :
  users db !! userId = None → pageOf db userId q = [].
Proof. intros Hu. unfold pageOf, getAppointments. by rewrite Hu. Qed.

(** X7: whatever [page] and [limit] are, an appointment that [getAppointments]
    shows belongs to the ledger of the patient who asks and passes the three
    filters of the query. *)
Theorem getAppointments_sound db userId q apt :
  apt ∈ pageOf db userId q →
  ∃ user, users db !! userId = Some user
          ∧ apt ∈ User.appointments user ∧ matchesQuery q apt.
Proof.
  intros Hin. destruct (users db !! userId) as [user|] eqn:Hu.
  - exists user. split; [done|]. apply elem_of_matchingAppointments.
    eapply elem_of_sublist; [exact Hin|]. by apply pageOf_sublist.
  - rewrite pageOf_missing in Hin by done. by apply elem_of_nil in Hin.
Qed.

(** X8: every page is sorted newest first, and appointments created at the
    same instant keep the order they have in the ledger. *)
Theorem getAppointments_order db userId q user t :
  users db !! userId = Some user →
  StronglySorted newerFirst (pageOf db userId q)
  ∧ filter (λ x, Appointment.createdAt x = t) (pageOf db userId q)
      `sublist_of` User.appointments user.
Proof.
  intros Hu. pose proof (pageOf_sublist db userId q user Hu) as Hsub. split.
  - eapply StronglySorted_sublist; [exact Hsub|]. apply sortNewestFirst_sorted.
  - etrans; [|apply (matchingAppointments_sublist_at t q)].
    by apply filter_sublist_mono.
Qed.

End ListingPages.

(** ** Pages *)

Section ListingCover.
Context `{P : Platform}.

Lemma pages_join {A} (l : list A) (n k : nat) :
  mjoin ((λ i, take n (drop (i * n) l)) <$> seq 0 k) = take (k * n) l.
Proof.
  induction k as [|k IH]; [done|].
  rewrite seq_S, fmap_app, join_app, IH. simpl. rewrite app_nil_r.
  rewrite take_take_drop. f_equal. lia.
Qed.

Lemma ceilDiv_covers (a b : Z) : (0 < b)%Z → (a ≤ ceilDiv a b * b)%Z.
Proof.
  intros Hb. unfold ceilDiv. pose proof (Z.mul_div_le (- a) b Hb). lia.
Qed.

Lemma ceilDiv_nonneg (a b : Z) : (0 ≤ a)%Z → (0 < b)%Z → (0 ≤ ceilDiv a b)%Z.
Proof.
  intros Ha Hb. unfold ceilDiv.
  assert ((- a) `div` b ≤ 0)%Z; [|lia].
  apply Z.div_le_upper_bound; lia.
Qed.

Lemma matchingAppointments_withPage p q l :
  matchingAppointments (withPage p q) l = matchingAppointments q l.
Proof. done. Qed.

Lemma pageOf_window db userId q user :
  users db !! userId = Some user → (1 ≤ q_page q)%Z → (0 ≤ q_limit q)%Z →
  pageOf db userId q
  = take (Z.to_nat (q_limit q))
      (drop (Z.to_nat (q_page q - 1) * Z.to_nat (q_limit q))
         (matchingAppointments q (User.appointments user))).
Proof.
  intros Hu Hp Hl. unfold pageOf, getAppointments. rewrite Hu.
  rewrite jsSlice_window by nia. by rewrite Z2Nat.inj_mul by lia.
Qed.

(** X9: when [limit] is an integer numeral of at least 1, so that
    [parseInt] and the division read the same number, the answer reports a
    number of pages, and the pages from 1 to that number, one after the
    other, are exactly the appointments that match: none is skipped and none
    is shown twice. *)
Theorem getAppointments_pages_cover db userId q user :
  users db !! userId = Some user →
  q_limitNumber q = IntegerLimit (q_limit q) → (1 ≤ q_limit q)%Z →
  ∃ pages,
    pg_pages <$> paginationOf db userId q = Some (Some pages)
    ∧ mjoin ((λ p, pageOf db userId (withPage p q)) <$> seqZ 1 pages)
      = matchingAppointments q (User.appointments user).
Proof.
  intros Hu Hint Hl.
  set (m := matchingAppointments q (User.appointments user)).
  exists (ceilDiv (Z.of_nat (length m)) (q_limit q)). split.
  - unfold paginationOf, getAppointments. rewrite Hu. simpl.
    rewrite Hint. simpl. by rewrite decide_False by lia.
  - unfold seqZ. rewrite <- list_fmap_compose.
    erewrite (list_fmap_ext _ (λ i, take (Z.to_nat (q_limit q))
                                    (drop (i * Z.to_nat (q_limit q)) m))).
    2:{ intros i x _. simpl. rewrite (pageOf_window _ _ _ user) by (simpl; lia || done).
        simpl. rewrite matchingAppointments_withPage. fold m.
        do 3 f_equal. lia. }
    rewrite pages_join. apply take_ge.
    pose proof (ceilDiv_covers (Z.of_nat (length m)) (q_limit q)).
    pose proof (ceilDiv_nonneg (Z.of_nat (length m)) (q_limit q)).
    nia.
Qed.

(** With a limit that is not an integer numeral the pages need not cover the
    list: for [?limit=1.5] and three appointments the answer reports two
    pages of one appointment each. *)
Example getAppointments_fraction_limit :
  users Sample.threeConfirmed !! Demo.P1
  = Some (User.mk "p1@example.com"
            [Demo.appointmentIn Demo.A1 confirmed; Demo.appointmentIn Demo.A2 confirmed;
             Demo.appointmentIn Sample.A3 confirmed])
  ∧ pg_pages <$> paginationOf Sample.threeConfirmed Demo.P1 Sample.fractionLimit
    = Some (Some 2%Z)
  ∧ length (mjoin ((λ p, pageOf Sample.threeConfirmed Demo.P1
                           (withPage p Sample.fractionLimit)) <$> seqZ 1 2))
    = 2%nat.
Proof. vm_compute. repeat split; reflexivity. Qed.

Lemma matchingAppointments_bad_date q l :
  (q_fromDate q ≠ "" ∧ parseDate (q_fromDate q) = None)
  ∨ (q_toDate q ≠ "" ∧ parseDate (q_toDate q) = None) →
  matchingAppointments q l = [].
Proof.
  unfold matchingAppointments, filterToDate, filterFromDate, falsy.
  intros [[Hne Hnone]|[Hne Hnone]]; rewrite Hnone, (bool_decide_eq_false_2 _ Hne).
  - by repeat case_match.
  - done.
Qed.

(** X10: a date filter that does not parse is not refused: the request
    succeeds and shows no appointment, with a total of 0, whatever the
    ledger holds. *)
Theorem getAppointments_bad_date db userId q user :
  users db !! userId = Some user →
  (q_fromDate q ≠ "" ∧ parseDate (q_fromDate q) = None)
  ∨ (q_toDate q ≠ "" ∧ parseDate (q_toDate q) = None) →
  ∃ page, getAppointments db userId q = Ok 200 "" page
          ∧ page_appointments page = []
          ∧ pg_total (page_pagination page) = 0%Z.
Proof.
  intros Hu Hbad. unfold getAppointments. rewrite Hu.
  rewrite matchingAppointments_bad_date by done.
  eexists. split; [done|]. simpl. split; [|done].
  unfold jsSlice. by rewrite drop_nil, take_nil.
Qed.

(** X11: page 0 and limit 0 are accepted too; either shows an empty page
    while the total still counts every match. *)
Theorem getAppointments_empty_page db userId q user :
  users db !! userId = Some user → q_page q = 0%Z ∨ q_limit q = 0%Z →
  ∃ page, getAppointments db userId q = Ok 200 "" page
          ∧ page_appointments page = []
          ∧ pg_total (page_pagination page)
            = Z.of_nat (length (matchingAppointments q (User.appointments user))).
Proof.
  intros Hu Hz. unfold getAppointments. rewrite Hu.
  eexists. split; [done|]. simpl. split; [|done].
  unfold jsSlice. replace (Z.to_nat _) with 0%nat; [done|].
  repeat case_decide; lia.
Qed.

End ListingCover.

(** ** The free slots of a day *)

Section AvailabilityFacts.
Context `{P : Platform}.

Lemma availableQuery_true doctorId hospitalId lo hi s :
  availableQuery doctorId hospitalId lo hi s = true ↔
  AppointmentSlot.doctor s = doctorId ∧ AppointmentSlot.hospital s = hospitalId
  ∧ (lo ≤ AppointmentSlot.date s ≤ hi)%Z
  ∧ AppointmentSlot.isAvailable s = true ∧ AppointmentSlot.isBooked s = false.
Proof.
  unfold availableQuery. rewrite !andb_true_iff, !bool_decide_eq_true. tauto.
Qed.

#[local] Instance byStartTime_total : Total byStartTime.
Proof. intros s1 s2. apply String.le_total. Qed.

#[local] Instance byStartTime_trans : Transitive byStartTime.
Proof. intros s1 s2 s3. unfold byStartTime. apply transitivity. Qed.

Lemma findSortedByStartTime_perm q slots :
  findSortedByStartTime q slots ≡ₚ filter (λ s, q s = true) (map_to_list slots).*2.
Proof. apply merge_sort_Permutation. Qed.

Lemma findSortedByStartTime_sorted q slots :
  StronglySorted byStartTime (findSortedByStartTime q slots).
Proof. apply (StronglySorted_merge_sort byStartTime); apply _. Qed.

Lemma elem_of_findSortedByStartTime q slots s :
  s ∈ findSortedByStartTime q slots ↔ (∃ id, slots !! id = Some s) ∧ q s = true.
Proof.
  rewrite findSortedByStartTime_perm, list_elem_of_filter, list_elem_of_fmap.
  split.
  - intros [Hq ([id s'] & -> & Hin)]. apply elem_of_map_to_list in Hin. eauto.
  - intros [[id Hid] Hq]. split; [done|]. exists (id, s). split; [done|].
    by apply elem_of_map_to_list.
Qed.

Variable endOfDay : Z → Z.

Lemma getAvailableSlots_Ok db doctorId hospitalId date d :
  isValid doctorId = true → isValid hospitalId = true → parseDate date = Some d →
  ∃ defaultDuration,
    defaultDuration ≠ 0%Z
    ∧ getAvailableSlots endOfDay db doctorId hospitalId date
      = let slots :=
          findSortedByStartTime
            (availableQuery doctorId hospitalId (startOfDay d) (endOfDay (startOfDay d)))
            (appointmentSlots db) in
        Ok 200 "" (formatSlot defaultDuration <$> slots, length slots).
Proof.
  intros Hd Hh Hdate. unfold getAvailableSlots. rewrite Hd, Hh, Hdate. simpl.
  eexists. split; [|by rewrite length_fmap].
  destruct (doctors db !! doctorId) as [doctor|]; [|done].
  unfold durationOrDefault. by case_decide.
Qed.

Lemma getAvailableSlots_Ok_inv db doctorId hospitalId date code message body :
  getAvailableSlots endOfDay db doctorId hospitalId date = Ok code message body →
  isValid doctorId = true ∧ isValid hospitalId = true ∧ is_Some (parseDate date).
Proof.
  unfold getAvailableSlots.
  destruct (isValid doctorId), (isValid hospitalId); try done.
  destruct (parseDate date); [eauto|done].
Qed.

(** X12: for valid ids and a date that parses, [getAvailableSlots] answers
    200 with the slots of that doctor at that hospital whose date lies in the
    day and which are available and not booked: all of them and no other,
    in the order of their start times, and [count] is their number. *)
Theorem getAvailableSlots_lists_free_slots db doctorId hospitalId date d :
  isValid doctorId = true → isValid hospitalId = true → parseDate date = Some d →
  ∃ defaultDuration slots,
    getAvailableSlots endOfDay db doctorId hospitalId date
      = Ok 200 "" (formatSlot defaultDuration <$> slots, length slots)
    ∧ StronglySorted byStartTime slots
    ∧ ∀ s, s ∈ slots ↔
        (∃ id, appointmentSlots db !! id = Some s)
        ∧ AppointmentSlot.doctor s = doctorId
        ∧ AppointmentSlot.hospital s = hospitalId
        ∧ (startOfDay d ≤ AppointmentSlot.date s ≤ endOfDay (startOfDay d))%Z
        ∧ AppointmentSlot.isAvailable s = true
        ∧ AppointmentSlot.isBooked s = false.
Proof.
  intros Hd Hh Hdate.
  destruct (getAvailableSlots_Ok db doctorId hospitalId date d Hd Hh Hdate)
    as (dd & _ & ->).
  eexists dd, _. split; [done|]. split; [apply findSortedByStartTime_sorted|].
  intros s. by rewrite elem_of_findSortedByStartTime, availableQuery_true.
Qed.

(** X13: whatever the answer lists is shown as available and not booked,
    never with a duration of 0 (a slot without one takes the doctor's, or 30
    minutes), and [count] is the length of the list. *)
Theorem getAvailableSlots_views db doctorId hospitalId date code message views count :
  getAvailableSlots endOfDay db doctorId hospitalId date
    = Ok code message (views, count) →
  count = length views
  ∧ ∀ v, v ∈ views →
      sv_isAvailable v = true ∧ sv_isBooked v = false ∧ sv_duration v ≠ 0%Z.
Proof.
  intros Hok.
  destruct (getAvailableSlots_Ok_inv _ _ _ _ _ _ _ Hok) as (Hd & Hh & [d Hdate]).
  destruct (getAvailableSlots_Ok db doctorId hospitalId date d Hd Hh Hdate)
    as (dd & Hdd & Heq).
  rewrite Heq in Hok. cbv zeta in Hok. injection Hok as _ _ <- <-.
  split; [by rewrite length_fmap|].
  intros v (s & -> & Hs)%list_elem_of_fmap.
  apply elem_of_findSortedByStartTime in Hs as [_ Hq].
  apply availableQuery_true in Hq as (_ & _ & _ & Ha & Hb).
  simpl. split; [done|]. split; [done|]. by case_decide.
Qed.

End AvailabilityFacts.

(** ** Booking, cancelling and the list of free slots *)

Section BookingAndListing.
Context `{P : Platform}.

Lemma validateAppointmentData_inl body date :
  validateAppointmentData body = inl date ↔
  req_hospitalId body ≠ "" ∧ req_departmentId body ≠ "" ∧ req_doctorId body ≠ ""
  ∧ req_appointmentDate body ≠ "" ∧ req_appointmentTime body ≠ ""
  ∧ isValid (req_hospitalId body) = true ∧ isValid (req_departmentId body) = true
  ∧ isValid (req_doctorId body) = true
  ∧ parseDate (req_appointmentDate body) = Some date
  ∧ isTimeHHMM (req_appointmentTime body) = true.
Proof.
  unfold validateAppointmentData, falsy.
  repeat case_bool_decide; simpl; try (split; [done|tauto]).
  destruct (isValid (req_hospitalId body)), (isValid (req_departmentId body)),
    (isValid (req_doctorId body)); simpl; try (split; [done|intuition congruence]).
  destruct (parseDate (req_appointmentDate body)) as [date'|];
    [|split; [done|intuition congruence]].
  destruct (isTimeHHMM (req_appointmentTime body)); simpl;
    [|split; [done|intuition congruence]].
  split; [intros [= ->]; tauto|]. intros (_ & _ & _ & _ & _ & _ & _ & _ & [= ->] & _). done.
Qed.

Lemma map_to_list_replace {A} (m : gmap ObjectId A) k x y :
  m !! k = Some x →
  ∃ rest, map_to_list m ≡ₚ (k, x) :: rest
          ∧ map_to_list (<[k := y]> m) ≡ₚ (k, y) :: rest.
Proof.
  intros Hk. exists (map_to_list (delete k m)). split.
  - symmetry. by apply map_to_list_delete.
  - rewrite <- insert_delete_eq. apply map_to_list_insert, lookup_delete_eq.
Qed.

Lemma findSortedByStartTime_claim q slots k (s s' : AppointmentSlot.t) :
  slots !! k = Some s → q s = true → q s' = false →
  findSortedByStartTime q slots ≡ₚ s :: findSortedByStartTime q (<[k := s']> slots).
Proof.
  intros Hk Hq Hq'. rewrite !findSortedByStartTime_perm.
  destruct (map_to_list_replace slots k s s' Hk) as (rest & -> & ->).
  rewrite !fmap_cons, !filter_cons. simpl.
  rewrite decide_True by done. rewrite decide_False by (by rewrite Hq'). done.
Qed.

(** A booking followed by the cancellation of the appointment it created:
    the database is the one before the booking, with the cancelled
    appointment at the end of the patient's ledger. *)
Lemma book_then_cancel_state db userId body now newId code message a user :
  slotsConsistent db →
  users db !! userId = Some user →
  (∀ b, b ∈ User.appointments user → Appointment._id b ≠ newId) →
  isValid newId = true →
  (addAppointment db userId body now newId).2 = Ok code message a →
  cancelAppointment (addAppointment db userId body now newId).1 userId newId
  = (setUsers
       (<[userId := User.setAppointments
            (User.appointments user ++ [Appointment.setStatus cancelled a])%list user]>
          (users db)) db,
     Ok 200 "Appointment cancelled successfully" tt).
Proof.
  intros Hcons Huser Hfresh Hvalid Hok.
  pose proof (addAppointment_cases db userId body now newId) as Hcases.
  cbv zeta in Hcases.
  destruct Hcases as [[_ Herr] | (date & user0 & doctor & hospital & slotId & slot
                                  & a0 & Hr & Hval & Hu & Hd & Hh & Hslot & Hq & Ha & Hdb)].
  { by rewrite Hok in Herr. }
  rewrite Hok in Hr. injection Hr as _ _ <-.
  rewrite Huser in Hu. injection Hu as <-.
  assert (Hfind : findAppointment newId (User.appointments user ++ [a])
                  = Some (length (User.appointments user), a)).
  { replace newId with (Appointment._id a) by (by rewrite Ha).
    apply findAppointment_pushed. by rewrite Ha. }
  assert (Hst : Appointment.status a ≠ cancelled) by (by rewrite Ha).
  assert (Hsid : Appointment.slotId a = Some slotId) by (by rewrite Ha).
  rewrite Hdb.
  match goal with
  | |- context [cancelAppointment ?d _ _] =>
      assert (Hu' : users d !! userId
                = Some (User.setAppointments (User.appointments user ++ [a])%list user))
        by (simpl; by rewrite lookup_insert_eq)
  end.
  rewrite (cancelAppointment_found _ _ _ _ _ _ Hvalid Hu' Hfind Hst), Hsid.
  f_equal. unfold setUsers, setAppointmentSlots. simpl. f_equal.
  - rewrite insert_insert_eq. f_equal.
    rewrite insert_app_r_alt, Nat.sub_diag by lia. done.
  - unfold releaseSlot. apply map_eq. intros k.
    rewrite lookup_alter. case_decide as Hk; [|by rewrite lookup_insert_ne].
    subst k. rewrite lookup_insert_eq, Hslot. simpl. f_equal.
    apply slotQuery_true in Hq as (_ & _ & _ & _ & Hav & Hbk).
    destruct (Hcons slotId slot Hslot) as [Hc1 Hc2].
    destruct slot as [d h dt st et du bk av by_]. simpl in *. subst.
    destruct by_ as [c|]; [|done].
    assert (false = true) by (apply Hc1; done). done.
Qed.


(** X15: after that cancellation the slot can be booked again: the same
    request from any registered patient is granted, for the same slot. *)
Theorem cancelled_slot_is_bookable db userId body now newId code message a user
    userId' now' newId' :
  slotsConsistent db →
  users db !! userId = Some user →
  (∀ b, b ∈ User.appointments user → Appointment._id b ≠ newId) →
  isValid newId = true →
  (addAppointment db userId body now newId).2 = Ok code message a →
  is_Some (users db !! userId') →
  let db2 :=
    (cancelAppointment (addAppointment db userId body now newId).1 userId newId).1 in
  ∃ a', (addAppointment db2 userId' body now' newId').2
        = Ok 201 "Appointment booked successfully! It will be completed in 1 minute." a'
        ∧ Appointment.slotId a' = Appointment.slotId a.
Proof.
  intros Hcons Huser Hfresh Hvalid Hok [user' Hu'] db2. subst db2.
  rewrite (book_then_cancel_state _ _ _ _ _ _ _ _ _ Hcons Huser Hfresh Hvalid Hok).
  unfold addAppointment in Hok |- *. simpl.
  destruct (validateAppointmentData body) as [date|]; [|done].
  rewrite Huser in Hok.
  assert (is_Some (<[userId := User.setAppointments
                       (User.appointments user ++ [Appointment.setStatus cancelled a])%list
                       user]> (users db) !! userId')) as [u2 ->].
  { rewrite lookup_insert. case_decide; eauto. }
  destruct (findOne _ _) as [[slotId slot]|]; [|done].
  destruct (doctors db !! _) as [doctor|]; [|done].
  destruct (hospitals db !! _) as [hospital|]; [|done].
  simpl in Hok. injection Hok as _ _ <-. eexists. split; [done|]. done.
Qed.

Variable endOfDay : Z → Z.

(** X16: a booking that is granted takes exactly one slot out of what
    [getAvailableSlots] lists for that doctor, hospital and day: the list
    before is the list after plus the slot that starts at the time asked
    for. *)
Theorem addAppointment_takes_slot_off_listing db userId body now newId code message a :
  (∀ t, (t ≤ endOfDay t)%Z) →
  (addAppointment db userId body now newId).2 = Ok code message a →
  ∃ defaultDuration before after slot,
    getAvailableSlots endOfDay db (req_doctorId body) (req_hospitalId body)
        (req_appointmentDate body)
      = Ok 200 "" (formatSlot defaultDuration <$> before, length before)
    ∧ getAvailableSlots endOfDay (addAppointment db userId body now newId).1
        (req_doctorId body) (req_hospitalId body) (req_appointmentDate body)
      = Ok 200 "" (formatSlot defaultDuration <$> after, length after)
    ∧ before ≡ₚ slot :: after
    ∧ AppointmentSlot.startTime slot = req_appointmentTime body.
Proof.
  intros Hend Hok.
  pose proof (addAppointment_cases db userId body now newId) as Hcases.
  cbv zeta in Hcases.
  destruct Hcases as [[_ Herr] | (date & user & doctor & hospital & slotId & slot
                                  & a0 & Hr & Hval & Hu & Hd & Hh & Hslot & Hq & Ha & Hdb)].
  { by rewrite Hok in Herr. }
  apply validateAppointmentData_inl in Hval
    as (_ & _ & _ & _ & _ & Hvh & _ & Hvd & Hdate & _).
  rewrite Hdb. unfold getAvailableSlots. simpl.
  rewrite Hvd, Hvh, Hdate, Hd. simpl.
  eexists _, _, _, slot. split; [by rewrite length_fmap|]. split; [by rewrite length_fmap|].
  apply slotQuery_true in Hq as (Hq1 & Hq2 & Hq3 & Hq4 & Hq5 & Hq6).
  split; [|done].
  apply findSortedByStartTime_claim; [done|..].
  - apply availableQuery_true. rewrite Hq3. specialize (Hend (startOfDay date)).
    repeat split; (done || lia).
  - apply not_true_is_false. intros (_ & _ & _ & _ & Hb)%availableQuery_true.
    done.
Qed.

End BookingAndListing.

(** ** Cancelling twice *)

Section CancelFacts.
Context `{P : Platform}.

Lemma findAppointment_replaced appointmentId l i a a' :
  findAppointment appointmentId l = Some (i, a) →
  Appointment._id a' = appointmentId →
  findAppointment appointmentId (<[i := a']> l) = Some (i, a').
Proof.
  intros (Hi & Hid & Hbefore)%findAppointment_Some Hid'.
  unfold findAppointment. apply list_find_Some.
  split; [|split; [done|]].
  - apply list_lookup_insert_eq. by eapply lookup_lt_Some.
  - intros j b Hj Hlt. rewrite list_lookup_insert_ne in Hj by lia.
    by eapply Hbefore.
Qed.

(** X17: a cancellation that went through cannot be repeated: the same
    request again is answered AlreadyCancelled and changes nothing. *)
Theorem cancelAppointment_twice db userId appointmentId code message :
  (cancelAppointment db userId appointmentId).2 = Ok code message tt →
  let db' := (cancelAppointment db userId appointmentId).1 in
  cancelAppointment db' userId appointmentId = (db', AlreadyCancelled).
Proof.
  intros Hok db'. subst db'.
  assert (Hvalid : isValid appointmentId = true).
  { unfold cancelAppointment in Hok. by destruct (isValid appointmentId). }
  pose proof (cancelAppointment_cases db userId appointmentId) as Hcases.
  cbv zeta in Hcases.
  destruct Hcases as [[_ Herr] | (user & i & a & Hu & Hfind & Hst & Hdb)].
  { by rewrite Hok in Herr. }
  rewrite Hdb. unfold cancelAppointment at 1. rewrite Hvalid. simpl.
  rewrite lookup_insert_eq. simpl.
  apply findAppointment_Some in Hfind as Hfound. destruct Hfound as (_ & Hid & _).
  rewrite (findAppointment_replaced _ _ _ a (Appointment.setStatus cancelled a) Hfind)
    by done.
  by rewrite decide_True by done.
Qed.

End CancelFacts.

(** ** What the generators write *)

Section PrescriptionContent.
Context `{P : Platform}.

Lemma pickRandom_elem arr g x g' :
  pickRandom arr g = (x, g') → arr ≠ [] → x ∈ arr.
Proof.
  unfold pickRandom. intros Hrun Hne. gen_step Hrun. gen_step Hrun.
  injection E as <- _. injection Hrun as <- _.
  assert (Hlt : (draws g (drawPos g) `mod` length arr < length arr)%nat).
  { apply Nat.mod_upper_bound. by destruct arr. }
  apply lookup_lt_is_Some in Hlt as [y Hy]. rewrite Hy. simpl.
  by eapply list_elem_of_lookup_2.
Qed.

Lemma generateDosage_dosageOf med g dosage g' :
  generateDosage (Medicine.strengths med) g = (dosage, g') → dosageOf med dosage.
Proof.
  unfold dosageOf, generateDosage. intros Hrun.
  destruct (Medicine.strengths med) as [|s strengths] eqn:Hs.
  - rewrite decide_True by done. by injection Hrun as <- _.
  - rewrite decide_False by done.
    gen_step Hrun. gen_step Hrun. gen_step Hrun. injection Hrun as <- _.
    exists x, x0. split; [by eapply pickRandom_elem|].
    split; [by eapply pickRandom_elem|done].
Qed.

Lemma mapM_Forall2 {A B} (f : A → Gen B) (R : A → B → Prop) l :
  (∀ x g y g', f x g = (y, g') → R x y) →
  ∀ g ys g', mapM f l g = (ys, g') → Forall2 R l ys.
Proof.
  intros Hf. induction l as [|x l IH]; intros g ys g' Hrun; simpl in Hrun.
  - injection Hrun as <- _. constructor.
  - gen_step Hrun. gen_step Hrun. gen_step Hrun. injection Hrun as <- _.
    constructor; [by eapply Hf | by eapply IH].
Qed.

Lemma service_medicationOf_prescribes med g m g' :
  AppointmentService.medicationOf med g = (m, g') →
  prescribes med m
  ∧ Prescription.frequency m = "As prescribed" ∧ Prescription.duration m = "7 days".
Proof.
  unfold AppointmentService.medicationOf. intros Hrun.
  gen_step Hrun. gen_step Hrun. injection Hrun as <- _.
  apply generateDosage_dosageOf in E. by repeat split.
Qed.

Lemma controller_medicationOf_prescribes med g m g' :
  PrescriptionController.medicationOf med g = (m, g') →
  prescribes med m
  ∧ Prescription.frequency m
    ∈ ["Take with food"; "Take on empty stomach"; "Take with plenty of water";
       "Take at bedtime"; "Take in the morning"; "Take with meals"]
  ∧ Prescription.duration m
    ∈ ["7 days"; "10 days"; "14 days"; "30 days"; "As needed"; "Until finished";
       "90 days"].
Proof.
  unfold PrescriptionController.medicationOf. intros Hrun.
  gen_step Hrun. gen_step Hrun. gen_step Hrun. gen_step Hrun.
  injection Hrun as <- _.
  apply generateDosage_dosageOf in E.
  apply pickRandom_elem in E0; [|done]. apply pickRandom_elem in E1; [|done].
  by repeat split.
Qed.

Lemma selected_medicines (all : list Medicine.t) seed r :
  (∀ l s, sortRandom l s ≡ₚ l) → all ≠ [] → (r < 3)%nat →
  let selected := take (r + 1) (sortRandom all seed) in
  selected ⊆+ all ∧ (1 ≤ length selected ≤ 3)%nat.
Proof.
  intros Hperm Hne Hr selected. subst selected. split.
  - rewrite <- (Hperm all seed) at 2. apply sublist_submseteq, sublist_take.
  - rewrite length_take. pose proof (Permutation_length (Hperm all seed)) as Hlen.
    destruct all; [done|]. simpl in Hlen. lia.
Qed.

Lemma generateDiagnosis_in_row neuro department row g x g' :
  diagnoses neuro department = Some row →
  generateDiagnosis neuro department g = (x, g') → x ∈ row.
Proof.
  unfold generateDiagnosis. intros Hrow Hrun. rewrite Hrow in Hrun. simpl in Hrun.
  eapply pickRandom_elem; [done|].
  unfold diagnoses in Hrow. repeat case_decide; by simplify_eq.
Qed.

(** X18: a prescription the service writes for an appointment copies the
    appointment's data, holds between one and three medication lines, each
    for a different active medicine of the catalog, taken "As prescribed" for
    "7 days" at a dosage built from that medicine's strengths, and a
    diagnosis from the row of the appointment's department when the table
    has one. *)
Theorem generatePrescription_content db a userId now g db' p g' :
  (∀ l seed, sortRandom l seed ≡ₚ l) →
  findPrescription (Appointment._id a) (prescriptions db) = None →
  AppointmentService.generatePrescription db a userId now g = (db', inl p, g') →
  writtenFor a userId now p
  ∧ (∃ selected,
       selected ⊆+ activeMedicines db
       ∧ (1 ≤ length selected ≤ 3)%nat
       ∧ Forall2 (λ med m, prescribes med m
                           ∧ Prescription.frequency m = "As prescribed"
                           ∧ Prescription.duration m = "7 days")
           selected (Prescription.medications p))
  ∧ (∀ row, diagnoses "Neurophy" (Appointment.department a) = Some row →
       Prescription.diagnosis p ∈ row).
Proof.
  intros Hperm Hnone Hrun.
  unfold AppointmentService.generatePrescription in Hrun. rewrite Hnone in Hrun.
  gen_step Hrun. injection E as <- _.
  case_decide as Hmeds; [by gen_step Hrun|].
  gen_step Hrun. gen_step Hrun. gen_step Hrun. gen_step Hrun.
  destruct (savePrescription _ _) as [ps|]; gen_step Hrun; [|done].
  injection Hrun as _ <- _. simpl.
  split; [by repeat split|]. split.
  - eexists. split; [|split].
    + eapply selected_medicines; [done| |by apply Nat.mod_upper_bound].
      intros Hnil. by rewrite Hnil in Hmeds.
    + eapply selected_medicines; [done| |by apply Nat.mod_upper_bound].
      intros Hnil. by rewrite Hnil in Hmeds.
    + eapply mapM_Forall2; [|exact E0]. intros. by eapply service_medicationOf_prescribes.
  - intros row Hrow. by eapply generateDiagnosis_in_row.
Qed.

(** X19: the prescription the manual endpoint answers with has the same
    shape, with the frequency and the duration of every line drawn from the
    endpoint's own lists. *)
Theorem generatePrescriptionForAppointment_content db userId appointmentId now g
    db' code message p g' :
  (∀ l seed, sortRandom l seed ≡ₚ l) →
  PrescriptionController.generatePrescriptionForAppointment db userId
    appointmentId now g = (db', Ok code message p, g') →
  ∃ user i a,
    users db !! userId = Some user
    ∧ findAppointment appointmentId (User.appointments user) = Some (i, a)
    ∧ writtenFor a userId now p
    ∧ (∃ selected,
         selected ⊆+ activeMedicines db
         ∧ (1 ≤ length selected ≤ 3)%nat
         ∧ Forall2 (λ med m, prescribes med m
                             ∧ Prescription.frequency m
                               ∈ ["Take with food"; "Take on empty stomach";
                                  "Take with plenty of water"; "Take at bedtime";
                                  "Take in the morning"; "Take with meals"]
                             ∧ Prescription.duration m
                               ∈ ["7 days"; "10 days"; "14 days"; "30 days";
                                  "As needed"; "Until finished"; "90 days"])
             selected (Prescription.medications p))
    ∧ (∀ row, diagnoses "Neuropathy" (Appointment.department a) = Some row →
         Prescription.diagnosis p ∈ row).
Proof.
  intros Hperm Hrun.
  unfold PrescriptionController.generatePrescriptionForAppointment in Hrun.
  destruct (negb (isValid appointmentId)); [by gen_step Hrun|].
  destruct (users db !! userId) as [user|] eqn:Hu; [|by gen_step Hrun].
  destruct (findAppointment _ _) as [[i a]|] eqn:Hfind; [|by gen_step Hrun].
  destruct (negb _ && negb _); [by gen_step Hrun|].
  destruct (findPrescription _ _) as [existing|] eqn:Hnone; [by gen_step Hrun|].
  gen_step Hrun. injection E as <- _.
  case_decide as Hmeds; [by gen_step Hrun|].
  gen_step Hrun. gen_step Hrun. gen_step Hrun. gen_step Hrun. gen_step Hrun.
  gen_step Hrun.
  destruct (savePrescription _ _) as [ps|]; gen_step Hrun; [|done].
  injection Hrun as _ _ _ <- _. simpl.
  apply findAppointment_Some in Hfind as Hfound. destruct Hfound as (_ & Hid & _).
  exists user, i, a. split; [done|]. split; [done|].
  split; [by repeat split|]. split.
  - eexists. split; [|split].
    + eapply selected_medicines; [done| |by apply Nat.mod_upper_bound].
      intros Hnil. by rewrite Hnil in Hmeds.
    + eapply selected_medicines; [done| |by apply Nat.mod_upper_bound].
      intros Hnil. by rewrite Hnil in Hmeds.
    + eapply mapM_Forall2; [|exact E0]. intros.
      by eapply controller_medicationOf_prescribes.
  - intros row Hrow. by eapply generateDiagnosis_in_row.
Qed.

End PrescriptionContent.

(** ** What the sweep counts *)

Section SweepCount.
Context `{P : Platform}.

Lemma expireLedger_count userId now l : ∀ db g db' l' n g',
  AppointmentService.expireLedger db userId now l g = (db', l', n, g') →
  n = confirmedIn l.
Proof.
  unfold confirmedIn.
  induction l as [|a l IH]; intros db g db' l' n g' Hrun; simpl in Hrun.
  { by injection Hrun as _ _ <- _. }
  rewrite filter_cons. case_decide as Hst.
  - gen_step Hrun. destruct x as [db1 a1].
    gen_step Hrun. destruct x as [[db2 rest'] m]. injection Hrun as _ _ <- _.
    simpl. f_equal. by eapply IH.
  - gen_step Hrun. destruct x as [[db2 rest'] m]. injection Hrun as _ _ <- _.
    by eapply IH.
Qed.

Lemma sweepUsers_count storage now todo : ∀ db count g db' r g',
  (∀ uid, storage uid = true) →
  AppointmentService.sweepUsers storage now todo db count g = (db', r, g') →
  r = inl (count
           + sum_list ((λ kv, confirmedIn (User.appointments kv.2)) <$> todo))%nat.
Proof.
  induction todo as [|[uid u] todo IH]; intros db count g db' r g' Hstore Hrun;
    simpl in Hrun.
  { injection Hrun as _ <- _. simpl. f_equal. lia. }
  gen_step Hrun. destruct x as [[db1 appts] n].
  apply expireLedger_count in E. simpl. rewrite <- E.
  case_decide as Hn.
  - apply IH in Hrun; [|done]. rewrite Hrun, Hn. done.
  - rewrite Hstore in Hrun. apply IH in Hrun; [|done]. rewrite Hrun. f_equal. by rewrite <- Nat.add_assoc.
Qed.

Lemma filter_none {A} (Q : A → Prop) `{!∀ x, Decision (Q x)} (l : list A) :
  (∀ x, x ∈ l → ¬ Q x) → filter Q l = [].
Proof.
  intros Hnone. destruct (filter Q l) as [|x k] eqn:Hf; [done|].
  assert (Hx : x ∈ filter Q l) by (rewrite Hf; left).
  apply list_elem_of_filter in Hx as [HQ Hin]. by destruct (Hnone x Hin).
Qed.

Lemma confirmedIn_zero u :
  AppointmentService.hasConfirmed u ≠ true → confirmedIn (User.appointments u) = 0%nat.
Proof.
  intros Hnone. unfold confirmedIn.
  rewrite filter_none; [done|]. by apply hasConfirmed_false.
Qed.

Lemma sum_list_filter_zero {A} (f : A → nat) (Q : A → Prop)
    `{!∀ x, Decision (Q x)} (l : list A) :
  (∀ x, ¬ Q x → f x = 0%nat) → sum_list (f <$> filter Q l) = sum_list (f <$> l).
Proof.
  intros Hzero. induction l as [|x l IH]; [done|].
  rewrite filter_cons. case_decide as Hx; rewrite !fmap_cons; simpl;
    rewrite IH; [done|]. by rewrite (Hzero x Hx).
Qed.

(** X20: when every ledger can be saved, the number [expireAppointments]
    returns is the number of confirmed appointments the patients held,
    whether or not a prescription could be written for them. *)
Theorem expireAppointments_counts_confirmed storage now db g :
  (∀ uid, storage uid = true) →
  (AppointmentService.expireAppointments storage now db g).1.2
  = inl (confirmedTotal db).
Proof.
  intros Hstore. unfold AppointmentService.expireAppointments.
  destruct (AppointmentService.sweepUsers _ _ _ _ _ _) as [[db' r] g'] eqn:Hrun.
  apply sweepUsers_count in Hrun; [|done]. simpl. rewrite Hrun. f_equal.
  unfold confirmedTotal, AppointmentService.usersWithConfirmed. simpl.
  apply sum_list_filter_zero. intros [uid u] Hnone. by apply confirmedIn_zero.
Qed.

(** Without a confirmed appointment anywhere the sweep reads the users and
    does nothing else: it draws no random number and no id. *)
Lemma expireAppointments_idle storage now db g :
  (∀ uid u a, users db !! uid = Some u → a ∈ User.appointments u →
     Appointment.status a ≠ confirmed) →
  AppointmentService.expireAppointments storage now db g = (db, inl 0%nat, g).
Proof.
  intros Hnone. unfold AppointmentService.expireAppointments.
  assert (AppointmentService.usersWithConfirmed db = []) as ->; [|done].
  apply filter_none. intros [uid u] Hin%elem_of_map_to_list.
  simpl. unfold AppointmentService.hasConfirmed.
  intros (a & Ha%list_elem_of_In & Hst%bool_decide_eq_true)%existsb_exists.
  by eapply Hnone.
Qed.

Lemma expireAppointments_none_confirmed storage now db g :
  (∀ uid, storage uid = true) →
  let db' := (AppointmentService.expireAppointments storage now db g).1.1 in
  ∀ uid u' a', users db' !! uid = Some u' → a' ∈ User.appointments u' →
    Appointment.status a' ≠ confirmed.
Proof.
  intros Hstore db' uid u' a' Hu' Hin.
  destruct (expireAppointments_spec storage now db g)
    as (processed & remaining & Htodo & _ & Hproc & Hother & Hr).
  fold db' in Hproc, Hother.
  assert (remaining = []) as ->.
  { destruct ((AppointmentService.expireAppointments storage now db g).1.2);
      [done|].
    destruct Hr as (uid0 & u0 & rest & _ & Hfail). by rewrite Hstore in Hfail. }
  rewrite app_nil_r in Htodo. subst processed.
  destruct (decide (uid ∈ (AppointmentService.usersWithConfirmed db).*1)) as [Hp|Hp].
  - apply list_elem_of_fmap in Hp as ([uid0 u] & -> & Hp). simpl in Hu'.
    destruct (Hproc _ _ Hp) as (l' & Hl' & Hall).
    rewrite Hu' in Hl'. injection Hl' as ->. by eapply swept_no_confirmed.
  - rewrite (Hother _ Hp) in Hu'.
    apply (hasConfirmed_false u'); [|done]. intros Hc. apply Hp.
    apply list_elem_of_fmap. exists (uid, u'). split; [done|].
    by apply elem_of_usersWithConfirmed.
Qed.

(** X21: a sweep that could save every ledger leaves nothing for the next
    one: run again, at any later time, [expireAppointments] returns 0 and
    changes neither the database nor the random source. *)
Theorem expireAppointments_twice storage now now' db g :
  (∀ uid, storage uid = true) →
  let out := AppointmentService.expireAppointments storage now db g in
  AppointmentService.expireAppointments storage now' out.1.1 out.2
  = (out.1.1, inl 0%nat, out.2).
Proof.
  intros Hstore out. apply expireAppointments_idle.
  by apply expireAppointments_none_confirmed.
Qed.

End SweepCount.

(** ** Locations *)

Section LocationFacts.
Variable trim : string → string.

(** X22: [getLocations] shows every location of a hospital that is not
    blank, once each, but [count] counts the blank ones too: it is never
    below the number of locations shown, and above it as soon as one
    hospital has a blank location. *)
Theorem getLocations_count db :
  let shown := (getLocations trim db).1 in
  let count := (getLocations trim db).2 in
  NoDup shown
  ∧ (∀ loc, loc ∈ shown ↔
       (∃ id h, hospitals db !! id = Some h ∧ Hospital.location h = loc)
       ∧ loc ≠ "" ∧ trim loc ≠ "")
  ∧ (length shown ≤ count)%nat
  ∧ ((∃ id h, hospitals db !! id = Some h
              ∧ (Hospital.location h = "" ∨ trim (Hospital.location h) = "")) →
     (length shown < count)%nat).
Proof.
  intros shown count. subst shown count. unfold getLocations. simpl.
  assert (Hin : ∀ loc, loc ∈ distinctLocations db ↔
            ∃ id h, hospitals db !! id = Some h ∧ Hospital.location h = loc).
  { intros loc. unfold distinctLocations.
    rewrite elem_of_remove_dups, list_elem_of_fmap. split.
    - intros (h & -> & ([id h'] & -> & Hh%elem_of_map_to_list)%list_elem_of_fmap).
      by exists id, h'.
    - intros (id & h & Hh & <-). exists h. split; [done|].
      apply list_elem_of_fmap. exists (id, h). split; [done|].
      by apply elem_of_map_to_list. }
  assert (Hshow : ∀ loc, negb (falsy loc) && negb (falsy (trim loc)) = true
                         ↔ loc ≠ "" ∧ trim loc ≠ "").
  { intros loc. unfold falsy.
    rewrite andb_true_iff, !negb_true_iff, !bool_decide_eq_false. done. }
  split; [apply NoDup_filter, NoDup_remove_dups|]. split; [|split].
  - intros loc. rewrite list_elem_of_filter, Hshow, Hin. tauto.
  - apply length_filter.
  - intros (id & h & Hh & Hblank).
    apply (length_filter_lt _ _ (Hospital.location h)).
    + apply Hin. by exists id, h.
    + rewrite Hshow. tauto.
Qed.

End LocationFacts.

(** ** The scheduler *)

Section SchedulerFacts.
Import AppointmentScheduler.

(** What holds of the scheduler whatever was called on it: the handle it
    keeps is that of a live interval, handles are never reused, and no
    interval is set twice. *)
Lemma run_invariant calls :
  let s := run calls in
  (∀ h, interval s = Some h → h ∈ intervals s)
  ∧ (∀ h, h ∈ intervals s → (h < nextHandle s)%nat)
  ∧ NoDup (intervals s).
Proof.
  unfold run. induction calls as [|c calls IH] using rev_ind; simpl.
  { split; [done|]. split; [by intros h ?%elem_of_nil|constructor]. }
  rewrite foldl_app. simpl. set (s := foldl runCall new calls) in *.
  destruct IH as (Hkept & Hfresh & Hnd). destruct c; simpl.
  - split; [|split].
    + intros h [= <-]. left.
    + intros h [->|Hin%Hfresh]%elem_of_cons; lia.
    + constructor; [|done]. intros Hin%Hfresh. lia.
  - unfold stop. destruct (interval s) as [h|] eqn:Hint; simpl;
      [|by rewrite Hint; split_and!].
    split; [done|]. split.
    + intros h' [_ Hin]%list_elem_of_filter. by apply Hfresh.
    + by apply NoDup_filter.
Qed.

Lemma filter_ne_fresh (l : list nat) (h : nat) :
  h ∉ l → filter (λ x, x ≠ h) l = l.
Proof.
  induction l as [|x l IH]; [done|]. intros [Hne Hnin]%not_elem_of_cons.
  rewrite filter_cons, decide_True by done. by rewrite IH.
Qed.

(** X23: whatever was called before, [stop()] after [start()] clears the
    interval that [start()] set and no other, and the scheduler reports that
    it is not running; the timeout of the initial run is not cleared and
    still fires. *)
Theorem stop_clears_what_start_set calls :
  let s := run calls in
  let s' := stop (start s) in
  isRunning s' = false
  ∧ getStatus s' = (false, "interval", None)
  ∧ intervals s' = intervals s
  ∧ timeouts s' = S (nextHandle s) :: timeouts s.
Proof.
  intros s s'. destruct (run_invariant calls) as (_ & Hfresh & _). fold s in Hfresh.
  subst s'. unfold stop, start. simpl. repeat split.
  rewrite filter_cons, decide_False by (intros Hne; by apply Hne).
  apply filter_ne_fresh. intros Hin%Hfresh. lia.
Qed.

(** X24: [start()] does not look at [this.interval]: called on a scheduler
    that is running it sets a second interval and forgets the handle of the
    first, which [stop()] then cannot clear.  After [start()], [start()],
    [stop()] the scheduler reports that it is not running while one interval
    more than before is live. *)
Theorem start_twice_leaves_an_interval calls :
  let s := run calls in
  let s' := stop (start (start s)) in
  isRunning s' = false
  ∧ intervals s' = nextHandle s :: intervals s
  ∧ stop s' = s'.
Proof.
  intros s s'. destruct (run_invariant calls) as (_ & Hfresh & _). fold s in Hfresh.
  subst s'. unfold stop, start. simpl. repeat split.
  rewrite filter_cons, decide_False by (intros Hne; by apply Hne).
  rewrite filter_cons, decide_True by lia. f_equal.
  apply filter_ne_fresh. intros Hin%Hfresh. lia.
Qed.

End SchedulerFacts.

#[local] Existing Instance Demo.platform.

(** The scenario of the specification, served in sequence: P1 books the slot,
    P2 is refused, P1 cancels, and P2 is then granted the slot. *)
Example scenario_book_refuse_cancel_rebook :
  let db1 := (addAppointment Demo.db0 Demo.P1 Demo.request Demo.clock Demo.A1).1 in
  let refused := addAppointment db1 Demo.P2 Demo.request Demo.clock Demo.A2 in
  let db2 := (cancelAppointment db1 Demo.P1 Demo.A1).1 in
  let granted := addAppointment db2 Demo.P2 Demo.request Demo.clock Demo.A2 in
  appointmentSlots db1 !! Demo.S1
    = Some (AppointmentSlot.setBooking true false (Some Demo.P1) Demo.slot1)
  ∧ refused = (db1, SlotUnavailable)
  ∧ appointmentSlots db2 !! Demo.S1 = Some Demo.slot1
  ∧ granted.2 = Ok 201 Demo.bookedMessage (Demo.appointmentIn Demo.A2 confirmed)
  ∧ appointmentSlots granted.1 !! Demo.S1
    = Some (AppointmentSlot.setBooking true false (Some Demo.P2) Demo.slot1).
Proof. vm_compute. repeat split; reflexivity. Qed.

(** Two scenarios of the specification for the sweep: with the five
    medicines of the catalog the confirmed appointment of P1 is completed and
    linked to a new prescription for it; with an empty catalog it is
    completed and no prescription is stored. *)
Example scenario_sweep_with_and_without_catalog :
  let db := Demo.dbWith [Demo.appointmentIn Demo.A1 confirmed] [] in
  let swept := (AppointmentService.expireAppointments (λ _, true) Demo.clock db
                  Demo.src).1 in
  let bare := mkDb (users db) (appointmentSlots db) (doctors db) (hospitals db) [] [] in
  let swept' := (AppointmentService.expireAppointments (λ _, true) Demo.clock bare
                   Demo.src).1 in
  swept.2 = inl 1%nat
  ∧ User.appointments <$> users swept.1 !! Demo.P1
    = Some [Appointment.setPrescriptionId (Some "rx-0")
              (Demo.appointmentIn Demo.A1 completed)]
  ∧ (Prescription.appointmentId <$> prescriptions swept.1) = [Demo.A1]
  ∧ (length ∘ Prescription.medications <$> prescriptions swept.1) = [1%nat]
  ∧ swept'.2 = inl 1%nat
  ∧ User.appointments <$> users swept'.1 !! Demo.P1
    = Some [Demo.appointmentIn Demo.A1 completed]
  ∧ prescriptions swept'.1 = [].
Proof. vm_compute. repeat split; reflexivity. Qed.

(** The manual endpoint on P1's completed appointment: a source that always
    draws 0 dates the follow-up 7 days ahead, one that always draws 2 dates it
    30 days ahead; the service dates it 7 days ahead for both. *)
Example scenario_followUp_dates :
  let db := Demo.dbWith [Demo.appointmentIn Demo.A1 completed] [] in
  let always (n : nat) := mkSrc (λ _, n) (λ k, "rx-" +:+ pretty k) 0%nat 0%nat in
  let manual g :=
    match (PrescriptionController.generatePrescriptionForAppointment db Demo.P1
             Demo.A1 Demo.clock g).1.2 with
    | Ok _ _ p => Some (Prescription.followUpDate p)
    | Err _ _ => None
    end in
  let service g :=
    Prescription.followUpDate <$>
      serviceGenerator db (Demo.appointmentIn Demo.A1 completed) Demo.P1 Demo.clock g in
  manual (always 0%nat) = Some (addDays Demo.clock 7)
  ∧ manual (always 2%nat) = Some (addDays Demo.clock 30)
  ∧ service (always 0%nat) = Some (addDays Demo.clock 7)
  ∧ service (always 2%nat) = Some (addDays Demo.clock 7).
Proof. vm_compute. repeat split; reflexivity. Qed.

(** C1: two requests for the one free slot of doctor D, interleaved so that
    both read the slot before either writes it.  Both are answered 201, both
    ledgers receive a confirmed appointment for the slot, and the slot ends
    up booked by the later writer.  Served in sequence the second request is
    answered SlotUnavailable. *)
Theorem addAppointment_double_booking :
  let racy :=
    runSchedule Demo.racySchedule
      (Demo.db0, [AwaitUser Demo.call1; AwaitUser Demo.call2]) in
  let serial :=
    runSchedule Demo.serialSchedule
      (Demo.db0, [AwaitUser Demo.call1; AwaitUser Demo.call2]) in
  racy.2 = [Responded (Ok 201 Demo.bookedMessage (Demo.appointmentIn Demo.A1 confirmed));
            Responded (Ok 201 Demo.bookedMessage (Demo.appointmentIn Demo.A2 confirmed))]
  ∧ users racy.1 !! Demo.P1
    = Some (User.mk "p1@example.com" [Demo.appointmentIn Demo.A1 confirmed])
  ∧ users racy.1 !! Demo.P2
    = Some (User.mk "p2@example.com" [Demo.appointmentIn Demo.A2 confirmed])
  ∧ Appointment.slotId (Demo.appointmentIn Demo.A1 confirmed) = Some Demo.S1
  ∧ Appointment.slotId (Demo.appointmentIn Demo.A2 confirmed) = Some Demo.S1
  ∧ appointmentSlots racy.1 !! Demo.S1
    = Some (AppointmentSlot.setBooking true false (Some Demo.P2) Demo.slot1)
  ∧ serial.2 = [Responded (Ok 201 Demo.bookedMessage (Demo.appointmentIn Demo.A1 confirmed));
                Responded SlotUnavailable].
Proof. vm_compute. repeat split; reflexivity. Qed.

(** ** Witnesses and counterexamples *)





Lemma terminal_status_kept_witness :
  keepsTerminal (OpSweep (λ _, true) Demo.clock) completed
  ∧ statusKept completed (Demo.dbWith [Demo.appointmentIn Demo.A1 completed] [])
      (runOp (OpSweep (λ _, true) Demo.clock)
         (Demo.dbWith [Demo.appointmentIn Demo.A1 completed] []) Demo.src).1.
Proof.
  assert (Hkeeps : keepsTerminal (OpSweep (λ _, true) Demo.clock) completed)
    by (split; [left; reflexivity | exact I]).
  split; [exact Hkeeps|].
  destruct (terminal_status_kept (Demo.dbWith [Demo.appointmentIn Demo.A1 completed] [])
              Demo.src) as (Hkept & _).
  exact (Hkept _ _ Hkeeps).
Defined.

(** C2 fails on the code, twice: a PATCH with a status sets a cancelled
    appointment back to confirmed, and a cancellation turns a completed
    appointment into a cancelled one. *)
Lemma terminal_status_not_kept :
  (terminal cancelled
   ∧ users (runOp (OpUpdate Demo.P1 Demo.A1 {[ "status" := "confirmed" ]})
              (Demo.dbWith [Demo.appointmentIn Demo.A1 cancelled] []) Demo.src).1
       !! Demo.P1
     = Some (User.mk "p1@example.com" [Demo.appointmentIn Demo.A1 confirmed])
   ∧ ¬ statusKept cancelled (Demo.dbWith [Demo.appointmentIn Demo.A1 cancelled] [])
         (runOp (OpUpdate Demo.P1 Demo.A1 {[ "status" := "confirmed" ]})
            (Demo.dbWith [Demo.appointmentIn Demo.A1 cancelled] []) Demo.src).1)
  ∧ (terminal completed
     ∧ users (runOp (OpCancel Demo.P1 Demo.A1)
                (Demo.dbWith [Demo.appointmentIn Demo.A1 completed] []) Demo.src).1
         !! Demo.P1
       = Some (User.mk "p1@example.com" [Demo.appointmentIn Demo.A1 cancelled])
     ∧ ¬ statusKept completed (Demo.dbWith [Demo.appointmentIn Demo.A1 completed] [])
           (runOp (OpCancel Demo.P1 Demo.A1)
              (Demo.dbWith [Demo.appointmentIn Demo.A1 completed] []) Demo.src).1).
Proof.
  split.
  - split; [by right|]. split; [vm_compute; reflexivity|]. intros Hkept.
    destruct (Hkept Demo.P1
                (User.mk "p1@example.com" [Demo.appointmentIn Demo.A1 cancelled])
                0%nat (Demo.appointmentIn Demo.A1 cancelled))
      as (u' & a' & Hu' & Ha' & Hst); [reflexivity..|].
    vm_compute in Hu'. injection Hu' as <-.
    vm_compute in Ha'. injection Ha' as <-.
    discriminate Hst.
  - split; [by left|]. split; [vm_compute; reflexivity|]. intros Hkept.
    destruct (Hkept Demo.P1
                (User.mk "p1@example.com" [Demo.appointmentIn Demo.A1 completed])
                0%nat (Demo.appointmentIn Demo.A1 completed))
      as (u' & a' & Hu' & Ha' & Hst); [reflexivity..|].
    vm_compute in Hu'. injection Hu' as <-.
    vm_compute in Ha'. injection Ha' as <-.
    discriminate Hst.
Qed.

(** C8 fails on the code: when the save of P1's ledger fails the sweep ends,
    and P2, whose save would have succeeded, keeps a confirmed appointment. *)
Lemma sweep_abandons_later_patients :
  ¬ sweepIsolatesFailures Demo.p1SaveFails Demo.clock Demo.bothConfirmed Demo.src.
Proof.
  intros Hisolates.
  apply (Hisolates Demo.P2
           (User.mk "p2@example.com" [Demo.appointmentIn Demo.A2 confirmed])
           (Demo.appointmentIn Demo.A2 confirmed)).
  - reflexivity.
  - vm_compute. reflexivity.
  - simpl. left.
  - reflexivity.
Qed.

(** C9 fails on the code: the service never dates a follow-up 14 days ahead. *)
Lemma service_followUp_is_fixed :
  ¬ followUpChosenFromSet
      (serviceGenerator Demo.db0 (Demo.appointmentIn Demo.A1 completed) Demo.P1
         Demo.clock) Demo.clock.
Proof.
  intros [_ Hevery]. destruct (Hevery 14) as (g & p & Hgen & Hdate).
  { unfold followUpDays. set_solver. }
  unfold serviceGenerator in Hgen.
  destruct (AppointmentService.generatePrescription _ _ _ _ g) as [[db' r] g'] eqn:Hrun.
  simpl in Hgen. destruct r as [q|]; [|done]. injection Hgen as ->.
  apply generatePrescription_cases in Hrun
    as (_ & _ & _ & _ & [(q & _ & _ & Hfind)
                      | [(q & [= <-] & _ & _ & _ & _ & Hfu) | (e & ? & _)]]);
    [done| |done].
  rewrite Hfu in Hdate. vm_compute in Hdate. done.
Qed.

(** ** The theorems on the rest of the backend, on the small hospital *)

Lemma generateSlots_well_formed_witness :
  Demo.slot1 ∈ Seed.generateSlots Demo.xmas Sample.docs
  ∧ isTimeHHMM (AppointmentSlot.startTime Demo.slot1) = true
  ∧ isTimeHHMM (AppointmentSlot.endTime Demo.slot1) = true.
Proof.
  assert (Hin : Demo.slot1 ∈ Seed.generateSlots Demo.xmas Sample.docs).
  { apply (list_elem_of_lookup_2 _ 0%nat). vm_compute. reflexivity. }
  split; [exact Hin|].
  destruct (generateSlots_well_formed Demo.xmas Sample.docs Demo.slot1)
    as (Hstart & Hend & _); [|exact Hin|by split].
  intros doc ->%list_elem_of_singleton. simpl. lia.
Defined.

Lemma slotsOfDay_tiles_witness :
  length (slotsOfDay Demo.D Demo.H Demo.xmas 30) = 16%nat
  ∧ AppointmentSlot.endTime <$> last (slotsOfDay Demo.D Demo.H Demo.xmas 30)
    = Some "17:00".
Proof.
  destruct (slotsOfDay_tiles Demo.D Demo.H Demo.xmas 30) as (_ & _ & Hlast & Hlen & _);
    [lia | by exists 2%Z |].
  split; [exact Hlen | exact Hlast].
Defined.

Lemma seedSlots_unique_index_witness :
  (map_to_list (Seed.seedSlots Demo.xmas Sample.docs Sample.src).1).*2
  ≡ₚ Seed.generateSlots Demo.xmas Sample.docs
  ∧ uniqueSlots
      (setAppointmentSlots (Seed.seedSlots Demo.xmas Sample.docs Sample.src).1 Demo.db0).
Proof.
  apply (seedSlots_unique_index Demo.xmas Sample.docs Sample.src Demo.db0).
  - intros i j Heq. simpl in Heq. by apply (inj pretty) in Heq.
  - apply NoDup_singleton.
  - intros doc ->%list_elem_of_singleton. simpl. lia.
  - apply (bool_decide_unpack (NoDup _)). vm_compute. exact I.
Defined.

Lemma getAppointments_sound_witness :
  ∃ user, users Sample.oneConfirmed !! Demo.P1 = Some user
          ∧ Demo.appointmentIn Demo.A1 confirmed ∈ User.appointments user
          ∧ matchesQuery Sample.firstPage (Demo.appointmentIn Demo.A1 confirmed).
Proof.
  apply (getAppointments_sound Sample.oneConfirmed Demo.P1 Sample.firstPage).
  apply (list_elem_of_lookup_2 _ 0%nat). vm_compute. reflexivity.
Defined.

Lemma getAppointments_order_witness :
  StronglySorted newerFirst (pageOf Sample.oneConfirmed Demo.P1 Sample.firstPage).
Proof.
  apply (getAppointments_order Sample.oneConfirmed Demo.P1 Sample.firstPage
           (User.mk "p1@example.com" [Demo.appointmentIn Demo.A1 confirmed]) Demo.clock).
  vm_compute. reflexivity.
Defined.

Lemma getAppointments_pages_cover_witness :
  ∃ pages,
    pg_pages <$> paginationOf Sample.oneConfirmed Demo.P1 Sample.firstPage
    = Some (Some pages)
    ∧ mjoin ((λ p, pageOf Sample.oneConfirmed Demo.P1 (withPage p Sample.firstPage))
               <$> seqZ 1 pages)
      = matchingAppointments Sample.firstPage [Demo.appointmentIn Demo.A1 confirmed].
Proof.
  apply (getAppointments_pages_cover Sample.oneConfirmed Demo.P1 Sample.firstPage
           (User.mk "p1@example.com" [Demo.appointmentIn Demo.A1 confirmed])).
  - vm_compute. reflexivity.
  - reflexivity.
  - simpl. lia.
Defined.

Lemma getAppointments_bad_date_witness :
  ∃ page,
    getAppointments Sample.oneConfirmed Demo.P1 (mkQuery 1 10 "" "yesterday" "" (IntegerLimit 10))
    = Ok 200 "" page
    ∧ page_appointments page = []
    ∧ pg_total (page_pagination page) = 0%Z.
Proof.
  apply (getAppointments_bad_date Sample.oneConfirmed Demo.P1
           (mkQuery 1 10 "" "yesterday" "" (IntegerLimit 10))
           (User.mk "p1@example.com" [Demo.appointmentIn Demo.A1 confirmed])).
  - vm_compute. reflexivity.
  - left. split; [discriminate | vm_compute; reflexivity].
Defined.

Lemma getAppointments_empty_page_witness :
  ∃ page,
    getAppointments Sample.oneConfirmed Demo.P1 (mkQuery 0 10 "" "" "" (IntegerLimit 10)) = Ok 200 "" page
    ∧ page_appointments page = []
    ∧ pg_total (page_pagination page) = 1%Z.
Proof.
  apply (getAppointments_empty_page Sample.oneConfirmed Demo.P1 (mkQuery 0 10 "" "" "" (IntegerLimit 10))
           (User.mk "p1@example.com" [Demo.appointmentIn Demo.A1 confirmed])).
  - vm_compute. reflexivity.
  - left. reflexivity.
Defined.

Lemma getAvailableSlots_lists_free_slots_witness :
  ∃ defaultDuration slots,
    getAvailableSlots Sample.endOfDay Demo.db0 Demo.D Demo.H "2024-12-25"
      = Ok 200 "" (formatSlot defaultDuration <$> slots, length slots)
    ∧ StronglySorted byStartTime slots
    ∧ ∀ s, s ∈ slots ↔
        (∃ id, appointmentSlots Demo.db0 !! id = Some s)
        ∧ AppointmentSlot.doctor s = Demo.D
        ∧ AppointmentSlot.hospital s = Demo.H
        ∧ (startOfDay Demo.xmas ≤ AppointmentSlot.date s
           ≤ Sample.endOfDay (startOfDay Demo.xmas))%Z
        ∧ AppointmentSlot.isAvailable s = true
        ∧ AppointmentSlot.isBooked s = false.
Proof.
  apply (getAvailableSlots_lists_free_slots Sample.endOfDay Demo.db0 Demo.D Demo.H
           "2024-12-25" Demo.xmas); vm_compute; reflexivity.
Defined.

Lemma getAvailableSlots_views_witness :
  getAvailableSlots Sample.endOfDay Demo.db0 Demo.D Demo.H "2024-12-25"
  = Ok 200 "" ([mkSlotView "09:00" "09:30" 30 true false], 1%nat)
  ∧ ∀ v, v ∈ [mkSlotView "09:00" "09:30" 30 true false] →
      sv_isAvailable v = true ∧ sv_isBooked v = false ∧ sv_duration v ≠ 0%Z.
Proof.
  assert (Hok : getAvailableSlots Sample.endOfDay Demo.db0 Demo.D Demo.H "2024-12-25"
                = Ok 200 "" ([mkSlotView "09:00" "09:30" 30 true false], 1%nat))
    by (vm_compute; reflexivity).
  split; [exact Hok|].
  apply (getAvailableSlots_views Sample.endOfDay Demo.db0 Demo.D Demo.H "2024-12-25"
           _ _ _ _ Hok).
Defined.

Lemma addAppointment_takes_slot_off_listing_witness :
  ∃ defaultDuration before after slot,
    getAvailableSlots Sample.endOfDay Demo.db0 Demo.D Demo.H "2024-12-25"
      = Ok 200 "" (formatSlot defaultDuration <$> before, length before)
    ∧ getAvailableSlots Sample.endOfDay Demo.booked Demo.D Demo.H "2024-12-25"
      = Ok 200 "" (formatSlot defaultDuration <$> after, length after)
    ∧ before ≡ₚ slot :: after
    ∧ AppointmentSlot.startTime slot = "09:00".
Proof.
  apply (addAppointment_takes_slot_off_listing Sample.endOfDay Demo.db0 Demo.P1
           Demo.request Demo.clock Demo.A1 201 Demo.bookedMessage
           (Demo.appointmentIn Demo.A1 confirmed)).
  - intros t. unfold Sample.endOfDay. vm_compute (msPerDay - 1)%Z. lia.
  - vm_compute. reflexivity.
Defined.


Lemma cancelled_slot_is_bookable_witness :
  ∃ a', (addAppointment (cancelAppointment Demo.booked Demo.P1 Demo.A1).1 Demo.P2
           Demo.request Demo.clock Demo.A2).2
        = Ok 201 "Appointment booked successfully! It will be completed in 1 minute." a'
        ∧ Appointment.slotId a' = Some Demo.S1.
Proof.
  apply (cancelled_slot_is_bookable Demo.db0 Demo.P1 Demo.request Demo.clock
           Demo.A1 201 Demo.bookedMessage (Demo.appointmentIn Demo.A1 confirmed)
           (User.mk "p1@example.com" []) Demo.P2 Demo.clock Demo.A2).
  - apply map_Forall_singleton. repeat split; simpl; (discriminate || congruence).
  - vm_compute. reflexivity.
  - intros b Hb. by apply elem_of_nil in Hb.
  - reflexivity.
  - vm_compute. reflexivity.
  - eexists. vm_compute. reflexivity.
Defined.

Lemma generatePrescription_content_witness :
  ∃ p, writtenFor (Demo.appointmentIn Demo.A1 completed) Demo.P1 Demo.clock p
       ∧ (1 ≤ length (Prescription.medications p) ≤ 3)%nat.
Proof.
  assert (Hrun : ∃ db' p g',
            AppointmentService.generatePrescription Demo.db0
              (Demo.appointmentIn Demo.A1 completed) Demo.P1 Demo.clock Demo.src
            = (db', inl p, g')).
  { eexists _, _, _. vm_compute. reflexivity. }
  destruct Hrun as (db' & p & g' & Hrun). exists p.
  destruct (generatePrescription_content Demo.db0 (Demo.appointmentIn Demo.A1 completed)
              Demo.P1 Demo.clock Demo.src db' p g')
    as (Hfor & (selected & _ & Hlen & Hall) & _).
  - intros l seed. reflexivity.
  - reflexivity.
  - exact Hrun.
  - split; [exact Hfor|]. by rewrite <- (Forall2_length _ _ _ Hall).
Defined.

Lemma generatePrescriptionForAppointment_content_witness :
  ∃ p user i a,
    users Sample.oneConfirmed !! Demo.P1 = Some user
    ∧ findAppointment Demo.A1 (User.appointments user) = Some (i, a)
    ∧ writtenFor a Demo.P1 Demo.clock p.
Proof.
  assert (Hrun : ∃ db' p g',
            PrescriptionController.generatePrescriptionForAppointment
              Sample.oneConfirmed Demo.P1 Demo.A1 Demo.clock Demo.src
            = (db', Ok 200 "Prescription generated successfully" p, g')).
  { eexists _, _, _. vm_compute. reflexivity. }
  destruct Hrun as (db' & p & g' & Hrun). exists p.
  destruct (generatePrescriptionForAppointment_content Sample.oneConfirmed Demo.P1
              Demo.A1 Demo.clock Demo.src db' 200 "Prescription generated successfully"
              p g')
    as (user & i & a & Hu & Hfind & Hfor & _).
  - intros l seed. reflexivity.
  - exact Hrun.
  - by exists user, i, a.
Defined.

Lemma expireAppointments_counts_confirmed_witness :
  (AppointmentService.expireAppointments (λ _, true) Demo.clock Demo.bothConfirmed
     Demo.src).1.2
  = inl (confirmedTotal Demo.bothConfirmed).
Proof.
  apply (expireAppointments_counts_confirmed (λ _, true) Demo.clock Demo.bothConfirmed
           Demo.src).
  intros uid. reflexivity.
Defined.

Lemma expireAppointments_twice_witness :
  let out :=
    AppointmentService.expireAppointments (λ _, true) Demo.clock Demo.bothConfirmed
      Demo.src in
  AppointmentService.expireAppointments (λ _, true) (Demo.clock + 10000) out.1.1 out.2
  = (out.1.1, inl 0%nat, out.2).
Proof.
  apply (expireAppointments_twice (λ _, true) Demo.clock (Demo.clock + 10000)
           Demo.bothConfirmed Demo.src).
  intros uid. reflexivity.
Defined.

Lemma cancelAppointment_twice_witness :
  cancelAppointment (cancelAppointment Demo.booked Demo.P1 Demo.A1).1 Demo.P1 Demo.A1
  = ((cancelAppointment Demo.booked Demo.P1 Demo.A1).1, AlreadyCancelled).
Proof.
  apply (cancelAppointment_twice Demo.booked Demo.P1 Demo.A1 200
           "Appointment cancelled successfully").
  vm_compute. reflexivity.
Defined.

Lemma addAppointment_serial_exclusive_witness :
  addAppointment Demo.booked Demo.P2 Demo.request Demo.clock Demo.A2
  = (Demo.booked, SlotUnavailable).
Proof.
  apply (addAppointment_serial_exclusive Demo.db0 Demo.P1 Demo.request Demo.clock
           Demo.A1 201 Demo.bookedMessage (Demo.appointmentIn Demo.A1 confirmed)
           Demo.P2 Demo.clock Demo.A2).
  - intros k1 k2 s1 s2 H1 H2 _ _ _ _. simpl in H1, H2.
    apply lookup_singleton_Some in H1 as [<- _].
    apply lookup_singleton_Some in H2 as [<- _]. reflexivity.
  - vm_compute. reflexivity.
  - eexists. vm_compute. reflexivity.
Defined.

Lemma slots_runSchedule_witness :
  map_Forall (λ _ s, slotFreeOrClaimed s) (appointmentSlots Demo.db0)
  ∧ map_Forall (λ _ s, slotFreeOrClaimed s)
      (appointmentSlots
         (runSchedule Demo.racySchedule
            (Demo.db0, [AwaitUser Demo.call1; AwaitUser Demo.call2])).1).
Proof.
  assert (Hfree : map_Forall (λ _ s, slotFreeOrClaimed s) (appointmentSlots Demo.db0)).
  { apply map_Forall_singleton. left. by repeat split. }
  split; [exact Hfree|].
  apply (slots_runSchedule Demo.racySchedule
           (Demo.db0, [AwaitUser Demo.call1; AwaitUser Demo.call2]) Hfree).
Defined.
